(* ===== verification/_CoqProject ===== *)
-Q . S2P
Prelude.v
PyJson.v
Sqlite.v
Store.v
Session.v
Schema.v
Handlers.v
Router.v
Bootstrap.v
Direct.v
Invariant.v
Typing.v
Commits.v
Concurrency.v
Progress.v
HomeRace.v
Behaviour.v
Ownership.v
Refinement.v
Scenario.v
