(* ===== verification/Prelude.v ===== *)
(** * A verification development for the Data_Sharing_APIT comment board

    The program ([src/main.py], 128 lines) is a Flask application over
    SQLite with Flask-SQLAlchemy and Flask-Marshmallow.  It keeps two tables,
    [user] (a question: [id], [comment]) and [answer] ([id], [answer],
    [question_id]), declares a one-to-many relationship [User.answers] with
    [cascade="all, delete-orphan"], two Marshmallow schemas that render a
    question with its nested answers, and seven routes:
    [add_comment] (POST /add), [home] (GET /home), [delete_comment]
    (DELETE /delete/<id>), [update_comment] (PATCH /update/<id>),
    [add_answer] (POST /add_answer/<question_id>), [delete_answer]
    (DELETE /delete_answer/<id>) and [update_answer] (PATCH /update_answer/<id>).

    ** How the parts interact

    A request's JSON body is parsed by Flask ([request.get_json]); the handler
    inspects it with Python's [in] and [[]] operators; it reads rows through
    the ORM session ([User.query.get], [Answer.query.get]), stages inserts,
    attribute updates and deletes in the session ([db.session.add],
    [db.session.delete], attribute assignment), and [db.session.commit]
    flushes them as SQL statements in one transaction.  The response renders
    the committed rows through the schemas.  An exception anywhere makes
    Flask answer 500 (or the HTTP code of an [HTTPException]) and the session
    teardown rolls back whatever was not committed.

    ** Files, in dependency order

    - [Prelude]   (this file): the error-state monad the handlers run in, with
      its notation in [dsa_scope]; 64-bit integer bounds; generic lemmas on
      tables kept as lists of rows ordered by a key (the SQLite rowid
      B-tree); the [dsa] hint databases and tactics.
    - [PyJson]    request bodies as JSON values, Python's [in] and [[]] on
      them, the exception taxonomy and [request.get_json].
    - [Sqlite]    the column semantics the model declares at lines 20-35:
      binding a Python value to a [VARCHAR(500) NOT NULL] column (TEXT
      affinity, no length check), binding an [Integer] key parameter
      (64-bit, OverflowError beyond), and rowid allocation.
    - [Store]     the two tables as a record of row lists, and the SQL
      statements the ORM issues on them (select, insert, update, delete).
    - [Session]   the unit of work: staged operations, [commit] (flush in
      order, all or nothing), [Query.get], [session.delete] with the
      delete-orphan cascade, and the handler monad over the session.
    - [Schema]    [AnswerSchema] and [UserSchema] as rendering functions.
    - [Handlers]  the seven routes, each the whole function body, and
      [run_handler] (request teardown: uncommitted work is dropped).
    - [Router]    the seven [@app.route] decorators as Werkzeug rules
      (with the OPTIONS and HEAD methods Flask and Werkzeug add), the int
      converter ([\d+] and [int()]), the matcher with its 404 and 405, the
      call of the view with keyword arguments, and [serve_http], Flask's
      dispatch of a method, a path and a body down to [serve].
    - [Bootstrap] the process start (lines 12-13, 122-126): the database
      path and URI, [db.create_all] keeping an existing file, Python's
      [int()] on the PORT variable and the port range of the bind.
    - [Direct]    each route as a function of the store at the level of SQL
      statements, and the theorem that the session-level handlers compute it.
    - [Invariant] the store invariant [wf_db], its preservation by every
      request, the reachable stores (an inductive step relation from the
      empty database) and the bound on rowids after [n] requests.
    - [Typing]    the JSON types of the schemas' output ([AnswerSchema],
      [UserSchema], the delete message, the error object) with an
      executable checker [has_type], and the type of each route's answer.
    - [Commits]   the number of commits each request performs.
    - [Concurrency] every route in three phases over a shared store (its
      lookups before the commit, outside any transaction; the commit as one
      atomic flush; the refresh and rendering after it), the interleaving
      of any number of requests as a step relation [cstep], and an
      executable scheduler.
    - [Progress]  termination of every interleaving (a phase rank per
      thread that every step lowers) and completion under a fair
      scheduler.
    - [HomeRace]  GET /home statement by statement: the SELECT of the
      questions, then the lazy load of each question's answers as it is
      rendered, with other requests committing in between.
    - [Behaviour] what each route does on each branch, proved on [direct]
      through the per-route equations of [Direct] (tactic [to_direct]).
    - [Ownership] the specification's data model (section 3) as an abstract
      nested store, questions owning ordered answer lists, and the contract
      of the seven operations on it as a relation [astep], relaxed where
      the code departs from the specification (id reuse, a 500 for a
      missing field).
    - [Refinement] the abstraction [abs_opt] from the two tables to the
      nested store, undefined on a store with an orphan answer, and the
      simulation of every request by [astep].
    - [Scenario]  the specification's example scenario, evaluated.

    ** Theorems (PROJECT.json numbers them as claims C1, C2, ...; the doc
       comment of each names its claim)

    - invariant: [serve_wf] and [reachable_wf] (every request preserves
      [wf_db]: rowids strictly increasing and in [1, 2^63-1] in each table,
      every answer referencing an existing question);
    - refinement: [serve_refines] (every request leaves a store that still
      represents a nested model, [abs_opt] being undefined on a store with
      an orphan answer, and is a step of the ownership contract from the
      old model with the same response);
    - equivalence: [serve_direct] (the ORM-level handlers, with autoflush,
      the delete-orphan cascade, commit, refresh and teardown, equal the
      statement-level semantics [direct]) and [alone_serve] (a request run
      alone through its phases equals the handler);
    - functional behaviour of every route on every branch: creation at
      [max id + 1] ([add_comment_ok], [add_answer_ok]), the cascade deleting
      exactly the question's answers ([delete_comment_cascade]), updates
      touching one field of one row ([update_comment_ok],
      [update_answer_ok], [update_comment_absent_noop]), [delete_answer_ok];
    - errors: every non-200 response leaves the store unchanged
      ([serve_error_unchanged]); 404s for absent ids whatever the body; a
      string body tested by substring; a missing field is a 500;
    - commits: [commits_per_request], one commit for a write answered 200
      and none otherwise;
    - bounds: [path_id_overflow] (a path id beyond 2^63-1 gives 500, not
      404) and [reachable_rowids_bounded] (after [n] requests no rowid
      exceeds [n]);
    - round trips: [home_after_add], [serve_http_roundtrip] (a request
      printed as method, path and body and routed back runs exactly that
      request), [main_port_roundtrip] (PORT = str(n) is served on port
      [n], an existing file keeps its rows);
    - type: [serve_typed] (every response is a 200 of its route's JSON
      type, a 404 error object on a route with an id, or an error page);
    - routing: [serve_http_bad_id] (a path id that is not a decimal gives
      Werkzeug's 404 page and changes nothing), [serve_http_sound] (the
      store changes only through the handler of a route whose declared
      method is the request's);
    - concurrency: [interleaving_orphan] (an answer added while its
      question is deleted outlives it), [add_inherits_orphan] (the next
      question reuses the id and is returned holding the orphan),
      [interleaving_keys_ok] (primary keys stay sound under any
      interleaving), [update_races_delete] (an update racing a deletion
      fails with 500), [home_not_atomic] (a deletion between the SELECTs
      of GET /home yields a list equal to GET /home on neither the store
      before nor the store after);
    - findings, against the specification: ids are reused
      ([id_reused_after_delete]), not every request commits once, the
      foreign key is lost under concurrency, GET /home is no snapshot; the
      list is in PROJECT.json.

    Lemmas kept beside the claims, each proved: [abs_wf] and
    [reachable_refines] (the nested view of a reachable store is
    well formed and reached by the contract), [astep_wf] (the contract
    keeps the nested model well formed), [bind_int_text_roundtrip] (an
    integer comment is stored as its decimal text), [update_comment_frame],
    [answers_gone_after_delete], [run_schedule_sound], [orphan_inherited]
    and [scenario_responses] (evaluated runs), [home_lazy_first_select]
    (GET /home lists its first SELECT's rows), [main_bad_port] (ValueError
    exactly when [int()] rejects PORT, OverflowError exactly when it is out
    of [0, 65535]), [cstep_terminates] and [fair_schedule_completes]
    (every request has at most three phases; no lock waits are modelled,
    so these hold by the shape of the model).

    ** Modelling choices, bounds, and what is left out

    Strings are Rocq [string]s (bytes); Python counts code points, which
    matters only for the 500-character bound, which neither the code nor
    SQLite enforces.  JSON floats are not modelled (only integers).  Rowid
    allocation at the maximal rowid 2^63-1 (SQLite then probes random
    rowids) is modelled as an insertion failure; by
    [reachable_rowids_bounded] a store reached by
    [n] requests has no rowid above [n], so this needs 2^63-1 requests and
    no theorem about a feasible run depends on the choice.  No definition
    uses fuel: every recursion is structural on a list, a string or a
    JSON value.  The ORM's identity map is not modelled, as every handler loads each row at most once.  Not
    modelled: the socket I/O of [app.run], CORS headers (line 9; they do
    not change status, body or store), non-ASCII whitespace or digits in
    PORT, the byte encoding
    of JSON responses (key sorting by [jsonify]).  [Router] takes the parts of the path (the
    path after its leading slash, split at each slash): Werkzeug's
    normalisation before matching (merge_slashes, which redirects a path
    with a doubled slash) and non-ASCII Unicode digits, which Python's
    [\d] and [int()] also accept, are not modelled.  Flask registers no
    static route since the application has no static folder.  In
    [Concurrency] the statements inside one phase are taken together;
    [HomeRace] separates them for GET /home, whose rendering issues one
    SELECT per question.  The refresh after a commit (PATCH /update)
    reloads one row and lazily its answers; the commits between those two
    SELECTs are not represented.

    ** Plan for later work

    [serve_http] under [Concurrency]; the lazy load of a question's
    answers after the refresh of PATCH /update interleaved with commits. *)


From stdpp Require Export base list strings sorting.
From Stdlib Require Export ZArith Lia.

Declare Scope dsa_scope.
Delimit Scope dsa_scope with dsa.

Create HintDb dsa discriminated.
Create Rewrite HintDb dsa_rw.

(** ** Results and the error-state monad *)

(** A computation either returns a value or raises an exception. *)
Inductive result (E A : Type) : Type :=
| Ok (a : A)
| Raise (e : E).
Arguments Ok {E A} a.
Arguments Raise {E A} e.

Definition res_bind {E A B} (r : result E A) (k : A -> result E B) : result E B :=
  match r with
  | Ok a => k a
  | Raise e => Raise e
  end.

Notation "x <-? r ;; k" := (res_bind r (fun x => k))
  (at level 100, r at next level, right associativity) : dsa_scope.

(** State passing where an exception keeps the state reached so far, as in
    Python: side effects performed before a [raise] are not undone. *)
Definition est (S E A : Type) : Type := S -> result E A * S.

Definition est_ret {S E A} (a : A) : est S E A := fun s => (Ok a, s).

Definition est_bind {S E A B} (m : est S E A) (k : A -> est S E B) : est S E B :=
  fun s =>
    match m s with
    | (Ok a, s') => k a s'
    | (Raise e, s') => (Raise e, s')
    end.

Definition est_raise {S E A} (e : E) : est S E A := fun s => (Raise e, s).

Definition est_lift {S E A} (r : result E A) : est S E A := fun s => (r, s).

Definition est_gets {S E A} (f : S -> A) : est S E A := fun s => (Ok (f s), s).

Definition est_modify {S E} (f : S -> S) : est S E unit := fun s => (Ok tt, f s).

Notation "x <- m ;; k" := (est_bind m (fun x => k))
  (at level 100, m at next level, right associativity) : dsa_scope.
Notation "m ;;; k" := (est_bind m (fun _ => k))
  (at level 100, right associativity) : dsa_scope.

(** ** Signed 64-bit integers (SQLite INTEGER, sqlite3 parameter binding) *)

Open Scope Z_scope.

Definition INT64_MIN : Z := - 2 ^ 63.
Definition INT64_MAX : Z := 2 ^ 63 - 1.

Definition in_int64 (z : Z) : bool := (INT64_MIN <=? z) && (z <=? INT64_MAX).

(** ** Tables kept in key order

    A SQLite table is a B-tree on its rowid: a full scan returns the rows in
    rowid order.  A table is modelled as the list of its rows in that order,
    and the generic facts below are shared by both tables. *)

Section keyed.
Context {R : Type} (key : R -> Z).

Definition keys (rows : list R) : list Z := key <$> rows.

Definition keys_sorted (rows : list R) : Prop := StronglySorted Z.lt (keys rows).

#[global] Instance keys_sorted_dec rows : Decision (keys_sorted rows).
Proof. unfold keys_sorted. apply _. Defined.

(** The largest key, 0 for an empty table. *)
Fixpoint max_key (rows : list R) : Z :=
  match rows with
  | [] => 0
  | r :: rows' => Z.max (key r) (max_key rows')
  end.

Definition find_key (k : Z) (rows : list R) : option R :=
  List.find (fun r => key r =? k) rows.

Definition delete_key (k : Z) (rows : list R) : list R :=
  filter (fun r => key r <> k) rows.

Definition update_key (k : Z) (f : R -> R) (rows : list R) : list R :=
  (fun r => if decide (key r = k) then f r else r) <$> rows.

(** ** Facts about results, the monad and 64-bit bounds *)

Lemma res_bind_Ok_inv {E A B} (r : result E A) (k : A -> result E B) b :
  res_bind r k = Ok b -> exists a, r = Ok a /\ k a = Ok b.
Proof. destruct r; simpl; [eauto | done]. Qed.

Lemma est_bind_ok {S E A B} (m : est S E A) (k : A -> est S E B) s a s' :
  m s = (Ok a, s') -> est_bind m k s = k a s'.
Proof. intros H. unfold est_bind. by rewrite H. Qed.

Lemma est_bind_raise {S E A B} (m : est S E A) (k : A -> est S E B) s e s' :
  m s = (Raise e, s') -> est_bind m k s = (Raise e, s').
Proof. intros H. unfold est_bind. by rewrite H. Qed.

Lemma est_bind_ret {S E A B} (a : A) (k : A -> est S E B) s :
  est_bind (est_ret a) k s = k a s.
Proof. reflexivity. Qed.

Lemma est_bind_assoc {S E A B C} (m : est S E A) (k : A -> est S E B)
      (h : B -> est S E C) s :
  est_bind (est_bind m k) h s = est_bind m (fun a => est_bind (k a) h) s.
Proof. unfold est_bind. by destruct (m s) as [[a|e] s']. Qed.

Lemma in_int64_spec z : in_int64 z = true <-> INT64_MIN <= z <= INT64_MAX.
Proof. unfold in_int64. rewrite andb_true_iff, !Z.leb_le. done. Qed.

(** ** Generic list facts *)

Lemma Forall_filter_sub {A} (P Q : A -> Prop) `{!forall x, Decision (Q x)} (l : list A) :
  Forall P l -> Forall P (filter Q l).
Proof.
  rewrite !Forall_forall. intros HP x [_ Hx]%list_elem_of_filter. by apply HP.
Qed.

Lemma filter_none {A} (P : A -> Prop) `{!forall x, Decision (P x)} (l : list A) :
  (forall x, x ∈ l -> ~ P x) -> filter P l = [].
Proof.
  induction l as [|x l IH]; intros Hn; [done|]. rewrite filter_cons.
  rewrite decide_False by (apply Hn; left). apply IH. intros y Hy. apply Hn. by right.
Qed.

Lemma filter_all {A} (P : A -> Prop) `{!forall x, Decision (P x)} (l : list A) :
  (forall x, x ∈ l -> P x) -> filter P l = l.
Proof.
  induction l as [|x l IH]; intros Hp; [done|]. rewrite filter_cons.
  rewrite decide_True by (apply Hp; left). f_equal. apply IH. intros y Hy. apply Hp. by right.
Qed.

(** Two filters that agree on the members of the list give the same list. *)
Lemma filter_ext_in {A} (P Q : A -> Prop) `{!forall x, Decision (P x), !forall x, Decision (Q x)}
      (l : list A) :
  (forall x, x ∈ l -> P x <-> Q x) -> filter P l = filter Q l.
Proof.
  induction l as [|x l IH]; intros Hpq; [done|]. rewrite !filter_cons.
  assert (P x <-> Q x) as Hx by (apply Hpq; left).
  rewrite IH by (intros y Hy; apply Hpq; by right).
  by destruct (decide (P x)), (decide (Q x)); naive_solver.
Qed.

(** ** Facts about tables kept in key order *)

Lemma max_key_ge rows r : r ∈ rows -> key r <= max_key rows.
Proof.
  induction rows as [|r' rows IH]; simpl.
  - by intros ?%elem_of_nil.
  - intros [->|Hin]%elem_of_cons; [lia|]. specialize (IH Hin). lia.
Qed.

Lemma keys_sorted_NoDup rows : keys_sorted rows -> NoDup (keys rows).
Proof.
  unfold keys_sorted. generalize (keys rows). intros l Hs.
  induction Hs as [|x l Hs IH Hlt]; constructor; [|done].
  rewrite Forall_forall in Hlt. intros Hx. specialize (Hlt x Hx). lia.
Qed.

Lemma max_key_nonneg rows : 0 <= max_key rows.
Proof. induction rows; simpl; lia. Qed.

(** A positive maximum is the key of a row. *)
Lemma max_key_attained rows : 0 < max_key rows -> max_key rows ∈ keys rows.
Proof.
  unfold keys. induction rows as [|r rows IH]; simpl; intros Hpos; [lia|].
  rewrite elem_of_cons.
  destruct (Z.max_spec (key r) (max_key rows)) as [[Hlt Heq]|[Hle Heq]]; rewrite Heq in *;
    [right; apply IH; lia | by left].
Qed.

Lemma max_key_snoc rows r :
  max_key (rows ++ [r]) = Z.max (max_key rows) (key r).
Proof.
  induction rows as [|r' rows IH]; simpl; rewrite ?IH; lia.
Qed.

Lemma max_key_keys rows : max_key rows = foldr Z.max 0 (keys rows).
Proof. unfold keys. induction rows as [|r rows IH]; simpl; [done|]. by rewrite IH. Qed.

Lemma max_key_filter (P : R -> Prop) `{!forall r, Decision (P r)} rows :
  max_key (filter P rows) <= max_key rows.
Proof.
  induction rows as [|r rows IH]; [done|]. rewrite filter_cons. simpl.
  case_decide; simpl; lia.
Qed.

Lemma keys_sorted_snoc rows r :
  keys_sorted rows -> max_key rows < key r -> keys_sorted (rows ++ [r]).
Proof.
  unfold keys_sorted, keys. intros Hs Hlt. rewrite fmap_app.
  apply StronglySorted_app_2; [| done | repeat constructor].
  intros x y Hx Hy. apply list_elem_of_singleton in Hy as ->.
  apply list_elem_of_fmap in Hx as (r' & -> & Hr').
  pose proof (max_key_ge rows r' Hr'). lia.
Qed.

Lemma keys_sorted_filter (P : R -> Prop) `{!forall r, Decision (P r)} rows :
  keys_sorted rows -> keys_sorted (filter P rows).
Proof.
  unfold keys_sorted, keys. induction rows as [|r rows IH]; [done|].
  rewrite fmap_cons, StronglySorted_cons. intros [Hf Hs]. rewrite filter_cons.
  case_decide; [|by auto].
  rewrite fmap_cons, StronglySorted_cons. split; [|by auto].
  apply Forall_fmap, Forall_forall. rewrite Forall_forall in Hf.
  intros r' [_ Hr']%list_elem_of_filter. by apply Hf, list_elem_of_fmap_2.
Qed.

Lemma keys_update k f rows :
  (forall r, key (f r) = key r) -> keys (update_key k f rows) = keys rows.
Proof.
  intros Hf. unfold keys, update_key. rewrite <-list_fmap_compose.
  apply list_fmap_ext. intros i r _. simpl. by case_decide; [rewrite Hf|].
Qed.

Lemma update_key_absent k f rows : k ∉ keys rows -> update_key k f rows = rows.
Proof.
  unfold keys, update_key. induction rows as [|r rows IH]; intros Hk; [done|].
  rewrite fmap_cons, not_elem_of_cons in Hk. destruct Hk as [Hr Hk].
  simpl. case_decide; [done|]. f_equal. by apply IH.
Qed.

Lemma max_key_update k f rows :
  (forall r, key (f r) = key r) -> max_key (update_key k f rows) = max_key rows.
Proof. intros Hf. by rewrite !max_key_keys, keys_update. Qed.


Lemma find_key_Some k rows r :
  find_key k rows = Some r -> r ∈ rows /\ key r = k.
Proof.
  unfold find_key. intros H. split.
  - apply list_elem_of_In. by eapply find_some.
  - apply find_some in H as [_ H]. by apply Z.eqb_eq.
Qed.

Lemma find_key_None k rows :
  find_key k rows = None <-> k ∉ keys rows.
Proof.
  unfold find_key, keys. induction rows as [|r rows IH]; simpl.
  - split; [intros _; apply not_elem_of_nil | done].
  - rewrite not_elem_of_cons, <-IH.
    destruct (Z.eqb_spec (key r) k) as [Heq|Hne].
    + split; [done|]. intros [Hk _]. by destruct Hk.
    + split; [intros Hf; by split|]. by intros [_ Hf].
Qed.

Lemma find_key_app k rows1 rows2 :
  find_key k (rows1 ++ rows2) =
  match find_key k rows1 with Some r => Some r | None => find_key k rows2 end.
Proof.
  unfold find_key. induction rows1 as [|r rows1 IH]; [done|]. simpl.
  by destruct (key r =? k).
Qed.

(** A row appended with a fresh key is found by that key. *)
Lemma find_key_snoc_fresh rows r :
  key r ∉ keys rows -> find_key (key r) (rows ++ [r]) = Some r.
Proof.
  intros Hn. rewrite find_key_app, (proj2 (find_key_None _ _) Hn).
  unfold find_key. simpl. by rewrite Z.eqb_refl.
Qed.

Lemma find_key_update k k' f rows :
  (forall r, key (f r) = key r) ->
  find_key k' (update_key k f rows) =
  (fun r => if decide (key r = k) then f r else r) <$> find_key k' rows.
Proof.
  intros Hf. unfold find_key, update_key. induction rows as [|r rows IH]; [done|].
  rewrite fmap_cons. cbn [List.find].
  case_decide as Hk; rewrite ?Hf; destruct (key r =? k') eqn:E; simpl;
    rewrite ?Hk, ?decide_True, ?decide_False by done; auto.
Qed.

Lemma find_key_delete_ne k k' rows :
  k <> k' -> find_key k' (delete_key k rows) = find_key k' rows.
Proof.
  intros Hne. unfold find_key, delete_key. induction rows as [|r rows IH]; [done|].
  rewrite filter_cons. cbn [List.find].
  case_decide as Hk; cbn [List.find]; rewrite ?IH; [done|].
  assert (key r = k) as -> by lia.
  destruct (Z.eqb_spec k k'); done.
Qed.

Lemma find_key_delete_eq k rows : find_key k (delete_key k rows) = None.
Proof.
  unfold find_key, delete_key. induction rows as [|r rows IH]; [done|].
  rewrite filter_cons. case_decide as Hk; cbn [List.find]; [|done].
  destruct (Z.eqb_spec (key r) k); done.
Qed.

(** Deleting keys one after the other removes exactly the rows with those
    keys. *)
Lemma foldl_delete_key rows ks :
  foldl (fun rs k => delete_key k rs) rows ks = filter (fun r => key r ∉ ks) rows.
Proof.
  revert rows. induction ks as [|k ks IH]; intros rows; simpl.
  - symmetry. apply filter_all. intros r _. apply not_elem_of_nil.
  - rewrite IH. unfold delete_key. rewrite list_filter_filter.
    apply list_filter_iff. intros r. rewrite not_elem_of_cons. naive_solver.
Qed.

(** In a table with distinct keys, a row is found by its own key. *)
Lemma find_key_elem rows r :
  keys_sorted rows -> r ∈ rows -> find_key (key r) rows = Some r.
Proof.
  unfold keys_sorted, keys, find_key. induction rows as [|r' rows IH].
  - by intros _ ?%elem_of_nil.
  - rewrite fmap_cons, StronglySorted_cons. cbn [List.find].
    intros [Hf Hs] [->|Hin]%elem_of_cons.
    + by rewrite Z.eqb_refl.
    + destruct (Z.eqb_spec (key r') (key r)) as [Heq|]; [|by auto].
      rewrite Forall_forall in Hf. specialize (Hf (key r) (list_elem_of_fmap_2 _ _ _ Hin)).
      lia.
Qed.

Lemma Forall_update_key (P : R -> Prop) k f rows :
  (forall r, P r -> P (f r)) -> Forall P rows -> Forall P (update_key k f rows).
Proof.
  intros Hf HP. unfold update_key. apply Forall_fmap. eapply Forall_impl; [exact HP|].
  intros r Hr. simpl. case_decide; auto.
Qed.

Lemma keys_filter_sub (P : R -> Prop) `{!forall r, Decision (P r)} (Q : Z -> Prop) rows :
  Forall Q (keys rows) -> Forall Q (keys (filter P rows)).
Proof.
  unfold keys. rewrite !Forall_fmap. apply Forall_filter_sub.
Qed.

Lemma keys_delete_key_in k k' rows :
  k' ∈ keys rows -> k' <> k -> k' ∈ keys (delete_key k rows).
Proof.
  unfold keys, delete_key. rewrite !list_elem_of_fmap. intros (r & -> & Hr) Hne.
  exists r. split; [done|]. by apply list_elem_of_filter.
Qed.

Lemma keys_snoc_in k rows r : k ∈ keys rows -> k ∈ keys (rows ++ [r]).
Proof. unfold keys. rewrite fmap_app, elem_of_app. by left. Qed.

Lemma keys_sorted_inj rows r1 r2 :
  keys_sorted rows -> r1 ∈ rows -> r2 ∈ rows -> key r1 = key r2 -> r1 = r2.
Proof.
  intros Hs H1 H2 Hk. pose proof (find_key_elem rows r1 Hs H1) as E1.
  rewrite Hk, (find_key_elem rows r2 Hs H2) in E1. congruence.
Qed.

(** Removing the rows whose keys are those of a selection removes exactly
    the selection. *)
Lemma filter_keys_of_filter (P : R -> Prop) `{!forall r, Decision (P r)} rows :
  keys_sorted rows ->
  filter (fun r => key r ∉ keys (filter P rows)) rows = filter (fun r => ~ P r) rows.
Proof.
  intros Hs. apply filter_ext_in. intros r Hr. unfold keys.
  rewrite list_elem_of_fmap. split.
  - intros Hn HP. apply Hn. exists r. split; [done|]. by apply list_elem_of_filter.
  - intros HnP (r' & Hk & [HP Hr']%list_elem_of_filter).
    by rewrite (keys_sorted_inj rows r r' Hs Hr Hr' Hk) in HnP.
Qed.
(** Deleting the row with the largest key of a sorted table removes the
    last row. *)
Lemma delete_key_last rows r :
  keys_sorted (rows ++ [r]) -> delete_key (key r) (rows ++ [r]) = rows.
Proof.
  unfold keys_sorted, keys, delete_key. rewrite fmap_app. intros Hs.
  rewrite filter_app, filter_cons, filter_nil, decide_False by naive_solver.
  rewrite app_nil_r. apply filter_all. intros x Hx Heq.
  pose proof (StronglySorted_app_1_elem_of _ _ _ (key x) (key r) Hs
                (list_elem_of_fmap_2 _ _ _ Hx) (proj2 (list_elem_of_singleton _ _) eq_refl)).
  lia.
Qed.
(** Looking up a key in a filtered table with distinct keys. *)
Lemma find_key_filter (P : R -> Prop) `{!forall r, Decision (P r)} k rows :
  keys_sorted rows ->
  find_key k (filter P rows) =
  match find_key k rows with Some r => if decide (P r) then Some r else None | None => None end.
Proof.
  unfold keys_sorted, keys. induction rows as [|r rows IH]; intros Hs; [done|].
  rewrite fmap_cons in Hs. apply StronglySorted_inv in Hs as [Hs Hlt].
  rewrite filter_cons. unfold find_key in *. simpl.
  destruct (Z.eqb_spec (key r) k) as [<-|Hne].
  - case_decide; simpl; [by rewrite Z.eqb_refl|]. apply find_key_None.
    intros (r' & Hk & Hin)%list_elem_of_fmap.
    apply list_elem_of_filter in Hin as [_ Hin]. rewrite Forall_forall in Hlt.
    specialize (Hlt (key r') (list_elem_of_fmap_2 _ _ _ Hin)). lia.
  - rewrite <-IH by done. case_decide; simpl; [|done].
    by destruct (Z.eqb_spec (key r) k).
Qed.

Lemma filter_update_key (P : R -> Prop) `{!forall r, Decision (P r)} k f rows :
  (forall r, P (f r) <-> P r) -> filter P (update_key k f rows) = update_key k f (filter P rows).
Proof.
  intros Hf. unfold update_key. induction rows as [|r rows IH]; [done|].
  rewrite fmap_cons, !filter_cons. simpl.
  destruct (decide (key r = k)) as [Hk|Hk];
    [destruct (decide (P r)) as [HP|HP]; [rewrite decide_True by by apply Hf
                                         |rewrite decide_False by by rewrite Hf]
    |destruct (decide (P r)) as [HP|HP]];
    rewrite ?fmap_cons, IH; simpl; rewrite ?decide_True, ?decide_False by done; done.
Qed.

End keyed.

#[export] Hint Rewrite @est_bind_ret @est_bind_assoc : dsa_rw.

#[export] Hint Resolve Forall_filter_sub : dsa.


Lemma filter_fmap {A B} (P : B -> Prop) `{!forall x, Decision (P x)} (g : A -> B) (l : list A) :
  filter P (g <$> l) = g <$> filter (fun x => P (g x)) l.
Proof.
  induction l as [|x l IH]; [done|]. rewrite fmap_cons, !filter_cons.
  by case_decide; rewrite ?fmap_cons, IH.
Qed.

Lemma fmap_ext_in {A B} (f g : A -> B) (l : list A) :
  (forall x, x ∈ l -> f x = g x) -> f <$> l = g <$> l.
Proof. intros H. apply list_fmap_ext. intros i x Hi. by apply H, list_elem_of_lookup_2 with i. Qed.

(** Renaming the rows of a table by [g]: keys, lookups and updates follow. *)
Section rename.
Context {R R' : Type} (key : R -> Z) (key' : R' -> Z) (g : R -> R').
Hypothesis Hkey : forall r, key' (g r) = key r.

Lemma find_key_fmap k rows : find_key key' k (g <$> rows) = g <$> find_key key k rows.
Proof.
  unfold find_key. induction rows as [|r rows IH]; [done|]. simpl.
  rewrite Hkey. by destruct (key r =? k).
Qed.

Lemma update_key_fmap k f f' rows :
  (forall r, g (f r) = f' (g r)) ->
  g <$> update_key key k f rows = update_key key' k f' (g <$> rows).
Proof.
  intros Hf. unfold update_key. rewrite <-!list_fmap_compose.
  apply list_fmap_ext. intros i r _. simpl. rewrite Hkey. by case_decide.
Qed.

Lemma delete_key_fmap k rows : g <$> delete_key key k rows = delete_key key' k (g <$> rows).
Proof. unfold delete_key. rewrite filter_fmap. f_equal. apply filter_ext_in. intros r _. by rewrite Hkey. Qed.
End rename.

#[export] Hint Resolve max_key_nonneg keys_sorted_snoc keys_sorted_filter : dsa.

(** Case analysis on the [decide] and [=?] tests left in a goal. *)
Ltac dsa_cases :=
  repeat match goal with
    | |- context [decide ?P] => destruct (decide P)
    | |- context [Z.eqb ?a ?b] => destruct (Z.eqb_spec a b)
    | |- context [Z.ltb ?a ?b] => destruct (Z.ltb_spec a b)
    | |- context [Z.leb ?a ?b] => destruct (Z.leb_spec a b)
    end.
