(* ===== verification/PyJson.v ===== *)
(** * Request bodies and the Python operations the handlers apply to them

    A handler reads its body with [request.get_json()] and then inspects the
    result with [data['comment']] (lines 60, 96) or ['comment' in data] and
    [data['comment']] (lines 85-86, 116-117).  The body is any JSON value,
    so these are Python's [in] and [[]] on whatever [json.loads] returned:
    a dict, a list, a string, a number, a boolean or [None].  This file
    models those values, the two operators with their exceptions, and
    [get_json] itself. *)

From S2P Require Import Prelude.

#[local] Set Warnings "-register-all".

(** ** JSON values as [json.loads] returns them

    An object keeps its members in source order, duplicates included;
    Python's dict keeps the last value of a duplicated key. *)
Inductive json : Type :=
| JNull
| JBool (b : bool)
| JInt (z : Z)
| JStr (s : string)
| JArr (l : list json)
| JObj (kvs : list (string * json)).

(** ** Exceptions that can escape a handler

    [HTTPException]s carry their status; every other exception makes Flask
    answer 500. *)
Inductive exn : Type :=
| KeyError (k : string)   (** dict lookup of a missing key *)
| TypeError               (** [in] or [[]] on a value that does not support it *)
| BadRequest              (** 400: the body is not valid JSON *)
| UnsupportedMediaType    (** 415: the request is not [application/json] *)
| IntegrityError          (** SQLite: NOT NULL constraint failed *)
| InterfaceError          (** sqlite3 cannot bind a list or a dict *)
| OverflowError           (** sqlite3 cannot bind an int outside 64 bits *)
| OperationalError        (** SQLite: no rowid left (SQLITE_FULL) *)
| ObjectDeletedError      (** SQLAlchemy: refreshing a row that is gone *)
| StaleDataError.         (** SQLAlchemy: a flushed UPDATE matched no row *)

Definition exn_status (e : exn) : Z :=
  match e with
  | BadRequest => 400
  | UnsupportedMediaType => 415
  | _ => 500
  end.

(** ** The request body as Flask receives it *)
Inductive body : Type :=
| BodyJson (j : json)   (** [application/json] with a well-formed document *)
| BodyInvalid           (** [application/json] whose text does not parse *)
| BodyNotJson.          (** any other content type, or none *)

(** [request.get_json()] with its defaults (force=False, silent=False):
    a parse failure is a 400, a non-JSON content type a 415. *)
Definition get_json (b : body) : result exn json :=
  match b with
  | BodyJson j => Ok j
  | BodyInvalid => Raise BadRequest
  | BodyNotJson => Raise UnsupportedMediaType
  end.

(** ** Python's [k in data] and [data[k]] for a string [k] *)

(** The value of the last member named [k], as a dict built by
    [json.loads] keeps it. *)
Fixpoint dict_lookup (k : string) (kvs : list (string * json)) : option json :=
  match kvs with
  | [] => None
  | (k', v) :: rest =>
      match dict_lookup k rest with
      | Some v' => Some v'
      | None => if String.eqb k k' then Some v else None
      end
  end.

(** [needle in hay] on two strings: substring test. *)
Fixpoint str_contains (needle hay : string) : bool :=
  String.prefix needle hay ||
  match hay with
  | EmptyString => false
  | String _ rest => str_contains needle rest
  end.

Definition json_is_str (k : string) (v : json) : bool :=
  match v with
  | JStr s => String.eqb k s
  | _ => false
  end.

(** [k in data]: key membership on a dict, element equality on a list,
    substring on a string, and a TypeError on [None], booleans and numbers
    ("argument of type 'int' is not iterable"). *)
Definition py_contains (k : string) (data : json) : result exn bool :=
  match data with
  | JObj kvs => Ok (bool_decide (is_Some (dict_lookup k kvs)))
  | JArr l => Ok (existsb (json_is_str k) l)
  | JStr s => Ok (str_contains k s)
  | JNull | JBool _ | JInt _ => Raise TypeError
  end.

(** [data[k]]: a dict lookup raising KeyError; a list, a string, [None], a
    boolean or a number indexed by a string raise TypeError. *)
Definition py_getitem (data : json) (k : string) : result exn json :=
  match data with
  | JObj kvs =>
      match dict_lookup k kvs with
      | Some v => Ok v
      | None => Raise (KeyError k)
      end
  | _ => Raise TypeError
  end.

(** ** Facts the handlers' proofs share *)

Lemma py_getitem_ok data k v :
  py_getitem data k = Ok v <-> exists kvs, data = JObj kvs /\ dict_lookup k kvs = Some v.
Proof.
  split.
  - destruct data; simpl; try discriminate.
    destruct (dict_lookup k kvs) eqn:E; intros H; inversion H; subst; eauto.
  - intros (kvs & -> & H). simpl. by rewrite H.
Qed.

(** On a dict, [k in data] is true exactly when [data[k]] succeeds. *)
Lemma py_contains_dict k kvs :
  py_contains k (JObj kvs) = Ok true <-> exists v, py_getitem (JObj kvs) k = Ok v.
Proof.
  simpl. destruct (dict_lookup k kvs) eqn:E; simpl.
  - split; eauto.
  - split; [done|]. by intros [v Hv].
Qed.

Lemma dict_lookup_app_r k kvs1 kvs2 v :
  dict_lookup k kvs2 = Some v -> dict_lookup k (kvs1 ++ kvs2) = Some v.
Proof.
  induction kvs1 as [|[k' v'] kvs1 IH]; simpl; [done|]. intros H. by rewrite IH.
Qed.

#[export] Hint Resolve dict_lookup_app_r : dsa.
