(* ===== verification/Sqlite.v ===== *)
(** * What SQLite does with the columns [src/main.py] declares

    [User.comment] and [Answer.answer] are [db.String(500), nullable=False]
    (lines 22, 30): a [VARCHAR(500) NOT NULL] column, which SQLite gives TEXT
    affinity and whose length it never checks.  The ids are
    [db.Integer, primary_key=True] (lines 21, 29): an alias of the rowid,
    allocated by SQLite.  [Answer.question_id] is a [db.Integer] with a
    foreign key (line 31) that SQLite does not enforce by default.  The
    handlers bind Python values to these columns without converting them:
    sqlite3 binds [str] as TEXT, [int] and [bool] as a 64-bit INTEGER
    (OverflowError beyond), [None] as NULL, and refuses lists and dicts. *)

From S2P Require Import Prelude PyJson.
From Stdlib Require Import DecimalString DecimalZ.

(** SQLite's text form of an integer stored in a TEXT-affinity column. *)
Definition int_to_text (z : Z) : string := NilEmpty.string_of_int (Z.to_int z).

(** Binding a request value to a [VARCHAR(500) NOT NULL] column and storing
    it: the text that is stored, or the exception the INSERT or UPDATE
    raises.  There is no length check. *)
Definition bind_text_column (v : json) : result exn string :=
  match v with
  | JNull => Raise IntegrityError
  | JBool b => Ok (if b then "1" else "0")
  | JInt z => if in_int64 z then Ok (int_to_text z) else Raise OverflowError
  | JStr s => Ok s
  | JArr _ | JObj _ => Raise InterfaceError
  end.

(** Binding a Python int as an INTEGER parameter, e.g. the primary key of
    [User.query.get(id)] (lines 72, 81, 92, 103, 113). *)
Definition bind_int_param (z : Z) : result exn Z :=
  if in_int64 z then Ok z else Raise OverflowError.

(** The rowid of a row inserted without one: one more than the largest rowid
    of the table, 1 for an empty table.  At the largest rowid SQLite probes
    random free rowids; that case is modelled as SQLITE_FULL. *)
Definition new_rowid (max_rowid : Z) : result exn Z :=
  if max_rowid <? INT64_MAX then Ok (max_rowid + 1) else Raise OperationalError.

(** ** Facts *)

Lemma bind_text_str s : bind_text_column (JStr s) = Ok s.
Proof. reflexivity. Qed.

Lemma bind_text_int z :
  bind_text_column (JInt z) =
  if in_int64 z then Ok (int_to_text z) else Raise OverflowError.
Proof. reflexivity. Qed.

Lemma bind_int_param_ok z : INT64_MIN <= z <= INT64_MAX -> bind_int_param z = Ok z.
Proof. intros H. unfold bind_int_param. by rewrite (proj2 (in_int64_spec z) H). Qed.

Lemma bind_int_param_overflow z : INT64_MAX < z -> bind_int_param z = Raise OverflowError.
Proof.
  intros H. unfold bind_int_param. destruct (in_int64 z) eqn:E; [|done].
  apply in_int64_spec in E. lia.
Qed.

Lemma bind_int_param_inv z k : bind_int_param z = Ok k -> k = z /\ INT64_MIN <= z <= INT64_MAX.
Proof.
  unfold bind_int_param. destruct (in_int64 z) eqn:E; intros H; inversion H; subst.
  by apply in_int64_spec in E.
Qed.

Lemma new_rowid_spec m k :
  new_rowid m = Ok k <-> m < INT64_MAX /\ k = m + 1.
Proof.
  unfold new_rowid. destruct (Z.ltb_spec m INT64_MAX) as [Hlt|Hge]; split.
  - intros Hk. inversion Hk. lia.
  - intros [_ ->]. done.
  - done.
  - lia.
Qed.

#[export] Hint Resolve bind_int_param_ok : dsa.
#[export] Hint Rewrite bind_text_str : dsa_rw.

Lemma new_rowid_raise m e : new_rowid m = Raise e -> e = OperationalError /\ INT64_MAX <= m.
Proof. unfold new_rowid. destruct (Z.ltb_spec m INT64_MAX); intros Hr; inversion Hr; split; [done | lia]. Qed.

(** An integer sent as a comment or answer is stored as its decimal
    text, from which the integer is read back exactly. *)
Theorem bind_int_text_roundtrip z s :
  bind_text_column (JInt z) = Ok s -> Z.of_int <$> NilEmpty.int_of_string s = Some z.
Proof.
  unfold bind_text_column. destruct (in_int64 z); intros H; inversion H; subst.
  unfold int_to_text. rewrite NilEmpty.isi. simpl. by rewrite DecimalZ.of_to.
Qed.

Lemma bind_int_text_roundtrip_witness :
  bind_text_column (JInt (-120)) = Ok "-120" /\
  Z.of_int <$> NilEmpty.int_of_string "-120" = Some (-120).
Proof.
  assert (bind_text_column (JInt (-120)) = Ok "-120") as H by (vm_compute; reflexivity).
  exact (conj H (bind_int_text_roundtrip _ _ H)).
Defined.
