(* ===== verification/Store.v ===== *)
(** * The two tables and the SQL statements the ORM issues on them

    [class User(db.Model)] (lines 20-26) is the table [user] with columns
    [id] and [comment]; [class Answer(db.Model)] (lines 28-35) is the table
    [answer] with [id], [answer] and [question_id].  The store is the pair of
    tables, each the list of its rows in rowid order.  Each statement below
    is the SQL that Flask-SQLAlchemy emits for one ORM action; the binding of
    Python values happens in [Session], before the statement runs. *)

From S2P Require Import Prelude PyJson Sqlite.

Record user_row : Type := mk_user {
  user_id : Z;
  user_comment : string
}.

Record answer_row : Type := mk_answer {
  answer_id : Z;
  answer_text : string;
  answer_qid : Z
}.

Record db : Type := mk_db {
  users : list user_row;
  answers : list answer_row
}.

#[export] Instance user_row_eq_dec : EqDecision user_row.
Proof. solve_decision. Defined.
#[export] Instance answer_row_eq_dec : EqDecision answer_row.
Proof. solve_decision. Defined.
#[export] Instance db_eq_dec : EqDecision db.
Proof. solve_decision. Defined.

(** [db.create_all()] on a fresh file (line 124). *)
Definition empty_db : db := mk_db [] [].

(** [SELECT ... FROM user WHERE user.id = ?] *)
Definition select_user (d : db) (id : Z) : option user_row :=
  find_key user_id id (users d).

(** [SELECT ... FROM answer WHERE answer.id = ?] *)
Definition select_answer (d : db) (id : Z) : option answer_row :=
  find_key answer_id id (answers d).

(** [SELECT ... FROM answer WHERE ? = answer.question_id]: the lazy load of
    [User.answers] (line 23), a table scan in rowid order. *)
Definition select_answers_of (d : db) (qid : Z) : list answer_row :=
  filter (fun a => answer_qid a = qid) (answers d).

(** [INSERT INTO user (comment) VALUES (?)]; returns the new rowid. *)
Definition insert_user (d : db) (c : string) : result exn (Z * db) :=
  match new_rowid (max_key user_id (users d)) with
  | Ok id => Ok (id, mk_db (users d ++ [mk_user id c]) (answers d))
  | Raise e => Raise e
  end.

(** [INSERT INTO answer (answer, question_id) VALUES (?, ?)]. *)
Definition insert_answer (d : db) (t : string) (qid : Z) : result exn (Z * db) :=
  match new_rowid (max_key answer_id (answers d)) with
  | Ok id => Ok (id, mk_db (users d) (answers d ++ [mk_answer id t qid]))
  | Raise e => Raise e
  end.

(** [UPDATE user SET comment=? WHERE user.id = ?] *)
Definition update_user_comment (d : db) (id : Z) (c : string) : db :=
  mk_db (update_key user_id id (fun u => mk_user (user_id u) c) (users d)) (answers d).

(** [UPDATE answer SET answer=? WHERE answer.id = ?] *)
Definition update_answer_text (d : db) (id : Z) (t : string) : db :=
  mk_db (users d)
        (update_key answer_id id (fun a => mk_answer (answer_id a) t (answer_qid a)) (answers d)).

(** [DELETE FROM user WHERE user.id = ?] *)
Definition delete_user_row (d : db) (id : Z) : db :=
  mk_db (delete_key user_id id (users d)) (answers d).

(** [DELETE FROM answer WHERE answer.id = ?] *)
Definition delete_answer_row (d : db) (id : Z) : db :=
  mk_db (users d) (delete_key answer_id id (answers d)).

(** The net effect of deleting a question together with its answers. *)
Definition delete_question (d : db) (id : Z) : db :=
  mk_db (delete_key user_id id (users d)) (filter (fun a => answer_qid a <> id) (answers d)).

(** A small store used to exercise the theorems on concrete data: two
    questions (ids 1 and 3, the question with id 2 having been deleted) and
    three answers. *)
Definition sample_db : db :=
  mk_db [mk_user 1 "Is the sky blue?"; mk_user 3 "Why?"]
        [mk_answer 1 "Yes" 1; mk_answer 2 "Because" 3; mk_answer 4 "No" 1].

Lemma select_user_Some d id u :
  select_user d id = Some u -> u ∈ users d /\ user_id u = id.
Proof. apply find_key_Some. Qed.

Lemma select_answer_Some d id a :
  select_answer d id = Some a -> a ∈ answers d /\ answer_id a = id.
Proof. apply find_key_Some. Qed.

Lemma insert_user_ok d c id d' :
  insert_user d c = Ok (id, d') ->
  max_key user_id (users d) < INT64_MAX /\ id = max_key user_id (users d) + 1 /\
  d' = mk_db (users d ++ [mk_user id c]) (answers d).
Proof.
  unfold insert_user. destruct (new_rowid _) eqn:E; intros H; inversion H; subst.
  apply new_rowid_spec in E as [? ->]. done.
Qed.

Lemma insert_answer_ok d t q id d' :
  insert_answer d t q = Ok (id, d') ->
  max_key answer_id (answers d) < INT64_MAX /\ id = max_key answer_id (answers d) + 1 /\
  d' = mk_db (users d) (answers d ++ [mk_answer id t q]).
Proof.
  unfold insert_answer. destruct (new_rowid _) eqn:E; intros H; inversion H; subst.
  apply new_rowid_spec in E as [? ->]. done.
Qed.

Lemma insert_user_raise d c e :
  insert_user d c = Raise e -> e = OperationalError /\ INT64_MAX <= max_key user_id (users d).
Proof. unfold insert_user. destruct (new_rowid _) eqn:E; intros H; inversion H; subst. by apply new_rowid_raise. Qed.

Lemma insert_answer_raise d t q e :
  insert_answer d t q = Raise e -> e = OperationalError /\ INT64_MAX <= max_key answer_id (answers d).
Proof. unfold insert_answer. destruct (new_rowid _) eqn:E; intros H; inversion H; subst. by apply new_rowid_raise. Qed.

(** ** Statements on a store, as the handler proofs use them *)

Lemma insert_user_fresh d c :
  max_key user_id (users d) < INT64_MAX ->
  insert_user d c =
  Ok (max_key user_id (users d) + 1,
      mk_db (users d ++ [mk_user (max_key user_id (users d) + 1) c]) (answers d)).
Proof.
  intros H. unfold insert_user, new_rowid.
  by destruct (Z.ltb_spec (max_key user_id (users d)) INT64_MAX); [|lia].
Qed.

Lemma insert_answer_fresh d t q :
  max_key answer_id (answers d) < INT64_MAX ->
  insert_answer d t q =
  Ok (max_key answer_id (answers d) + 1,
      mk_db (users d) (answers d ++ [mk_answer (max_key answer_id (answers d) + 1) t q])).
Proof.
  intros H. unfold insert_answer, new_rowid.
  by destruct (Z.ltb_spec (max_key answer_id (answers d)) INT64_MAX); [|lia].
Qed.

(** A key one above the maximum is not used. *)
Lemma max_key_succ_fresh {R} (key : R -> Z) rows : max_key key rows + 1 ∉ keys key rows.
Proof.
  intros (r & Hk & Hin)%list_elem_of_fmap. pose proof (max_key_ge key rows r Hin). lia.
Qed.

Lemma select_user_snoc_fresh d c ans :
  select_user (mk_db (users d ++ [mk_user (max_key user_id (users d) + 1) c]) ans)
              (max_key user_id (users d) + 1) =
  Some (mk_user (max_key user_id (users d) + 1) c).
Proof.
  unfold select_user. simpl.
  apply (find_key_snoc_fresh user_id (users d) (mk_user _ c)), max_key_succ_fresh.
Qed.

Lemma select_answer_snoc_fresh d t q us :
  select_answer (mk_db us (answers d ++ [mk_answer (max_key answer_id (answers d) + 1) t q]))
                (max_key answer_id (answers d) + 1) =
  Some (mk_answer (max_key answer_id (answers d) + 1) t q).
Proof.
  unfold select_answer. simpl.
  apply (find_key_snoc_fresh answer_id (answers d) (mk_answer _ t q)), max_key_succ_fresh.
Qed.



(** ** Reading back what a statement wrote *)

Lemma insert_user_select d c id d' :
  insert_user d c = Ok (id, d') -> select_user d' id = Some (mk_user id c).
Proof. intros (_ & -> & ->)%insert_user_ok. apply select_user_snoc_fresh. Qed.

Lemma insert_answer_select d t q id d' :
  insert_answer d t q = Ok (id, d') -> select_answer d' id = Some (mk_answer id t q).
Proof. intros (_ & -> & ->)%insert_answer_ok. apply select_answer_snoc_fresh. Qed.

Lemma select_user_update_self d k c u :
  select_user d k = Some u -> select_user (update_user_comment d k c) k = Some (mk_user k c).
Proof.
  unfold select_user, update_user_comment. simpl. intros Hu.
  rewrite find_key_update by done. rewrite Hu. simpl.
  apply find_key_Some in Hu as [_ ->]. by rewrite decide_True.
Qed.

Lemma select_answer_update_self d k t a :
  select_answer d k = Some a ->
  select_answer (update_answer_text d k t) k = Some (mk_answer k t (answer_qid a)).
Proof.
  unfold select_answer, update_answer_text. simpl. intros Ha.
  rewrite find_key_update by done. rewrite Ha. simpl.
  apply find_key_Some in Ha as [_ ->]. by rewrite decide_True.
Qed.
