(* ===== verification/Session.v ===== *)
(** * The ORM session: staged work, flush, commit and teardown

    Every handler talks to the database through [db.session] (lines 61-62,
    72-76, 81-87, 92-98, 103-107, 113-118).  Flask-SQLAlchemy gives each
    request its own session: [db.session.add] and [db.session.delete] and
    attribute assignments only stage work; a query first flushes the staged
    work (autoflush) inside the open transaction; [db.session.commit]
    flushes and commits; when the request ends the session is removed, which
    rolls back whatever was not committed.  A flush that fails rolls the
    transaction back and raises.

    The session is the state of the handler monad [M]: the committed store
    (what the next request sees), the store inside the open transaction, the
    staged operations, the rowid of the last INSERT ([cursor.lastrowid],
    which SQLAlchemy uses as the new object's id) and a count of commits. *)

From S2P Require Import Prelude PyJson Sqlite Store.

Local Open Scope dsa_scope.

(** Work staged in the unit of work, each flushed as one SQL statement. *)
Inductive op : Type :=
| InsertUser (comment : json)
| InsertAnswer (answer : json) (qid : Z)
| SetComment (uid : Z) (comment : json)
| SetAnswer (aid : Z) (answer : json)
| DeleteUser (uid : Z)
| DeleteAnswer (aid : Z).

Record session : Type := mk_session {
  s_committed : db;
  s_tx : db;
  s_pending : list op;
  s_lastrowid : Z;
  s_commits : nat
}.

(** The handler monad: state passing over the session, with exceptions. *)
Abbreviation M := (est session exn).

(** A fresh request-scoped session over the committed store. *)
Definition begin_session (d : db) : session := mk_session d d [] 0 0.

(** [session.remove()] at request teardown: the result is the committed
    store; the open transaction and staged work are discarded. *)
Definition teardown (s : session) : db := s_committed s.

(** One staged operation as its SQL statement, with the value bindings.
    An UPDATE that matches no row makes the flush raise StaleDataError
    (SQLAlchemy checks the row count of each UPDATE it emits); a DELETE
    that matches no row only warns. *)
Definition exec_op (d : db) (o : op) : result exn (db * option Z) :=
  match o with
  | InsertUser v =>
      c <-? bind_text_column v ;;
      r <-? insert_user d c ;;
      Ok (r.2, Some r.1)
  | InsertAnswer v q =>
      t <-? bind_text_column v ;;
      q' <-? bind_int_param q ;;
      r <-? insert_answer d t q' ;;
      Ok (r.2, Some r.1)
  | SetComment uid v =>
      c <-? bind_text_column v ;;
      match select_user d uid with
      | Some _ => Ok (update_user_comment d uid c, None)
      | None => Raise StaleDataError
      end
  | SetAnswer aid v =>
      t <-? bind_text_column v ;;
      match select_answer d aid with
      | Some _ => Ok (update_answer_text d aid t, None)
      | None => Raise StaleDataError
      end
  | DeleteUser uid => Ok (delete_user_row d uid, None)
  | DeleteAnswer aid => Ok (delete_answer_row d aid, None)
  end.

(** The statements of a flush, in order; the first failure stops it. *)
Fixpoint flush_ops (d : db) (last : Z) (ops : list op) : result exn (db * Z) :=
  match ops with
  | [] => Ok (d, last)
  | o :: rest =>
      r <-? exec_op d o ;;
      flush_ops r.1 (default last r.2) rest
  end.

(** The transaction rolled back: back to the committed store, nothing staged. *)
Definition rollback (s : session) : session :=
  mk_session (s_committed s) (s_committed s) [] (s_lastrowid s) (s_commits s).

Definition flush : M unit := fun s =>
  match flush_ops (s_tx s) (s_lastrowid s) (s_pending s) with
  | Ok (d', last) => (Ok tt, mk_session (s_committed s) d' [] last (s_commits s))
  | Raise e => (Raise e, rollback s)
  end.

(** [db.session.commit()]. *)
Definition commit : M unit :=
  flush ;;;
  est_modify (fun s => mk_session (s_tx s) (s_tx s) [] (s_lastrowid s) (S (s_commits s))).

(** [db.session.add(obj)] and attribute assignment on a loaded object. *)
Definition stage (o : op) : M unit :=
  est_modify (fun s =>
    mk_session (s_committed s) (s_tx s) (s_pending s ++ [o]) (s_lastrowid s) (s_commits s)).

(** [User.query.get(id)]: autoflush, then a SELECT with [id] bound. *)
Definition query_get_user (id : Z) : M (option user_row) :=
  flush ;;;
  k <- est_lift (bind_int_param id) ;;
  est_gets (fun s => select_user (s_tx s) k).

(** [Answer.query.get(id)]. *)
Definition query_get_answer (id : Z) : M (option answer_row) :=
  flush ;;;
  k <- est_lift (bind_int_param id) ;;
  est_gets (fun s => select_answer (s_tx s) k).

(** [db.session.delete(user)]: the cascade ["all, delete-orphan"] of line 23
    loads [user.answers] and deletes each answer before the user. *)
Definition session_delete_user (u : user_row) : M unit :=
  flush ;;;
  children <- est_gets (fun s => select_answers_of (s_tx s) (user_id u)) ;;
  est_modify (fun s =>
    mk_session (s_committed s) (s_tx s)
      (s_pending s ++ ((fun a => DeleteAnswer (answer_id a)) <$> children) ++ [DeleteUser (user_id u)])
      (s_lastrowid s) (s_commits s)).

(** [db.session.delete(answer)]. *)
Definition session_delete_answer (a : answer_row) : M unit :=
  stage (DeleteAnswer (answer_id a)).

(** The id SQLAlchemy assigns to the object just inserted. *)
Definition lastrowid : M Z := est_gets s_lastrowid.

(** Reading an attribute of an object expired by the commit reloads its row;
    a row that is gone raises ObjectDeletedError. *)
Definition refresh_user (id : Z) : M user_row :=
  flush ;;;
  o <- est_gets (fun s => select_user (s_tx s) id) ;;
  match o with
  | Some u => est_ret u
  | None => est_raise ObjectDeletedError
  end.

Definition refresh_answer (id : Z) : M answer_row :=
  flush ;;;
  o <- est_gets (fun s => select_answer (s_tx s) id) ;;
  match o with
  | Some a => est_ret a
  | None => est_raise ObjectDeletedError
  end.

(** The rows the schemas read after the commit (with autoflush). *)
Definition snapshot : M db := flush ;;; est_gets s_tx.

(** ** Facts about flushing *)

(** Deleting answers one by one, as the flush of the cascade does. *)
Lemma flush_delete_answers d l (xs : list answer_row) rest :
  flush_ops d l (((fun a => DeleteAnswer (answer_id a)) <$> xs) ++ rest) =
  flush_ops (mk_db (users d) (foldl (fun rs k => delete_key answer_id k rs) (answers d)
                                    (answer_id <$> xs))) l rest.
Proof.
  revert d. induction xs as [|x xs IH]; intros d; simpl; [by destruct d|].
  by rewrite IH.
Qed.

(** The flush of [session.delete(user)] deletes the question and exactly
    its answers. *)
Lemma flush_cascade d l u :
  keys_sorted answer_id (answers d) ->
  flush_ops d l (((fun a => DeleteAnswer (answer_id a)) <$> select_answers_of d u)
                 ++ [DeleteUser u]) = Ok (delete_question d u, l).
Proof.
  intros Hs. rewrite flush_delete_answers. simpl. rewrite foldl_delete_key.
  unfold select_answers_of. change (answer_id <$> ?xs) with (keys answer_id xs).
  by rewrite (filter_keys_of_filter answer_id) by done.
Qed.

(** Symbolic execution of handler code: unfold the monad and the session
    layer, leaving the store statements and the value bindings folded. *)
Ltac session_unfold :=
  cbv beta iota zeta delta [est_bind est_ret est_lift est_gets est_modify est_raise
    res_bind commit flush stage lastrowid refresh_user refresh_answer snapshot
    query_get_user query_get_answer session_delete_user session_delete_answer
    rollback teardown begin_session default from_option id fst snd
    s_committed s_tx s_pending s_lastrowid s_commits].
