(* ===== verification/Schema.v ===== *)
(** * The Marshmallow schemas and [jsonify]

    [AnswerSchema] (lines 38-41) renders an answer as its [id], [answer] and
    [question_id]; [UserSchema] (lines 43-49) renders a question as its
    [id], [comment] and the nested list of its [answers], which reads the
    relationship [User.answers] (line 23) and so the rows of the [answer]
    table whose [question_id] is the question's id, in rowid order.
    [user_schema.jsonify] / [answer_schema.jsonify] / [jsonify] (lines 63,
    68, 74, 77, 88, 94, 99, 105, 108, 119) wrap a JSON document into a
    response with status 200 unless a status is given. *)

From S2P Require Import Prelude PyJson Store.

(** An HTTP response: a status and a JSON payload; [None] is the HTML error
    page Flask renders for an exception. *)
Record response : Type := mk_response {
  status : Z;
  payload : option json
}.

Definition jsonify (j : json) : response := mk_response 200 (Some j).

Definition jsonify_status (j : json) (code : Z) : response := mk_response code (Some j).

(** The response for an exception that escapes the handler. *)
Definition error_response (e : exn) : response := mk_response (exn_status e) None.

(** [answer_schema.dump(ans)]. *)
Definition dump_answer (a : answer_row) : json :=
  JObj [("id", JInt (answer_id a)); ("answer", JStr (answer_text a));
        ("question_id", JInt (answer_qid a))].

(** [user_schema.dump(user)], with [answers] as [Nested(AnswerSchema, many=True)]. *)
Definition dump_user (d : db) (u : user_row) : json :=
  JObj [("id", JInt (user_id u)); ("comment", JStr (user_comment u));
        ("answers", JArr (dump_answer <$> select_answers_of d (user_id u)))].

(** [users_schema.dump(User.query.all())]: every question in rowid order. *)
Definition dump_users (d : db) : json := JArr (dump_user d <$> users d).
