(* ===== verification/Handlers.v ===== *)
(** * The seven routes of [src/main.py]

    Each handler is the whole function body of its route, step by step, in
    the monad [M] of [Session]: body parsing and inspection ([PyJson]),
    queries, staged work and the commit ([Session]), and the rendering of
    the response ([Schema]).  [run_handler] is Flask's request cycle around
    it: a fresh session, the handler, an exception turned into its error
    response, and the teardown that keeps only committed work.  [serve]
    dispatches a request to its route ([@app.route], lines 57-119). *)

From S2P Require Import Prelude PyJson Sqlite Store Session Schema.

Local Open Scope dsa_scope.
Local Open Scope string_scope.

Definition not_found (msg : string) : response :=
  jsonify_status (JObj [("error", JStr msg)]) 404.

Definition deleted (msg : string) (id : Z) : response :=
  jsonify (JObj [("message", JStr msg); ("id", JInt id)]).

(** POST /add (lines 57-63). *)
Definition add_comment (b : body) : M response :=
  data <- est_lift (get_json b) ;;
  c <- est_lift (py_getitem data "comment") ;;
  stage (InsertUser c) ;;;
  commit ;;;
  id <- lastrowid ;;
  u <- refresh_user id ;;
  d <- snapshot ;;
  est_ret (jsonify (dump_user d u)).

(** GET /home (lines 65-68). *)
Definition home : M response :=
  d <- snapshot ;;
  est_ret (jsonify (dump_users d)).

(** DELETE /delete/<int:id> (lines 70-77). *)
Definition delete_comment (id : Z) : M response :=
  q <- query_get_user id ;;
  match q with
  | None => est_ret (not_found "Question not found")
  | Some u =>
      session_delete_user u ;;;
      commit ;;;
      est_ret (deleted "Question deleted successfully" id)
  end.

(** PATCH /update/<int:id> (lines 79-88). *)
Definition update_comment (id : Z) (b : body) : M response :=
  q <- query_get_user id ;;
  match q with
  | None => est_ret (not_found "Question not found")
  | Some u =>
      data <- est_lift (get_json b) ;;
      has <- est_lift (py_contains "comment" data) ;;
      (if has then
         v <- est_lift (py_getitem data "comment") ;;
         stage (SetComment (user_id u) v)
       else est_ret tt) ;;;
      commit ;;;
      u' <- refresh_user (user_id u) ;;
      d <- snapshot ;;
      est_ret (jsonify (dump_user d u'))
  end.

(** POST /add_answer/<int:question_id> (lines 90-99). *)
Definition add_answer (question_id : Z) (b : body) : M response :=
  q <- query_get_user question_id ;;
  match q with
  | None => est_ret (not_found "Question not found")
  | Some _ =>
      data <- est_lift (get_json b) ;;
      v <- est_lift (py_getitem data "answer") ;;
      stage (InsertAnswer v question_id) ;;;
      commit ;;;
      id <- lastrowid ;;
      a <- refresh_answer id ;;
      est_ret (jsonify (dump_answer a))
  end.

(** DELETE /delete_answer/<int:id> (lines 101-108). *)
Definition delete_answer (id : Z) : M response :=
  q <- query_get_answer id ;;
  match q with
  | None => est_ret (not_found "Answer not found")
  | Some a =>
      session_delete_answer a ;;;
      commit ;;;
      est_ret (deleted "Answer deleted successfully" id)
  end.

(** PATCH /update_answer/<int:id> (lines 110-119). *)
Definition update_answer (id : Z) (b : body) : M response :=
  q <- query_get_answer id ;;
  match q with
  | None => est_ret (not_found "Answer not found")
  | Some a =>
      data <- est_lift (get_json b) ;;
      has <- est_lift (py_contains "answer" data) ;;
      (if has then
         v <- est_lift (py_getitem data "answer") ;;
         stage (SetAnswer (answer_id a) v)
       else est_ret tt) ;;;
      commit ;;;
      a' <- refresh_answer (answer_id a) ;;
      est_ret (jsonify (dump_answer a'))
  end.

(** One request cycle: the response and the committed store afterwards. *)
Definition run_handler (h : M response) (d : db) : response * db :=
  let '(r, s) := h (begin_session d) in
  (match r with Ok resp => resp | Raise e => error_response e end, teardown s).

(** The routed requests; ids are the path's [<int:...>] values. *)
Inductive request : Type :=
| ReqAdd (b : body)
| ReqHome
| ReqDelete (id : Z)
| ReqUpdate (id : Z) (b : body)
| ReqAddAnswer (question_id : Z) (b : body)
| ReqDeleteAnswer (id : Z)
| ReqUpdateAnswer (id : Z) (b : body).

Definition handler_of (r : request) : M response :=
  match r with
  | ReqAdd b => add_comment b
  | ReqHome => home
  | ReqDelete id => delete_comment id
  | ReqUpdate id b => update_comment id b
  | ReqAddAnswer q b => add_answer q b
  | ReqDeleteAnswer id => delete_answer id
  | ReqUpdateAnswer id b => update_answer id b
  end.

Definition serve (d : db) (r : request) : response * db := run_handler (handler_of r) d.

(** Requests served one after another. *)
Fixpoint serve_all (d : db) (rs : list request) : list response * db :=
  match rs with
  | [] => ([], d)
  | r :: rest =>
      let '(resp, d') := serve d r in
      let '(resps, d'') := serve_all d' rest in
      (resp :: resps, d'')
  end.

(** ** Symbolic execution of a request

    [handler_unfold] unfolds the routes, the Python operations and the
    session layer; [hsimp] then alternates rewriting with the facts in the
    context (the outcome of a lookup, a binding, an insert) and reduction. *)
Ltac handler_unfold :=
  unfold serve, handler_of, run_handler, add_comment, home, delete_comment,
    update_comment, add_answer, delete_answer, update_answer;
  cbv beta iota zeta delta [get_json py_getitem py_contains];
  session_unfold.

Ltac hyp_rewrite :=
  repeat match goal with
    | H : ?x = _ |- context [?x] => tryif is_var x then fail else rewrite H
    end.

Ltac hsimp_all := handler_unfold; simpl; repeat (progress hyp_rewrite; simpl).

Ltac hsimp :=
  lazymatch goal with
  | |- _ = ?r =>
      let R := fresh "rhs" in
      set (R := r); handler_unfold; simpl; repeat (progress hyp_rewrite; simpl);
      subst R
  | |- _ => handler_unfold; simpl; repeat (progress hyp_rewrite; simpl)
  end.
