(* ===== verification/Router.v ===== *)
(** * URL routing: the rules of [@app.route] and Werkzeug's matcher

    The seven decorators of [src/main.py] (lines 57, 65, 70, 79, 90, 101,
    110) build Flask's URL map.  A request is routed by Werkzeug on the
    parts of its path (the path after its leading [/], split at [/]):
    a static part must be equal, an [<int:name>] part must match the int
    converter's regex [\d+] and is converted by [int()].  The first rule
    whose parts match and whose methods contain the request's method gives
    the endpoint; when rules match the parts but none allows the method
    the answer is 405 Method Not Allowed, when none matches 404 Not Found,
    both as Werkzeug's HTML error page and before any handler runs.  Flask
    adds OPTIONS to every rule (answered by Flask itself with 200 and the
    [Allow] header) and Werkzeug adds HEAD to a rule with GET (the view
    runs, the body is dropped).  The view is called with the converted
    parts as keyword arguments (Python's [view( **values)]), so the name of the
    [<int:...>] part must be the parameter of the [def] below it. *)

From S2P Require Import Prelude PyJson Sqlite Store Session Schema Handlers.
From Stdlib Require DecimalString DecimalN DecimalPos.

Local Open Scope string_scope.

(** ** Rules *)

(** HTTP methods as Werkzeug upper-cases them. *)
Inductive method : Type :=
| GET | HEAD | POST | PUT | PATCH | DELETE | OPTIONS
| OTHER (name : string).

#[export] Instance method_eq_dec : EqDecision method.
Proof. solve_decision. Defined.

(** A part of a rule: [add] or [<int:id>]. *)
Inductive rule_part : Type :=
| Static (s : string)
| IntConv (name : string).

(** The endpoints, by the view functions of the decorators. *)
Inductive endpoint : Type :=
| EAddComment | EHome | EDeleteComment | EUpdateComment
| EAddAnswer | EDeleteAnswer | EUpdateAnswer.

Record rule : Type := mk_rule {
  rule_parts : list rule_part;
  rule_methods : list method;
  rule_endpoint : endpoint
}.

(** [@app.route(path, methods=ms)]: Flask's [add_url_rule] adds OPTIONS
    (provide_automatic_options), Werkzeug's [Rule] adds HEAD when GET is
    there. *)
Definition app_route (parts : list rule_part) (ms : list method) (e : endpoint) : rule :=
  mk_rule parts (ms ++ (if decide (GET ∈ ms) then [HEAD] else []) ++ [OPTIONS]) e.

(** The seven decorators. *)
Definition rule_add : rule := app_route [Static "add"] [POST] EAddComment.
Definition rule_home : rule := app_route [Static "home"] [GET] EHome.
Definition rule_delete : rule :=
  app_route [Static "delete"; IntConv "id"] [DELETE] EDeleteComment.
Definition rule_update : rule :=
  app_route [Static "update"; IntConv "id"] [PATCH] EUpdateComment.
Definition rule_add_answer : rule :=
  app_route [Static "add_answer"; IntConv "question_id"] [POST] EAddAnswer.
Definition rule_delete_answer : rule :=
  app_route [Static "delete_answer"; IntConv "id"] [DELETE] EDeleteAnswer.
Definition rule_update_answer : rule :=
  app_route [Static "update_answer"; IntConv "id"] [PATCH] EUpdateAnswer.

(** [app.url_map]: the rules in the order the decorators register them. *)
Definition url_map : list rule :=
  [rule_add; rule_home; rule_delete; rule_update; rule_add_answer;
   rule_delete_answer; rule_update_answer].

(** The parameter of each view function ([def delete_comment(id)], ...). *)
Definition view_param (e : endpoint) : option string :=
  match e with
  | EAddComment | EHome => None
  | EAddAnswer => Some "question_id"
  | _ => Some "id"
  end.

(** ** The int converter *)

(** [IntegerConverter.to_python]: the part matches [\d+] (one or more
    ASCII digits, leading zeros allowed, no sign) and becomes [int(part)]. *)
Definition int_converter (s : string) : option Z :=
  (fun u => Z.of_N (N.of_uint u)) <$> DecimalString.NilZero.uint_of_string s.

(** [IntegerConverter.to_url]: [str(value)] of a non-negative integer. *)
Definition int_to_url (v : Z) : string :=
  DecimalString.NilZero.string_of_uint (N.to_uint (Z.to_N v)).

(** ** Matching *)

(** The values of the converted parts, by part name, when the parts match. *)
Fixpoint match_parts (ps : list rule_part) (segs : list string) : option (list (string * Z)) :=
  match ps, segs with
  | [], [] => Some []
  | Static s :: ps', seg :: segs' => if String.eqb s seg then match_parts ps' segs' else None
  | IntConv n :: ps', seg :: segs' =>
      v ← int_converter seg; vs ← match_parts ps' segs'; Some ((n, v) :: vs)
  | _, _ => None
  end.

Inductive dispatch : Type :=
| Dispatch (r : rule) (values : list (string * Z))
| MethodNotAllowed (valid : list method)
| NotFound.

(** Werkzeug's matcher: the first rule matching both the parts and the
    method; [have] collects the methods of the rules that matched only the
    parts ([have_match_for]). *)
Fixpoint match_rules (m : method) (segs : list string) (rs : list rule)
    (have : list method) : dispatch :=
  match rs with
  | [] => match have with [] => NotFound | _ => MethodNotAllowed have end
  | r :: rs' =>
      match match_parts (rule_parts r) segs with
      | Some vs =>
          if decide (m ∈ rule_methods r) then Dispatch r vs
          else match_rules m segs rs' (have ++ rule_methods r)
      | None => match_rules m segs rs' have
      end
  end.

Definition route (m : method) (segs : list string) : dispatch :=
  match_rules m segs url_map [].

(** [view( **values)]: a keyword that is not the view's parameter, or a
    missing one, is a [TypeError]. *)
Definition call_view (e : endpoint) (values : list (string * Z)) (b : body) : result exn request :=
  match view_param e, values with
  | None, [] =>
      Ok (match e with EAddComment => ReqAdd b | _ => ReqHome end)
  | Some p, [(n, v)] =>
      if String.eqb n p then
        Ok (match e with
            | EDeleteComment => ReqDelete v
            | EUpdateComment => ReqUpdate v b
            | EAddAnswer => ReqAddAnswer v b
            | EDeleteAnswer => ReqDeleteAnswer v
            | _ => ReqUpdateAnswer v b
            end)
      else Raise TypeError
  | _, _ => Raise TypeError
  end.

(** Flask's full dispatch: routing errors and OPTIONS are answered before
    any handler runs; HEAD runs the GET view and drops the body. *)
Definition serve_http (d : db) (m : method) (segs : list string) (b : body) : response * db :=
  match route m segs with
  | NotFound => (mk_response 404 None, d)
  | MethodNotAllowed _ => (mk_response 405 None, d)
  | Dispatch r vs =>
      if decide (m = OPTIONS) then (mk_response 200 None, d)
      else
        match call_view (rule_endpoint r) vs b with
        | Raise e => (error_response e, d)
        | Ok req =>
            let (resp, d') := serve d req in
            (if decide (m = HEAD) then mk_response (status resp) None else resp, d')
        end
  end.

(** ** Printing a request as the client sends it *)

Definition request_method (r : request) : method :=
  match r with
  | ReqAdd _ | ReqAddAnswer _ _ => POST
  | ReqHome => GET
  | ReqDelete _ | ReqDeleteAnswer _ => DELETE
  | ReqUpdate _ _ | ReqUpdateAnswer _ _ => PATCH
  end.

Definition request_path (r : request) : list string :=
  match r with
  | ReqAdd _ => ["add"]
  | ReqHome => ["home"]
  | ReqDelete id => ["delete"; int_to_url id]
  | ReqUpdate id _ => ["update"; int_to_url id]
  | ReqAddAnswer q _ => ["add_answer"; int_to_url q]
  | ReqDeleteAnswer id => ["delete_answer"; int_to_url id]
  | ReqUpdateAnswer id _ => ["update_answer"; int_to_url id]
  end.

Definition request_body (r : request) : body :=
  match r with
  | ReqAdd b | ReqUpdate _ b | ReqAddAnswer _ b | ReqUpdateAnswer _ b => b
  | _ => BodyNotJson
  end.

(** The path ids of a request are non-negative: the only ones a path can
    carry. *)
Definition request_ids_ok (r : request) : bool :=
  match r with
  | ReqAdd _ | ReqHome => true
  | ReqDelete id | ReqUpdate id _ | ReqAddAnswer id _
  | ReqDeleteAnswer id | ReqUpdateAnswer id _ => bool_decide (0 <= id)
  end.

(** ** The converter *)

Lemma int_converter_to_url v : 0 <= v -> int_converter (int_to_url v) = Some v.
Proof.
  intros Hv. unfold int_converter, int_to_url.
  rewrite DecimalString.NilZero.usu; simpl.
  - by rewrite DecimalN.Unsigned.of_to, Z2N.id.
  - destruct (Z.to_N v); [done|apply DecimalPos.Unsigned.to_uint_nonnil].
Qed.

Lemma int_converter_nonneg s v : int_converter s = Some v -> 0 <= v.
Proof. unfold int_converter. intros (u & _ & ->)%fmap_Some. lia. Qed.

Lemma match_rules_Dispatch m segs rs have r vs :
  match_rules m segs rs have = Dispatch r vs ->
  r ∈ rs /\ m ∈ rule_methods r /\ match_parts (rule_parts r) segs = Some vs.
Proof.
  revert have. induction rs as [|r' rs IH]; intros have; simpl.
  - by destruct have.
  - destruct (match_parts (rule_parts r') segs) eqn:Hp; [case_decide|];
      [intros [= <- <-]; rewrite elem_of_cons; eauto|..];
      intros (? & ? & ?)%IH; rewrite elem_of_cons; eauto.
Qed.

Lemma match_parts_static p segs vs :
  match_parts [Static p] segs = Some vs -> segs = [p] /\ vs = [].
Proof.
  destruct segs as [|s segs]; simpl; [done|].
  destruct (String.eqb_spec p s); [subst|done].
  destruct segs; simpl; [by intros [= <-]|done].
Qed.

Lemma match_parts_id p n segs vs :
  match_parts [Static p; IntConv n] segs = Some vs ->
  exists s v, segs = [p; s] /\ int_converter s = Some v /\ vs = [(n, v)].
Proof.
  destruct segs as [|s0 [|s [|]]]; simpl; try done.
  - by destruct (String.eqb p s0).
  - destruct (String.eqb_spec p s0); [subst|done].
    destruct (int_converter s) eqn:Hs; simpl; [intros [= <-]|done]. eauto.
  - destruct (String.eqb p s0); [|done]. by destruct (int_converter s).
Qed.

Lemma serve_home d : serve d ReqHome = (jsonify (dump_users d), d).
Proof. by hsimp_all. Qed.

(** The rules of [url_map] one by one, with the methods they allow. *)
Lemma url_map_cases r :
  r ∈ url_map ->
  r = mk_rule [Static "add"] [POST; OPTIONS] EAddComment \/
  r = mk_rule [Static "home"] [GET; HEAD; OPTIONS] EHome \/
  r = mk_rule [Static "delete"; IntConv "id"] [DELETE; OPTIONS] EDeleteComment \/
  r = mk_rule [Static "update"; IntConv "id"] [PATCH; OPTIONS] EUpdateComment \/
  r = mk_rule [Static "add_answer"; IntConv "question_id"] [POST; OPTIONS] EAddAnswer \/
  r = mk_rule [Static "delete_answer"; IntConv "id"] [DELETE; OPTIONS] EDeleteAnswer \/
  r = mk_rule [Static "update_answer"; IntConv "id"] [PATCH; OPTIONS] EUpdateAnswer.
Proof.
  unfold url_map, rule_add, rule_home, rule_delete, rule_update, rule_add_answer,
    rule_delete_answer, rule_update_answer, app_route; simpl.
  rewrite !elem_of_cons, elem_of_nil. naive_solver.
Qed.

(** C29: Printing a request (its method, its path with each id as [str(id)],
    its body) and routing it back runs exactly that request: for every
    store and every request whose path ids are non-negative, the full
    dispatch gives the response and the store of [serve].  The routes of
    the decorators and the parameters of the view functions agree. *)
Theorem serve_http_roundtrip d r :
  request_ids_ok r = true ->
  serve_http d (request_method r) (request_path r) (request_body r) = serve d r.
Proof.
  intros Hids. unfold serve_http, route. remember (serve d) as S eqn:HS.
  destruct r; simpl in Hids; rewrite ?bool_decide_eq_true in Hids;
    cbn -[int_converter int_to_url]; rewrite ?int_converter_to_url by done;
    simpl; by destruct (S _).
Qed.

Lemma serve_http_roundtrip_witness :
  request_ids_ok (ReqUpdateAnswer 7 BodyNotJson) = true /\
  serve_http empty_db (request_method (ReqUpdateAnswer 7 BodyNotJson))
    (request_path (ReqUpdateAnswer 7 BodyNotJson)) (request_body (ReqUpdateAnswer 7 BodyNotJson))
  = serve empty_db (ReqUpdateAnswer 7 BodyNotJson).
Proof.
  split; [reflexivity|].
  apply (serve_http_roundtrip empty_db (ReqUpdateAnswer 7 BodyNotJson)). reflexivity.
Defined.

(** C30: A path id that is not a run of decimal digits ([-1], [1.5], [abc],
    the empty part) matches no rule: whatever the method, Werkzeug answers
    404 with its HTML page, no handler runs and the store is unchanged. *)
Theorem serve_http_bad_id d m p s b :
  p ∈ ["delete"; "update"; "add_answer"; "delete_answer"; "update_answer"] ->
  int_converter s = None ->
  serve_http d m [p; s] b = (mk_response 404 None, d).
Proof.
  intros Hp Hs. unfold serve_http, route.
  rewrite !elem_of_cons, elem_of_nil in Hp.
  destruct_or!; subst; cbn -[int_converter]; by rewrite Hs.
Qed.

Lemma serve_http_bad_id_witness :
  "delete" ∈ ["delete"; "update"; "add_answer"; "delete_answer"; "update_answer"] /\
  int_converter "-1" = None /\
  serve_http empty_db DELETE ["delete"; "-1"] BodyNotJson = (mk_response 404 None, empty_db).
Proof.
  split; [left|split; [reflexivity|]].
  apply serve_http_bad_id; [left|reflexivity].
Defined.

(** C28: Only the method a decorator declares reaches a handler that can
    write: every request either leaves the store as it was (routing
    errors, OPTIONS, HEAD on [/home], a failing view call) or is exactly
    [serve] of a request of the model whose method is the request's and
    whose path id is non-negative. *)
Theorem serve_http_sound d m segs b :
  (serve_http d m segs b).2 = d \/
  exists r, request_method r = m /\ request_ids_ok r = true /\
            serve_http d m segs b = serve d r.
Proof.
  unfold serve_http. remember (serve d) as S eqn:HS.
  destruct (route m segs) as [r vs| |] eqn:Hr; [|by left..].
  apply match_rules_Dispatch in Hr as (Hin & Hm & Hp).
  case_decide as Hopt; [by left|].
  apply url_map_cases in Hin.
  destruct_or!; subst r; cbn [rule_parts rule_methods rule_endpoint] in Hm, Hp |- *;
    first [ apply match_parts_static in Hp as [-> ->]
          | apply match_parts_id in Hp as (s & v & -> & Hv%int_converter_nonneg & ->) ];
    rewrite !elem_of_cons, elem_of_nil in Hm; destruct_or!; subst m; try done; simpl;
    first [ left; subst S; by rewrite serve_home
          | right; match goal with |- context [S ?r] => exists r end;
            simpl; rewrite ?bool_decide_eq_true_2 by done; by destruct (S _) ].
Qed.
