(* ===== verification/Bootstrap.v ===== *)
(** * Process start: the database file, [db.create_all] and the port

    Lines 12-13 put the store in the file [os.path.join("/tmp",
    "db.sqlite")] through the URI [sqlite:///] followed by that path.  Run
    as a script (lines 122-126), the process creates the tables that are
    missing ([db.create_all], which checks first and keeps an existing
    file's rows), then reads [int(os.environ.get("PORT", 5000))] and
    binds [app.run] to it.  The file is modelled as the store it holds,
    [None] for a file without the tables.  Python's [int()] on a string
    strips ASCII whitespace, takes one optional sign and decimal digits
    with single underscores between them, at most 4300 digits; anything
    else is a [ValueError].  A port outside [0, 65535] makes the bind raise
    [OverflowError].  Both failures happen after [db.create_all]. *)

From S2P Require Import Prelude PyJson Sqlite Store Session Schema Handlers Router.
From Stdlib Require Import Ascii.
From Stdlib Require DecimalString.

Local Open Scope dsa_scope.
Local Open Scope string_scope.

(** ** The database file *)

(** [posixpath.join(a, b)]: an absolute [b] replaces [a]; otherwise a
    separator is added unless [a] is empty or ends with one. *)
Definition path_join (a b : string) : string :=
  match b with
  | String "/"%char _ => b
  | _ =>
      if String.eqb a "" then b
      else if String.eqb (String.substring (String.length a - 1) 1 a) "/" then a ++ b
      else a ++ "/" ++ b
  end.

(** Line 12. *)
Definition db_path : string := path_join "/tmp" "db.sqlite".

(** Line 13: [f"sqlite:///{db_path}"]. *)
Definition database_uri : string := "sqlite:///" ++ db_path.

(** The file an [sqlite://] URI names: what follows the third slash. *)
Definition sqlite_file (uri : string) : option string :=
  if String.prefix "sqlite:///" uri
  then Some (String.substring 10 (String.length uri - 10) uri) else None.

(** [db.create_all()] (line 124): the tables are created when absent; an
    existing file keeps its rows. *)
Definition create_all (file : option db) : db :=
  match file with Some d => d | None => empty_db end.

(** ** Python's int() on a string *)

(** The characters [int()] strips: [\t \n \v \f \r], [\x1c]-[\x1f] and
    the space. *)
Definition is_py_space (c : ascii) : bool :=
  let n := Ascii.nat_of_ascii c in
  (Nat.leb 9 n && Nat.leb n 13) || (Nat.leb 28 n && Nat.leb n 32).

Fixpoint lstrip (s : string) : string :=
  match s with
  | EmptyString => EmptyString
  | String c s' => if is_py_space c then lstrip s' else s
  end.

Fixpoint rstrip (s : string) : string :=
  match s with
  | EmptyString => EmptyString
  | String c s' =>
      let r := rstrip s' in
      if String.eqb r "" && is_py_space c then EmptyString else String c r
  end.

(** Decimal digits with single underscores between them; [after_digit]
    says whether the previous character was a digit. *)
Fixpoint py_digits (after_digit : bool) (s : string) : option Decimal.uint :=
  match s with
  | EmptyString => if after_digit then Some Decimal.Nil else None
  | String c s' =>
      if Ascii.eqb c "_"%char then (if after_digit then py_digits false s' else None)
      else DecimalString.uint_of_char c (py_digits true s')
  end.

(** The digits' value; more than 4300 digits is a [ValueError]
    (sys.int_info.default_max_str_digits). *)
Definition py_unsigned (s : string) : option Z :=
  u ← py_digits false s;
  if Nat.leb (Decimal.nb_digits u) 4300 then Some (Z.of_N (N.of_uint u)) else None.

(** [int(s)] for a string [s], [None] for a [ValueError]. *)
Definition py_int (s : string) : option Z :=
  match rstrip (lstrip s) with
  | String "-"%char r => Z.opp <$> py_unsigned r
  | String "+"%char r => py_unsigned r
  | r => py_unsigned r
  end.

(** [str(n)] for a Python int. *)
Definition py_str (n : Z) : string :=
  if Z.ltb n 0 then String "-"%char (int_to_url (- n)) else int_to_url n.

(** ** Start-up *)

(** Why the process stops: [int()] of a PORT that is not an integer, or
    [bind()] of a port outside [0, 65535]. *)
Inductive boot_error : Type :=
| ValueError
| PortOverflow.

(** [int(os.environ.get("PORT", 5000))] (line 125). *)
Definition port_setting (env_port : option string) : result boot_error Z :=
  match env_port with
  | None => Ok 5000
  | Some s => match py_int s with Some n => Ok n | None => Raise ValueError end
  end.

(** Lines 122-126: the tables first, then the port and the bind; the
    store the server starts with, or the error that stops it. *)
Definition main (env_port : option string) (file : option db) : db * result boot_error Z :=
  let d := create_all file in
  (d, port <-? port_setting env_port ;;
      if Z.leb 0 port && Z.leb port 65535 then Ok port else Raise PortOverflow).

(** ** [int()] reads back what [str()] prints *)

Lemma py_digits_uint u : py_digits true (DecimalString.NilEmpty.string_of_uint u) = Some u.
Proof. induction u; simpl; rewrite ?IHu; reflexivity. Qed.

Lemma rstrip_uint u :
  rstrip (DecimalString.NilEmpty.string_of_uint u) = DecimalString.NilEmpty.string_of_uint u.
Proof. induction u; simpl; rewrite ?IHu; by rewrite ?andb_false_r. Qed.

(** [str(v)] of a non-negative [v]: the digits of [N.to_uint v]. *)
Lemma int_to_url_digits v :
  0 <= v -> N.to_uint (Z.to_N v) <> Decimal.Nil /\
  int_to_url v = DecimalString.NilEmpty.string_of_uint (N.to_uint (Z.to_N v)) /\
  Z.of_N (N.of_uint (N.to_uint (Z.to_N v))) = v.
Proof.
  intros Hv. unfold int_to_url.
  assert (N.to_uint (Z.to_N v) <> Decimal.Nil) as Hn
    by (destruct (Z.to_N v); [done|apply DecimalPos.Unsigned.to_uint_nonnil]).
  split; [done|split].
  - by destruct (N.to_uint (Z.to_N v)).
  - by rewrite DecimalN.Unsigned.of_to, Z2N.id.
Qed.

Lemma py_digits_nonnil u :
  u <> Decimal.Nil -> py_digits false (DecimalString.NilEmpty.string_of_uint u) = Some u.
Proof. destruct u; try done; simpl; by rewrite py_digits_uint. Qed.

Lemma py_int_uint u :
  u <> Decimal.Nil -> (Decimal.nb_digits u <= 4300)%nat ->
  py_int (DecimalString.NilEmpty.string_of_uint u) = Some (Z.of_N (N.of_uint u)).
Proof.
  intros Hu Hd.
  assert (py_int (DecimalString.NilEmpty.string_of_uint u)
          = py_unsigned (DecimalString.NilEmpty.string_of_uint u)) as ->.
  { unfold py_int.
    assert (rstrip (lstrip (DecimalString.NilEmpty.string_of_uint u))
            = DecimalString.NilEmpty.string_of_uint u) as ->
      by (destruct u; try done; cbn [DecimalString.NilEmpty.string_of_uint lstrip];
          simpl; by rewrite ?andb_false_r, ?rstrip_uint).
    by destruct u. }
  unfold py_unsigned.
  rewrite py_digits_nonnil by done. cbn -[Decimal.nb_digits N.of_uint].
  by rewrite (proj2 (Nat.leb_le _ _) Hd).
Qed.

(** [int(str(n))] is [n] for every [n] of at most 4300 digits. *)
Lemma py_int_py_str n :
  (Decimal.nb_digits (N.to_uint (Z.to_N (Z.abs n))) <= 4300)%nat -> py_int (py_str n) = Some n.
Proof.
  intros Hd. unfold py_str. destruct (Z.ltb_spec n 0) as [Hn|Hn].
  - rewrite Z.abs_neq in Hd by lia.
    destruct (int_to_url_digits (- n)) as (Hu & -> & Hv); [lia|].
    unfold py_int. simpl. rewrite rstrip_uint.
    change (is_py_space "-") with false. rewrite andb_false_r.
    unfold py_unsigned. rewrite py_digits_nonnil by done. cbn -[Decimal.nb_digits N.of_uint].
    rewrite (proj2 (Nat.leb_le _ _) Hd). simpl. f_equal. lia.
  - rewrite Z.abs_eq in Hd by lia.
    destruct (int_to_url_digits n) as (Hu & -> & Hv); [lia|].
    by rewrite py_int_uint, Hv.
Qed.

(** A port has at most five digits, checked on all of [0, 65535] as
    [256 * i + j] with [i, j < 256]. *)
Lemma port_digits n :
  0 <= n <= 65535 -> (Decimal.nb_digits (N.to_uint (Z.to_N (Z.abs n))) <= 4300)%nat.
Proof.
  intros Hn.
  assert (forallb (fun i => forallb (fun j =>
            Nat.leb (Decimal.nb_digits (N.to_uint (N.of_nat i * 256 + N.of_nat j)%N)) 5)
            (seq 0 256)) (seq 0 256) = true) as Hall by (vm_compute; reflexivity).
  rewrite forallb_forall in Hall.
  assert (0 <= n / 256 < 256)
    by (split; [apply Z.div_pos; lia | apply Z.div_lt_upper_bound; lia]).
  assert (0 <= n mod 256 < 256) by (apply Z.mod_pos_bound; lia).
  pose proof (Z.div_mod n 256 ltac:(lia)).
  assert (Z.to_nat (n / 256) < 256 /\ Z.to_nat (n mod 256) < 256)%nat as [Hi Hj]
    by (change 256%nat with (Z.to_nat 256); split; apply Z2Nat.inj_lt; lia).
  specialize (Hall (Z.to_nat (n / 256)) (proj2 (in_seq _ _ _) (conj (Nat.le_0_l _) Hi))).
  rewrite forallb_forall in Hall.
  specialize (Hall (Z.to_nat (n mod 256)) (proj2 (in_seq _ _ _) (conj (Nat.le_0_l _) Hj))).
  apply Nat.leb_le in Hall.
  replace (Z.to_N (Z.abs n)) with (N.of_nat (Z.to_nat (n / 256)) * 256 + N.of_nat (Z.to_nat (n mod 256)))%N;
    [lia|].
  apply N2Z.inj. rewrite N2Z.inj_add, N2Z.inj_mul, !nat_N_Z, !Z2Nat.id, Z2N.id; lia.
Qed.

(** C32: The port round trip: started with PORT set to [str(n)] for a
    port [n] in [0, 65535], the process creates the missing tables,
    keeps the rows of an existing file, and serves on port [n]. *)
Theorem main_port_roundtrip n file :
  0 <= n <= 65535 -> main (Some (py_str n)) file = (create_all file, Ok n).
Proof.
  intros Hn. unfold main, port_setting. rewrite py_int_py_str by (by apply port_digits). simpl.
  by rewrite (proj2 (Z.leb_le 0 n)), (proj2 (Z.leb_le n 65535)) by lia.
Qed.

Lemma main_port_roundtrip_witness :
  0 <= 65535 <= 65535 /\
  main (Some (py_str 65535)) (Some sample_db) = (create_all (Some sample_db), Ok 65535).
Proof. split; [lia|]. apply main_port_roundtrip. lia. Defined.

(** A bad PORT stops the process after [db.create_all] has run:
    the store is the file's (or a fresh one) whatever PORT holds, the
    start fails with [ValueError] exactly when [int()] rejects PORT, and
    with [OverflowError] exactly when PORT is an integer outside
    [0, 65535]. *)
Theorem main_bad_port s file :
  (main (Some s) file).1 = create_all file /\
  ((main (Some s) file).2 = Raise ValueError <-> py_int s = None) /\
  ((main (Some s) file).2 = Raise PortOverflow <->
     exists n, py_int s = Some n /\ (n < 0 \/ 65535 < n)).
Proof.
  unfold main, port_setting. simpl. split; [done|].
  destruct (py_int s) as [n|]; simpl; [|naive_solver].
  destruct (Z.leb_spec 0 n), (Z.leb_spec n 65535); simpl; naive_solver lia.
Qed.
