(* ===== verification/Direct.v ===== *)
(** * The routes as functions of the store

    [direct d r] is what request [r] does at the level of SQL statements:
    the response and the store afterwards, each route written as one match
    on the outcome of its bindings, lookups and statements.  The theorem
    [serve_direct] shows that the handlers of [Handlers], which go through
    the ORM session (staging, autoflush, the cascade, commit, refresh and
    teardown), compute exactly this.  The other theorems of the development
    are proved on [direct]. *)

From S2P Require Import Prelude PyJson Sqlite Store Session Schema Handlers.

Local Open Scope dsa_scope.
Local Open Scope string_scope.

(** The value a PATCH body sets, if any: [Some c] when ['k' in data] holds
    and [data['k']] binds as the text [c] (lines 84-86, 115-117). *)
Definition patch_value (k : string) (b : body) : result exn (option string) :=
  data <-? get_json b ;;
  has <-? py_contains k data ;;
  if has then (v <-? py_getitem data k ;; c <-? bind_text_column v ;; Ok (Some c))
  else Ok None.

(** The text a POST body provides under [k] (lines 59-60, 95-96). *)
Definition post_value (k : string) (b : body) : result exn string :=
  data <-? get_json b ;;
  v <-? py_getitem data k ;;
  bind_text_column v.

Definition direct (d : db) (r : request) : response * db :=
  match r with
  | ReqAdd b =>
      match post_value "comment" b with
      | Raise e => (error_response e, d)
      | Ok c =>
          match insert_user d c with
          | Raise e => (error_response e, d)
          | Ok (id, d') => (jsonify (dump_user d' (mk_user id c)), d')
          end
      end
  | ReqHome => (jsonify (dump_users d), d)
  | ReqDelete id =>
      match bind_int_param id with
      | Raise e => (error_response e, d)
      | Ok k =>
          match select_user d k with
          | None => (not_found "Question not found", d)
          | Some _ => (deleted "Question deleted successfully" id, delete_question d k)
          end
      end
  | ReqUpdate id b =>
      match bind_int_param id with
      | Raise e => (error_response e, d)
      | Ok k =>
          match select_user d k with
          | None => (not_found "Question not found", d)
          | Some u =>
              match patch_value "comment" b with
              | Raise e => (error_response e, d)
              | Ok None => (jsonify (dump_user d u), d)
              | Ok (Some c) =>
                  let d' := update_user_comment d k c in
                  (jsonify (dump_user d' (mk_user k c)), d')
              end
          end
      end
  | ReqAddAnswer q b =>
      match bind_int_param q with
      | Raise e => (error_response e, d)
      | Ok k =>
          match select_user d k with
          | None => (not_found "Question not found", d)
          | Some _ =>
              match post_value "answer" b with
              | Raise e => (error_response e, d)
              | Ok t =>
                  match insert_answer d t k with
                  | Raise e => (error_response e, d)
                  | Ok (id, d') => (jsonify (dump_answer (mk_answer id t k)), d')
                  end
              end
          end
      end
  | ReqDeleteAnswer id =>
      match bind_int_param id with
      | Raise e => (error_response e, d)
      | Ok k =>
          match select_answer d k with
          | None => (not_found "Answer not found", d)
          | Some _ => (deleted "Answer deleted successfully" id, delete_answer_row d k)
          end
      end
  | ReqUpdateAnswer id b =>
      match bind_int_param id with
      | Raise e => (error_response e, d)
      | Ok k =>
          match select_answer d k with
          | None => (not_found "Answer not found", d)
          | Some a =>
              match patch_value "answer" b with
              | Raise e => (error_response e, d)
              | Ok None => (jsonify (dump_answer a), d)
              | Ok (Some t) =>
                  (jsonify (dump_answer (mk_answer k t (answer_qid a))),
                   update_answer_text d k t)
              end
          end
      end
  end.

(** ** The session-level handlers compute [direct] *)

Section equivalence.
Context (d : db).

Lemma serve_direct_add b : serve d (ReqAdd b) = direct d (ReqAdd b).
Proof.
  unfold direct, post_value. destruct b as [j| |]; hsimp_all; try done.
  destruct j as [| | | | |kvs]; hsimp_all; try done.
  destruct (dict_lookup "comment" kvs) as [v|] eqn:Hv; hsimp_all; try done.
  destruct (bind_text_column v) as [c|e] eqn:Hc; hsimp_all; try done.
  destruct (insert_user d c) as [[id d']|e] eqn:Hi; hsimp_all; try done.
  pose proof (insert_user_select _ _ _ _ Hi). by hsimp_all.
Qed.

Lemma serve_direct_home : serve d ReqHome = direct d ReqHome.
Proof. by hsimp_all. Qed.

Lemma serve_direct_delete id :
  keys_sorted answer_id (answers d) -> serve d (ReqDelete id) = direct d (ReqDelete id).
Proof.
  intros Hs. unfold direct.
  destruct (bind_int_param id) as [k|e] eqn:Hb; hsimp_all; try done.
  destruct (select_user d k) as [u|] eqn:Hu; hsimp_all; try done.
  apply select_user_Some in Hu as [_ Hk].
  pose proof (flush_cascade d 0 k Hs). by hsimp_all.
Qed.

Lemma serve_direct_update id b : serve d (ReqUpdate id b) = direct d (ReqUpdate id b).
Proof.
  unfold direct, patch_value.
  destruct (bind_int_param id) as [k|e] eqn:Hb; hsimp_all; try done.
  destruct (select_user d k) as [u|] eqn:Hu; hsimp_all; try done.
  pose proof (select_user_Some _ _ _ Hu) as [_ Hk].
  destruct b as [[| | |s|l|kvs]| |]; hsimp_all; try done.
  - destruct (str_contains "comment" s); hsimp_all; done.
  - destruct (existsb (json_is_str "comment") l); hsimp_all; done.
  - destruct (dict_lookup "comment" kvs) as [v|] eqn:Hv; hsimp_all; try done.
    destruct (bind_text_column v) as [c|e] eqn:Hc; hsimp_all; try done.
    pose proof (select_user_update_self d k c u Hu). by hsimp_all.
Qed.

Lemma serve_direct_add_answer q b :
  serve d (ReqAddAnswer q b) = direct d (ReqAddAnswer q b).
Proof.
  unfold direct, post_value.
  destruct (bind_int_param q) as [k|e] eqn:Hb; hsimp_all; try done.
  pose proof (bind_int_param_inv _ _ Hb) as [-> _].
  destruct (select_user d q) as [u|] eqn:Hu; hsimp_all; try done.
  destruct b as [[| | | | |kvs]| |]; hsimp_all; try done.
  destruct (dict_lookup "answer" kvs) as [v|] eqn:Hv; hsimp_all; try done.
  destruct (bind_text_column v) as [t|e] eqn:Ht; hsimp_all; try done.
  destruct (insert_answer d t q) as [[id d']|e] eqn:Hi; hsimp_all; try done.
  pose proof (insert_answer_select _ _ _ _ _ Hi). by hsimp_all.
Qed.

Lemma serve_direct_delete_answer id :
  serve d (ReqDeleteAnswer id) = direct d (ReqDeleteAnswer id).
Proof.
  unfold direct.
  destruct (bind_int_param id) as [k|e] eqn:Hb; hsimp_all; try done.
  destruct (select_answer d k) as [a|] eqn:Ha; hsimp_all; try done.
  by pose proof (select_answer_Some _ _ _ Ha) as [_ Hk]; hsimp_all.
Qed.

Lemma serve_direct_update_answer id b :
  serve d (ReqUpdateAnswer id b) = direct d (ReqUpdateAnswer id b).
Proof.
  unfold direct, patch_value.
  destruct (bind_int_param id) as [k|e] eqn:Hb; hsimp_all; try done.
  destruct (select_answer d k) as [a|] eqn:Ha; hsimp_all; try done.
  pose proof (select_answer_Some _ _ _ Ha) as [_ Hk].
  destruct b as [[| | |s|l|kvs]| |]; hsimp_all; try done.
  - destruct (str_contains "answer" s); hsimp_all; done.
  - destruct (existsb (json_is_str "answer") l); hsimp_all; done.
  - destruct (dict_lookup "answer" kvs) as [v|] eqn:Hv; hsimp_all; try done.
    destruct (bind_text_column v) as [t|e] eqn:Ht; hsimp_all; try done.
    pose proof (select_answer_update_self d k t a Ha). by hsimp_all.
Qed.
End equivalence.

(** Rewrite every request of the goal into [direct]; the cascade needs the
    answers in rowid order, which [auto with dsa] finds from the invariant. *)
Ltac to_direct :=
  repeat first
    [ rewrite serve_direct_add | rewrite serve_direct_home
    | rewrite serve_direct_delete by auto with dsa | rewrite serve_direct_update
    | rewrite serve_direct_add_answer | rewrite serve_direct_delete_answer
    | rewrite serve_direct_update_answer ].

(** C4: Every request, handled through the ORM session (staging,
    autoflush, the delete-orphan cascade, commit, refresh and teardown),
    gives the response and the store that [direct] gives at the level of
    SQL statements, on a store whose answers are in rowid order. *)
Theorem serve_direct d r :
  keys_sorted answer_id (answers d) -> serve d r = direct d r.
Proof.
  intros Hs. destruct r.
  - apply serve_direct_add.
  - apply serve_direct_home.
  - by apply serve_direct_delete.
  - apply serve_direct_update.
  - apply serve_direct_add_answer.
  - apply serve_direct_delete_answer.
  - apply serve_direct_update_answer.
Qed.

Lemma serve_direct_witness :
  keys_sorted answer_id (answers sample_db) /\
  serve sample_db (ReqDelete 1) = direct sample_db (ReqDelete 1).
Proof.
  assert (keys_sorted answer_id (answers sample_db)) as Hs
    by (apply (bool_decide_unpack _); vm_compute; reflexivity).
  split; [exact Hs | apply (serve_direct sample_db (ReqDelete 1) Hs)].
Defined.
