(* ===== verification/Invariant.v ===== *)
(** * The store invariant across requests

    [wf_db] (in [Store]) says that each table's rowids strictly increase
    and lie in [1, 2^63-1] and that every answer references an existing
    question.  Every route preserves it, so every store the service reaches
    from a fresh database satisfies it: in particular no answer is ever
    orphaned and ids are unique, as the spec's data model requires. *)

From S2P Require Import Prelude PyJson Sqlite Store Session Schema Handlers Direct.

(** ** The store invariant

    Rowids strictly increase along each table and lie in [1, 2^63-1], and
    every answer references an existing question (the relationship of line
    23: "every Answer has exactly one owning Question"). *)

Definition rowids_in_range {R} (key : R -> Z) (rows : list R) : Prop :=
  Forall (fun k => 1 <= k <= INT64_MAX) (keys key rows).

Definition fk_ok (d : db) : Prop :=
  Forall (fun a => answer_qid a ∈ keys user_id (users d)) (answers d).

Definition wf_db (d : db) : Prop :=
  keys_sorted user_id (users d) /\ keys_sorted answer_id (answers d) /\
  rowids_in_range user_id (users d) /\ rowids_in_range answer_id (answers d) /\
  fk_ok d.

#[export] Instance wf_db_dec d : Decision (wf_db d).
Proof. unfold wf_db, rowids_in_range, fk_ok. apply _. Defined.

(** The stores the service can reach from a freshly created database, with
    the number of requests served to reach them. *)
Inductive reachable : nat -> db -> Prop :=
| reach_init : reachable 0 empty_db
| reach_step n d r : reachable n d -> reachable (S n) (serve d r).2.

(** ** Statement-level facts *)

Section range.
Context {R : Type} (key : R -> Z).

Lemma rowids_in_range_snoc rows r :
  rowids_in_range key rows -> 1 <= key r <= INT64_MAX ->
  rowids_in_range key (rows ++ [r]).
Proof.
  unfold rowids_in_range, keys. intros H Hr. rewrite fmap_app. apply Forall_app.
  by split; [|constructor].
Qed.

Lemma rowids_in_range_filter (P : R -> Prop) `{!forall r, Decision (P r)} rows :
  rowids_in_range key rows -> rowids_in_range key (filter P rows).
Proof. apply keys_filter_sub. Qed.

Lemma new_rowid_fresh rows k :
  keys_sorted key rows -> rowids_in_range key rows ->
  new_rowid (max_key key rows) = Ok k ->
  1 <= k <= INT64_MAX /\ max_key key rows < k /\ k ∉ keys key rows.
Proof.
  intros Hs Hr (Hlt & ->)%new_rowid_spec.
  pose proof (max_key_nonneg key rows). split_and!; [lia | lia | lia |].
  intros (r & Hk & Hin)%list_elem_of_fmap. pose proof (max_key_ge key rows r Hin). lia.
Qed.
End range.

(** No answer refers to a question id that is not in the table. *)
Lemma select_answers_of_absent d qid :
  fk_ok d -> qid ∉ keys user_id (users d) -> select_answers_of d qid = [].
Proof.
  unfold fk_ok, select_answers_of. intros Hfk Hq.
  apply filter_none. rewrite Forall_forall in Hfk. intros a Ha <-. by apply Hq, Hfk.
Qed.

(** ** The invariant under each statement *)

Lemma wf_insert_user d c id d' :
  wf_db d -> insert_user d c = Ok (id, d') -> wf_db d'.
Proof.
  intros (Hsu & Hsa & Hru & Hra & Hfk) (Hlt & -> & ->)%insert_user_ok.
  pose proof (max_key_nonneg user_id (users d)).
  split_and!; simpl; auto.
  - apply keys_sorted_snoc; simpl; [done | lia].
  - apply rowids_in_range_snoc; simpl; [done | lia].
  - unfold fk_ok in *. simpl. eapply Forall_impl; [exact Hfk|]. intros a. apply keys_snoc_in.
Qed.

Lemma wf_insert_answer d t q id d' :
  wf_db d -> q ∈ keys user_id (users d) -> insert_answer d t q = Ok (id, d') -> wf_db d'.
Proof.
  intros (Hsu & Hsa & Hru & Hra & Hfk) Hq (Hlt & -> & ->)%insert_answer_ok.
  pose proof (max_key_nonneg answer_id (answers d)).
  split_and!; simpl; auto.
  - apply keys_sorted_snoc; simpl; [done | lia].
  - apply rowids_in_range_snoc; simpl; [done | lia].
  - unfold fk_ok in *. simpl. apply Forall_app. by split; [|constructor].
Qed.

Lemma wf_update_user_comment d id c : wf_db d -> wf_db (update_user_comment d id c).
Proof.
  intros (Hsu & Hsa & Hru & Hra & Hfk). unfold update_user_comment, wf_db, fk_ok,
    keys_sorted, rowids_in_range in *. simpl. rewrite keys_update by done. done.
Qed.

Lemma wf_update_answer_text d id t : wf_db d -> wf_db (update_answer_text d id t).
Proof.
  intros (Hsu & Hsa & Hru & Hra & Hfk). unfold update_answer_text, wf_db, fk_ok,
    keys_sorted, rowids_in_range in *. simpl. rewrite keys_update by done.
  split_and!; try done. by apply Forall_update_key.
Qed.

Lemma wf_delete_answer_row d id : wf_db d -> wf_db (delete_answer_row d id).
Proof.
  intros (Hsu & Hsa & Hru & Hra & Hfk). unfold delete_answer_row, delete_key.
  split_and!; simpl; auto using keys_sorted_filter, rowids_in_range_filter.
  by apply Forall_filter_sub.
Qed.

Lemma wf_delete_question d id : wf_db d -> wf_db (delete_question d id).
Proof.
  intros (Hsu & Hsa & Hru & Hra & Hfk). unfold delete_question, delete_key.
  split_and!; simpl; auto using keys_sorted_filter, rowids_in_range_filter.
  unfold fk_ok in *. simpl. rewrite Forall_forall in Hfk |- *.
  intros a [Hne Ha]%list_elem_of_filter. by apply keys_delete_key_in; [apply Hfk|].
Qed.

#[export] Hint Resolve wf_update_user_comment wf_update_answer_text wf_delete_answer_row
  wf_delete_question : dsa.

(** A row found in a well-formed table has a key that binds as a 64-bit
    parameter. *)
Lemma wf_select_user_bind d id u :
  wf_db d -> select_user d id = Some u -> bind_int_param id = Ok id.
Proof.
  intros (_ & _ & Hr & _) [Hin <-]%select_user_Some. apply bind_int_param_ok.
  unfold rowids_in_range in Hr. rewrite Forall_forall in Hr.
  assert (1 <= user_id u <= INT64_MAX) by (apply Hr, list_elem_of_fmap_2, Hin).
  unfold INT64_MIN. lia.
Qed.

Lemma wf_select_answer_bind d id a :
  wf_db d -> select_answer d id = Some a -> bind_int_param id = Ok id.
Proof.
  intros (_ & _ & _ & Hr & _) [Hin <-]%select_answer_Some. apply bind_int_param_ok.
  unfold rowids_in_range in Hr. rewrite Forall_forall in Hr.
  assert (1 <= answer_id a <= INT64_MAX) by (apply Hr, list_elem_of_fmap_2, Hin).
  unfold INT64_MIN. lia.
Qed.

Lemma wf_keys_sorted_answers d : wf_db d -> keys_sorted answer_id (answers d).
Proof. by intros (_ & ? & _). Qed.

Lemma wf_fk_ok d : wf_db d -> fk_ok d.
Proof. by intros (_ & _ & _ & _ & ?). Qed.

#[export] Hint Resolve wf_keys_sorted_answers wf_fk_ok : dsa.

Lemma direct_wf d r : wf_db d -> wf_db (direct d r).2.
Proof.
  intros Hwf. destruct r; simpl; repeat case_match; simplify_eq; simpl;
    eauto using wf_insert_user, wf_update_user_comment, wf_delete_question,
      wf_delete_answer_row, wf_update_answer_text.
  (* an answer is inserted under a question that was found *)
  match goal with
  | Hs : select_user _ _ = Some _, Hi : insert_answer _ _ _ = Ok _ |- _ =>
      apply select_user_Some in Hs as [Hin <-]; eapply wf_insert_answer; [done| |exact Hi];
      by apply list_elem_of_fmap_2
  end.
Qed.

(** C1: Every request preserves the store invariant: rowids stay strictly
    increasing and within [1, 2^63-1] in both tables, and every answer keeps
    referencing an existing question. *)
Theorem serve_wf d r : wf_db d -> wf_db (serve d r).2.
Proof. intros Hwf. destruct r; to_direct; by apply direct_wf. Qed.

Lemma serve_wf_witness :
  wf_db sample_db /\ wf_db (serve sample_db (ReqDelete 1)).2.
Proof.
  assert (wf_db sample_db) as Hwf by (apply (bool_decide_unpack _); vm_compute; reflexivity).
  split; [exact Hwf | apply (serve_wf sample_db (ReqDelete 1) Hwf)].
Defined.

(** C2: Every store reachable from the empty database by any sequence of
    requests satisfies the invariant. *)
Theorem reachable_wf n d : reachable n d -> wf_db d.
Proof.
  induction 1 as [|n d r _ IH].
  - by split_and!; repeat constructor.
  - destruct r; to_direct; by apply direct_wf.
Qed.

Lemma reachable_wf_witness :
  reachable 1 (serve empty_db (ReqAdd (BodyJson (JObj [("comment", JStr "Is the sky blue?")])))).2 /\
  wf_db (serve empty_db (ReqAdd (BodyJson (JObj [("comment", JStr "Is the sky blue?")])))).2.
Proof.
  assert (reachable 1 (serve empty_db (ReqAdd (BodyJson (JObj [("comment", JStr "Is the sky blue?")])))).2)
    as Hr by (apply reach_step, reach_init).
  split; [exact Hr | apply (reachable_wf _ _ Hr)].
Defined.

(** ** Rowids grow by at most one per request *)

Ltac insert_facts :=
  repeat match goal with
    | H : insert_user _ _ = Ok (_, _) |- _ => apply insert_user_ok in H as (? & -> & ->)
    | H : insert_answer _ _ _ = Ok (_, _) |- _ => apply insert_answer_ok in H as (? & -> & ->)
    end.

Lemma direct_max_key_step d r :
  max_key user_id (users (direct d r).2) <= max_key user_id (users d) + 1 /\
  max_key answer_id (answers (direct d r).2) <= max_key answer_id (answers d) + 1.
Proof.
  destruct r; simpl; repeat case_match; simplify_eq; insert_facts; simpl;
    unfold delete_key; rewrite ?max_key_snoc, ?max_key_update by done; simpl;
    repeat match goal with
      | |- context [max_key ?k (filter ?P ?rows)] =>
          let H := fresh in pose proof (max_key_filter k P rows) as H;
          generalize dependent (max_key k (filter P rows)); intros
      end;
    pose proof (max_key_nonneg user_id (users d));
    pose proof (max_key_nonneg answer_id (answers d)); lia.
Qed.

(** C25: After [n] requests from a fresh database no rowid exceeds [n] in
    either table: the allocation branch at the largest rowid 2^63-1 is
    unreachable with fewer than 2^63-1 requests. *)
Theorem reachable_rowids_bounded n d :
  reachable n d ->
  max_key user_id (users d) <= Z.of_nat n /\ max_key answer_id (answers d) <= Z.of_nat n.
Proof.
  induction 1 as [|n d r Hr IH]; [simpl; lia|].
  assert (wf_db d) as Hwf.
  { clear IH. induction Hr as [|m d' r' _ IHr]; [by split_and!; repeat constructor|].
    destruct r'; to_direct; by apply direct_wf. }
  destruct r; to_direct;
    match goal with |- context [direct d ?r] => pose proof (direct_max_key_step d r) end; lia.
Qed.

Lemma reachable_rowids_bounded_witness :
  reachable 1 (serve empty_db (ReqAdd (BodyJson (JObj [("comment", JStr "Is the sky blue?")])))).2 /\
  max_key user_id (users (serve empty_db (ReqAdd (BodyJson (JObj [("comment", JStr "Is the sky blue?")])))).2) <= Z.of_nat 1 /\
  max_key answer_id (answers (serve empty_db (ReqAdd (BodyJson (JObj [("comment", JStr "Is the sky blue?")])))).2) <= Z.of_nat 1.
Proof.
  assert (reachable 1 (serve empty_db (ReqAdd (BodyJson (JObj [("comment", JStr "Is the sky blue?")])))).2)
    as Hr by (apply reach_step, reach_init).
  exact (conj Hr (reachable_rowids_bounded _ _ Hr)).
Defined.
