(* ===== verification/Typing.v ===== *)
(** * The shapes of the responses

    The schemas of [src/main.py] fix the JSON a client receives:
    [AnswerSchema] (lines 38-41) an object of an [Int] [id], a [Str]
    [answer] and an [Int] [question_id]; [UserSchema] (lines 43-49) an
    object of [id], [comment] and the [Nested] list of answers, in the
    order of [Meta.fields]; the delete routes a message with the id (lines
    77, 108) and the not-found paths an [error] text (lines 74, 83, 94,
    105, 114).  This file states these shapes as JSON types with an
    executable checker, and proves that every response of every route has
    the shape of its route, or is the 404 of a route with an id, or is an
    error page. *)

From S2P Require Import Prelude PyJson Sqlite Store Session Schema Handlers Direct Invariant.

#[local] Set Warnings "-register-all".

Local Open Scope string_scope.

(** ** JSON types *)

Inductive jtype : Type :=
| TInt
| TStr
| TArr (t : jtype)
| TObj (fs : list (string * jtype)).

(** [has_type j t]: [j] is of type [t]; an object has exactly the fields of
    its type, in order. *)
Fixpoint has_type (j : json) (t : jtype) : bool :=
  match j, t with
  | JInt _, TInt | JStr _, TStr => true
  | JArr l, TArr t' => forallb (fun x => has_type x t') l
  | JObj kvs, TObj fs =>
      (fix fields (kvs : list (string * json)) (fs : list (string * jtype)) : bool :=
         match kvs, fs with
         | [], [] => true
         | (k, v) :: kvs', (k', t') :: fs' =>
             String.eqb k k' && has_type v t' && fields kvs' fs'
         | _, _ => false
         end) kvs fs
  | _, _ => false
  end.

(** ** The schemas *)

Definition answer_type : jtype :=
  TObj [("id", TInt); ("answer", TStr); ("question_id", TInt)].

Definition question_type : jtype :=
  TObj [("id", TInt); ("comment", TStr); ("answers", TArr answer_type)].

Definition message_type : jtype := TObj [("message", TStr); ("id", TInt)].

Definition error_type : jtype := TObj [("error", TStr)].

(** The type of the 200 response of each route. *)
Definition route_type (r : request) : jtype :=
  match r with
  | ReqAdd _ | ReqUpdate _ _ => question_type
  | ReqHome => TArr question_type
  | ReqDelete _ | ReqDeleteAnswer _ => message_type
  | ReqAddAnswer _ _ | ReqUpdateAnswer _ _ => answer_type
  end.

(** The routes with an id in their path, the ones with a not-found path. *)
Definition route_has_id (r : request) : bool :=
  match r with ReqAdd _ | ReqHome => false | _ => true end.

(** A response conforms to its route: 200 with the route's type, 404 with
    an error object on a route with an id, or Flask's error page (no JSON)
    with the status of an exception. *)
Definition response_ok (r : request) (resp : response) : bool :=
  match payload resp with
  | None => bool_decide (status resp ∈ [400; 415; 500])
  | Some j =>
      (bool_decide (status resp = 200) && has_type j (route_type r))
      || (route_has_id r && bool_decide (status resp = 404) && has_type j error_type)
  end.

(** ** Rendering has the types of the schemas *)

Lemma has_type_arr l t : has_type (JArr l) (TArr t) = true <-> Forall (fun j => has_type j t = true) l.
Proof. simpl. rewrite List.forallb_forall, Forall_forall. by setoid_rewrite list_elem_of_In. Qed.

Lemma dump_answer_type a : has_type (dump_answer a) answer_type = true.
Proof. done. Qed.

Lemma dump_user_type d u : has_type (dump_user d u) question_type = true.
Proof.
  unfold dump_user. simpl. rewrite andb_true_r.
  apply (has_type_arr _ answer_type), Forall_fmap, Forall_true. intros a. apply dump_answer_type.
Qed.

Lemma dump_users_type d : has_type (dump_users d) (TArr question_type) = true.
Proof. apply has_type_arr, Forall_fmap, Forall_true. intros u. apply dump_user_type. Qed.

Lemma error_response_ok r e : response_ok r (error_response e) = true.
Proof. by destruct e. Qed.

Lemma jsonify_ok r j : has_type j (route_type r) = true -> response_ok r (jsonify j) = true.
Proof. unfold response_ok. simpl. by intros ->. Qed.

Lemma not_found_ok r msg : route_has_id r = true -> response_ok r (not_found msg) = true.
Proof. unfold response_ok. simpl. by intros ->. Qed.

Lemma deleted_ok r msg id : route_type r = message_type -> response_ok r (deleted msg id) = true.
Proof. unfold response_ok. simpl. by intros ->. Qed.

(** Close [has_type] of a rendering by the lemma of its schema. *)
Ltac rendered_type :=
  lazymatch goal with
  | |- has_type (dump_answer _) _ = true => apply dump_answer_type
  | |- has_type (dump_user _ _) _ = true => apply dump_user_type
  | |- has_type (dump_users _) _ = true => apply dump_users_type
  end.

#[export] Hint Resolve dump_answer_type dump_user_type dump_users_type error_response_ok : dsa.

(** C27: Every response conforms to the API of its route: for every
    well-formed store and every request, the response is a 200 whose JSON
    has the route's type (a question with its nested answers, the list of
    questions, an answer, or a delete message), a 404 with an error object
    on a route with an id, or Flask's error page with the status of an
    exception (400, 415 or 500). *)
Theorem serve_typed d r : wf_db d -> response_ok r (serve d r).1 = true.
Proof.
  intros Hwf. pose proof (wf_keys_sorted_answers d Hwf).
  destruct r; to_direct; unfold direct; repeat case_match; cbn [fst];
    first [ apply error_response_ok | by apply not_found_ok | by apply deleted_ok
          | apply jsonify_ok; cbn [route_type]; rendered_type ].
Qed.

Lemma serve_typed_witness :
  wf_db sample_db /\ response_ok (ReqDelete 1) (serve sample_db (ReqDelete 1)).1 = true.
Proof.
  assert (wf_db sample_db) as Hwf by (apply (bool_decide_unpack _); vm_compute; reflexivity).
  split; [exact Hwf | apply (serve_typed sample_db (ReqDelete 1) Hwf)].
Defined.
