(* ===== verification/Commits.v ===== *)
(** * Commits per request

    The specification says every handler call performs exactly one commit.
    [commits_of d r] is the number of [db.session.commit()] calls that
    completed while serving [r] on [d] (the [s_commits] counter of the
    session at the end of the handler).  This file shows that a request
    commits once when it is a write answered with 200 and never otherwise:
    the not-found paths (lines 73-74, 82-83, 93-94, 104-105, 113-114),
    GET /home and every error path return without committing. *)

From S2P Require Import Prelude PyJson Sqlite Store Session Schema Handlers Direct Invariant.

Local Open Scope string_scope.

Definition commits_of (d : db) (r : request) : nat :=
  s_commits (handler_of r (begin_session d)).2.

(** The routes that write: all but GET /home. *)
Definition writes (r : request) : nat := match r with ReqHome => 0 | _ => 1 end.

(** The commits a request makes according to its statement-level outcome. *)
Definition commits_spec (d : db) (r : request) : nat :=
  if Z.eqb (status (direct d r).1) 200 then writes r else 0%nat.

Lemma exn_status_not_200 e : (exn_status e =? 200)%Z = false.
Proof. by destruct e. Qed.

(** Evaluate one branch of a handler and of [direct] side by side. *)
Ltac ccase := hsimp_all; rewrite ?exn_status_not_200; try done.

Section commits.
Context (d : db).

Lemma commits_add b : commits_of d (ReqAdd b) = commits_spec d (ReqAdd b).
Proof.
  unfold commits_of, commits_spec, direct, post_value. destruct b as [[| | | | |kvs]| |]; ccase.
  destruct (dict_lookup "comment" kvs) as [v|] eqn:Hv; ccase.
  destruct (bind_text_column v) as [c|e] eqn:Hc; ccase.
  destruct (insert_user d c) as [[id d']|e] eqn:Hi; ccase.
  pose proof (insert_user_select _ _ _ _ Hi). by ccase.
Qed.

Lemma commits_home : commits_of d ReqHome = commits_spec d ReqHome.
Proof. unfold commits_of, commits_spec. by ccase. Qed.

Lemma commits_delete id :
  keys_sorted answer_id (answers d) -> commits_of d (ReqDelete id) = commits_spec d (ReqDelete id).
Proof.
  intros Hs. unfold commits_of, commits_spec, direct.
  destruct (bind_int_param id) as [k|e] eqn:Hb; ccase.
  destruct (select_user d k) as [u|] eqn:Hu; ccase.
  apply select_user_Some in Hu as [_ Hk].
  pose proof (flush_cascade d 0 k Hs). by ccase.
Qed.

Lemma commits_update id b : commits_of d (ReqUpdate id b) = commits_spec d (ReqUpdate id b).
Proof.
  unfold commits_of, commits_spec, direct, patch_value.
  destruct (bind_int_param id) as [k|e] eqn:Hb; ccase.
  destruct (select_user d k) as [u|] eqn:Hu; ccase.
  pose proof (select_user_Some _ _ _ Hu) as [_ Hk].
  destruct b as [[| | |s|l|kvs]| |]; ccase.
  - destruct (str_contains "comment" s); ccase.
  - destruct (existsb (json_is_str "comment") l); ccase.
  - destruct (dict_lookup "comment" kvs) as [v|] eqn:Hv; ccase.
    destruct (bind_text_column v) as [c|e] eqn:Hc; ccase.
    pose proof (select_user_update_self d k c u Hu). by ccase.
Qed.

Lemma commits_add_answer q b :
  commits_of d (ReqAddAnswer q b) = commits_spec d (ReqAddAnswer q b).
Proof.
  unfold commits_of, commits_spec, direct, post_value.
  destruct (bind_int_param q) as [k|e] eqn:Hb; ccase.
  pose proof (bind_int_param_inv _ _ Hb) as [-> _].
  destruct (select_user d q) as [u|] eqn:Hu; ccase.
  destruct b as [[| | | | |kvs]| |]; ccase.
  destruct (dict_lookup "answer" kvs) as [v|] eqn:Hv; ccase.
  destruct (bind_text_column v) as [t|e] eqn:Ht; ccase.
  destruct (insert_answer d t q) as [[id d']|e] eqn:Hi; ccase.
  pose proof (insert_answer_select _ _ _ _ _ Hi). by ccase.
Qed.

Lemma commits_delete_answer id :
  commits_of d (ReqDeleteAnswer id) = commits_spec d (ReqDeleteAnswer id).
Proof.
  unfold commits_of, commits_spec, direct.
  destruct (bind_int_param id) as [k|e] eqn:Hb; ccase.
  destruct (select_answer d k) as [a|] eqn:Ha; ccase.
Qed.

Lemma commits_update_answer id b :
  commits_of d (ReqUpdateAnswer id b) = commits_spec d (ReqUpdateAnswer id b).
Proof.
  unfold commits_of, commits_spec, direct, patch_value.
  destruct (bind_int_param id) as [k|e] eqn:Hb; ccase.
  destruct (select_answer d k) as [a|] eqn:Ha; ccase.
  pose proof (select_answer_Some _ _ _ Ha) as [_ Hk].
  destruct b as [[| | |s|l|kvs]| |]; ccase.
  - destruct (str_contains "answer" s); ccase.
  - destruct (existsb (json_is_str "answer") l); ccase.
  - destruct (dict_lookup "answer" kvs) as [v|] eqn:Hv; ccase.
    destruct (bind_text_column v) as [t|e] eqn:Ht; ccase.
    pose proof (select_answer_update_self d k t a Ha). by ccase.
Qed.
End commits.

(** C9: Serving a request commits exactly once when the request is a write
    (any route but GET /home) answered with 200, and never otherwise: a 404,
    an error response or GET /home performs no commit, against the
    specification's "each handler call performs exactly one commit". *)
Theorem commits_per_request d r :
  wf_db d ->
  commits_of d r = if Z.eqb (status (serve d r).1) 200 then writes r else 0%nat.
Proof.
  intros Hwf. destruct r; to_direct.
  - exact (commits_add d b).
  - exact (commits_home d).
  - exact (commits_delete d id (wf_keys_sorted_answers d Hwf)).
  - exact (commits_update d id b).
  - exact (commits_add_answer d question_id b).
  - exact (commits_delete_answer d id).
  - exact (commits_update_answer d id b).
Qed.

Lemma commits_per_request_witness :
  wf_db sample_db /\
  commits_of sample_db (ReqDelete 2) =
  (if Z.eqb (status (serve sample_db (ReqDelete 2)).1) 200 then writes (ReqDelete 2) else 0%nat).
Proof.
  assert (wf_db sample_db) as Hwf by (apply (bool_decide_unpack _); vm_compute; reflexivity).
  exact (conj Hwf (commits_per_request sample_db (ReqDelete 2) Hwf)).
Defined.
