(* ===== verification/Concurrency.v ===== *)
(** * Requests served concurrently

    Section 5 of the specification lets requests run concurrently and
    leaves their safety to the transaction isolation of the store.  In the
    code a handler's lookups run outside any transaction: the driver opens
    one only before the first INSERT, UPDATE or DELETE of the commit's
    flush, and the commit ends it.  After the commit, rendering the
    response reloads the expired rows with new SELECTs.  So each handler
    runs in three phases, and other requests can commit between them:

    - [read_phase]: everything before [db.session.commit()], that is the
      [Query.get] lookups and the cascade's load of [user.answers] on the
      committed store, the reading of the body and the staging of work.
      It either answers at once (404, a body error, GET /home) or yields
      the staged operations and what is rendered after the commit;
    - the commit ([commit_thread]): the staged operations flushed by
      [flush_ops] of [Session] as one atomic transaction on the store as it
      is then; a failure rolls it back and answers 500;
    - [post_phase]: the refresh of the expired object on the store as it
      is then ([ObjectDeletedError] if its row is gone), and the rendering.

    [cstep] interleaves these phases for any number of requests over the
    shared store, and [run_schedule] computes an interleaving.  Within a
    phase the statements are not interleaved: the lookups of one phase (and
    the refresh and the lazy load of a rendering) are taken together. *)

From stdpp Require Import relations.
From S2P Require Import Prelude PyJson Sqlite Store Session Schema Handlers Direct Invariant.

Local Open Scope string_scope.
Local Open Scope list_scope.
Local Open Scope dsa_scope.

(** What a handler renders after its commit. *)
Inductive post : Type :=
| RenderUser (id : Z)         (** [user_schema.jsonify(comment)], line 88 *)
| RenderNewUser               (** [user_schema.jsonify(new_comment)], line 63 *)
| RenderAnswer (id : Z)       (** [answer_schema.jsonify(ans)], line 119 *)
| RenderNewAnswer             (** [answer_schema.jsonify(new_answer)], line 99 *)
| Respond (resp : response).  (** the deletion messages, lines 77 and 108 *)

Inductive thread : Type :=
| TPending (r : request)
| TStaged (ops : list op) (p : post)
| TCommitted (p : post) (last : Z)
| TDone (resp : response).

(** The body part of a PATCH handler: the work staged for ['k' in data]
    (lines 84-86, 115-117). *)
Definition patch_ops (k : string) (mk : json -> op) (b : body) : result exn (list op) :=
  data <-? get_json b ;;
  has <-? py_contains k data ;;
  if has then (v <-? py_getitem data k ;; Ok [mk v]) else Ok [].

(** The body part of a POST handler (lines 59-60, 95-96). *)
Definition post_json (k : string) (b : body) : result exn json :=
  data <-? get_json b ;; py_getitem data k.

(** The phase before the commit, on the committed store [d]. *)
Definition read_phase (d : db) (r : request) : response + (list op * post) :=
  match r with
  | ReqAdd b =>
      match post_json "comment" b with
      | Raise e => inl (error_response e)
      | Ok v => inr ([InsertUser v], RenderNewUser)
      end
  | ReqHome => inl (jsonify (dump_users d))
  | ReqDelete id =>
      match bind_int_param id with
      | Raise e => inl (error_response e)
      | Ok k =>
          match select_user d k with
          | None => inl (not_found "Question not found")
          | Some u =>
              inr (((fun a => DeleteAnswer (answer_id a)) <$> select_answers_of d (user_id u))
                     ++ [DeleteUser (user_id u)],
                   Respond (deleted "Question deleted successfully" id))
          end
      end
  | ReqUpdate id b =>
      match bind_int_param id with
      | Raise e => inl (error_response e)
      | Ok k =>
          match select_user d k with
          | None => inl (not_found "Question not found")
          | Some u =>
              match patch_ops "comment" (SetComment (user_id u)) b with
              | Raise e => inl (error_response e)
              | Ok ops => inr (ops, RenderUser (user_id u))
              end
          end
      end
  | ReqAddAnswer q b =>
      match bind_int_param q with
      | Raise e => inl (error_response e)
      | Ok k =>
          match select_user d k with
          | None => inl (not_found "Question not found")
          | Some _ =>
              match post_json "answer" b with
              | Raise e => inl (error_response e)
              | Ok v => inr ([InsertAnswer v q], RenderNewAnswer)
              end
          end
      end
  | ReqDeleteAnswer id =>
      match bind_int_param id with
      | Raise e => inl (error_response e)
      | Ok k =>
          match select_answer d k with
          | None => inl (not_found "Answer not found")
          | Some a => inr ([DeleteAnswer (answer_id a)],
                           Respond (deleted "Answer deleted successfully" id))
          end
      end
  | ReqUpdateAnswer id b =>
      match bind_int_param id with
      | Raise e => inl (error_response e)
      | Ok k =>
          match select_answer d k with
          | None => inl (not_found "Answer not found")
          | Some a =>
              match patch_ops "answer" (SetAnswer (answer_id a)) b with
              | Raise e => inl (error_response e)
              | Ok ops => inr (ops, RenderAnswer (answer_id a))
              end
          end
      end
  end.

Definition read_thread (d : db) (r : request) : thread :=
  match read_phase d r with
  | inl resp => TDone resp
  | inr (ops, p) => TStaged ops p
  end.

(** The commit: the flush of the staged work from a fresh session. *)
Definition commit_thread (d : db) (ops : list op) (p : post) : thread * db :=
  match flush_ops d 0 ops with
  | Ok (d', last) => (TCommitted p last, d')
  | Raise e => (TDone (error_response e), d)
  end.

(** Reloading an expired object and rendering it. *)
Definition render_user_row (d : db) (id : Z) : response :=
  match select_user d id with
  | Some u => jsonify (dump_user d u)
  | None => error_response ObjectDeletedError
  end.

Definition render_answer_row (d : db) (id : Z) : response :=
  match select_answer d id with
  | Some a => jsonify (dump_answer a)
  | None => error_response ObjectDeletedError
  end.

(** The phase after the commit, on the store [d] as it is then; [last] is
    the rowid of the commit's INSERT. *)
Definition post_phase (d : db) (p : post) (last : Z) : response :=
  match p with
  | RenderUser id => render_user_row d id
  | RenderNewUser => render_user_row d last
  | RenderAnswer id => render_answer_row d id
  | RenderNewAnswer => render_answer_row d last
  | Respond resp => resp
  end.

(** One step of one thread. *)
Inductive cstep : db * list thread -> db * list thread -> Prop :=
| cs_read d ts1 r ts2 :
    cstep (d, ts1 ++ TPending r :: ts2) (d, ts1 ++ read_thread d r :: ts2)
| cs_commit d ts1 ops p ts2 :
    cstep (d, ts1 ++ TStaged ops p :: ts2)
          ((commit_thread d ops p).2, ts1 ++ (commit_thread d ops p).1 :: ts2)
| cs_post d ts1 p last ts2 :
    cstep (d, ts1 ++ TCommitted p last :: ts2) (d, ts1 ++ TDone (post_phase d p last) :: ts2).

(** An executable scheduler: [run_schedule c sched] runs, in order, one
    phase of the thread at each index of [sched]; an index whose thread is
    done or absent is skipped. *)
Definition step_thread (c : db * list thread) (i : nat) : db * list thread :=
  match c.2 !! i with
  | Some (TPending r) => (c.1, <[i := read_thread c.1 r]> c.2)
  | Some (TStaged ops p) =>
      ((commit_thread c.1 ops p).2, <[i := (commit_thread c.1 ops p).1]> c.2)
  | Some (TCommitted p last) => (c.1, <[i := TDone (post_phase c.1 p last)]> c.2)
  | _ => c
  end.

Fixpoint run_schedule (c : db * list thread) (sched : list nat) : db * list thread :=
  match sched with
  | [] => c
  | i :: sched' => run_schedule (step_thread c i) sched'
  end.

(** The staged work of a thread, committed and rendered with nothing in
    between. *)
Definition finish_staged (d : db) (ops : list op) (p : post) : response * db :=
  match flush_ops d 0 ops with
  | Ok (d', last) => (post_phase d' p last, d')
  | Raise e => (error_response e, d)
  end.

(** The three phases of a request back to back. *)
Definition run_alone (d : db) (r : request) : response * db :=
  match read_phase d r with
  | inl resp => (resp, d)
  | inr (ops, p) => finish_staged d ops p
  end.

(** Primary-key integrity: the rowids of each table are strictly
    increasing and in [1, 2^63-1].  This is [wf_db] without the
    foreign-key part. *)
Definition keys_ok (d : db) : Prop :=
  keys_sorted user_id (users d) /\ keys_sorted answer_id (answers d) /\
  rowids_in_range user_id (users d) /\ rowids_in_range answer_id (answers d).

(** ** A request alone *)

Lemma run_alone_serve d r : run_alone d r = serve d r.
Proof.
  unfold run_alone, finish_staged, read_phase, post_phase, render_user_row, render_answer_row,
    patch_ops, post_json.
  destruct r; hsimp_all; try done; repeat (case_match; simplify_eq; simpl; try done).
Qed.

(** The shape of a configuration with one thread. *)
Lemma app_cons_singleton {A} (ts1 ts2 : list A) x y :
  ts1 ++ x :: ts2 = [y] -> ts1 = [] /\ x = y /\ ts2 = [].
Proof. destruct ts1 as [|? [|]]; simpl; intros H; simplify_eq; done. Qed.

Ltac single_thread :=
  match goal with H : _ ++ _ :: _ = [_] |- _ => apply app_cons_singleton in H as (-> & <- & ->) end.

Lemma cstep_one d t c :
  cstep (d, [t]) c ->
  (exists r, t = TPending r /\ c = (d, [read_thread d r])) \/
  (exists ops p, t = TStaged ops p /\
     c = ((commit_thread d ops p).2, [(commit_thread d ops p).1])) \/
  (exists p last, t = TCommitted p last /\ c = (d, [TDone (post_phase d p last)])).
Proof. inversion 1; subst; single_thread; eauto 10. Qed.

Lemma cstep_done d resp c : ~ cstep (d, [TDone resp]) c.
Proof. intros Hs. apply cstep_one in Hs as [(? & ? & _)|[(? & ? & ? & _)|(? & ? & ? & _)]]; done. Qed.

Lemma rtc_done d d' x y : rtc cstep (d, [TDone x]) (d', [TDone y]) <-> x = y /\ d = d'.
Proof.
  split; [|intros [-> ->]; apply rtc_refl].
  inversion 1 as [|? c ? Hs]; [done|]. by apply cstep_done in Hs.
Qed.

Lemma rtc_committed d p last d' resp :
  rtc cstep (d, [TCommitted p last]) (d', [TDone resp]) <-> resp = post_phase d p last /\ d' = d.
Proof.
  split.
  - inversion 1 as [|? c ? Hs Hrest]; subst.
    apply cstep_one in Hs as [(? & ? & _)|[(? & ? & ? & _)|(? & ? & [= <- <-] & ->)]]; [done|done|].
    apply rtc_done in Hrest as [-> ->]. done.
  - intros [-> ->]. eapply rtc_l; [apply (cs_post _ [] _ _ [])|]. apply rtc_refl.
Qed.

Lemma rtc_staged d ops p d' resp :
  rtc cstep (d, [TStaged ops p]) (d', [TDone resp]) <-> (resp, d') = finish_staged d ops p.
Proof.
  unfold finish_staged. split.
  - inversion 1 as [|? c ? Hs Hrest]; subst.
    apply cstep_one in Hs as [(? & ? & _)|[(? & ? & [= <- <-] & ->)|(? & ? & ? & _)]]; [done| |done].
    unfold commit_thread in Hrest. destruct (flush_ops d 0 ops) as [[d1 last]|e]; simpl in Hrest.
    + apply rtc_committed in Hrest as [-> ->]. done.
    + apply rtc_done in Hrest as [-> ->]. done.
  - intros Heq. eapply rtc_l; [apply (cs_commit _ [] _ _ [])|]. unfold commit_thread. simpl.
    destruct (flush_ops d 0 ops) as [[d1 last]|e]; simplify_eq; simpl.
    + by apply rtc_committed.
    + by apply rtc_done.
Qed.

Lemma rtc_alone d r resp d' :
  rtc cstep (d, [TPending r]) (d', [TDone resp]) <-> (resp, d') = run_alone d r.
Proof.
  unfold run_alone. split.
  - inversion 1 as [|? c ? Hs Hrest]; subst.
    apply cstep_one in Hs as [(? & [= <-] & ->)|[(? & ? & ? & _)|(? & ? & ? & _)]]; [|done|done].
    unfold read_thread in Hrest. destruct (read_phase d r) as [resp'|[ops p]].
    + apply rtc_done in Hrest as [-> ->]. done.
    + by apply rtc_staged in Hrest.
  - intros Heq. eapply rtc_l; [apply (cs_read _ [] _ [])|]. unfold read_thread. simpl.
    destruct (read_phase d r) as [resp'|[ops p]]; simplify_eq.
    + by apply rtc_done.
    + by apply rtc_staged.
Qed.

(** C26: A request that runs alone through its three phases (read,
    commit, render) completes.  It ends exactly with the response and the
    store of the handler, for every route and every store, so the phased
    model of this file is the model of [Handlers]. *)
Theorem alone_serve d r resp d' :
  rtc cstep (d, [TPending r]) (d', [TDone resp]) <-> (resp, d') = serve d r.
Proof. by rewrite rtc_alone, run_alone_serve. Qed.

Lemma alone_serve_witness :
  rtc cstep (sample_db, [TPending (ReqDelete 1)])
      ((serve sample_db (ReqDelete 1)).2, [TDone (serve sample_db (ReqDelete 1)).1]) <->
  ((serve sample_db (ReqDelete 1)).1, (serve sample_db (ReqDelete 1)).2) =
  serve sample_db (ReqDelete 1).
Proof. exact (alone_serve sample_db (ReqDelete 1) _ _). Defined.

(** ** Two requests interleaved *)

Lemma post_json_value k b t :
  post_value k b = Ok t -> exists v, post_json k b = Ok v /\ bind_text_column v = Ok t.
Proof.
  unfold post_value, post_json. destruct (get_json b) as [data|e]; simpl; [|done].
  destruct (py_getitem data k) as [v|e]; simpl; [eauto | done].
Qed.

Lemma bind_int_param_found d q u : wf_db d -> select_user d q = Some u -> in_int64 q = true.
Proof.
  intros Hwf Hu. pose proof (wf_select_user_bind _ _ _ Hwf Hu) as Hb.
  unfold bind_int_param in Hb. by destruct (in_int64 q).
Qed.

Lemma read_add_answer_staged d q u b v :
  in_int64 q = true -> select_user d q = Some u -> post_json "answer" b = Ok v ->
  read_thread d (ReqAddAnswer q b) = TStaged [InsertAnswer v q] RenderNewAnswer.
Proof. intros Hq Hu Hb. unfold read_thread, read_phase, bind_int_param. by rewrite Hq, Hu, Hb. Qed.

Lemma read_delete_staged d q u :
  in_int64 q = true -> select_user d q = Some u ->
  read_thread d (ReqDelete q) =
  TStaged (((fun a => DeleteAnswer (answer_id a)) <$> select_answers_of d q) ++ [DeleteUser q])
          (Respond (deleted "Question deleted successfully" q)).
Proof.
  intros Hq Hu. pose proof (select_user_Some _ _ _ Hu) as [_ Hk].
  unfold read_thread, read_phase, bind_int_param. by rewrite Hq, Hu, Hk.
Qed.

Lemma commit_cascade d q p :
  keys_sorted answer_id (answers d) ->
  commit_thread d (((fun a => DeleteAnswer (answer_id a)) <$> select_answers_of d q) ++ [DeleteUser q]) p
  = (TCommitted p 0, delete_question d q).
Proof. intros Hs. unfold commit_thread. by rewrite flush_cascade. Qed.

Lemma commit_insert_answer d v t q p :
  bind_text_column v = Ok t -> in_int64 q = true -> max_key answer_id (answers d) < INT64_MAX ->
  commit_thread d [InsertAnswer v q] p =
  (TCommitted p (max_key answer_id (answers d) + 1),
   mk_db (users d) (answers d ++ [mk_answer (max_key answer_id (answers d) + 1) t q])).
Proof.
  intros Hv Hq Hm. unfold commit_thread. simpl. rewrite Hv. simpl.
  unfold bind_int_param. rewrite Hq. simpl. by rewrite insert_answer_fresh.
Qed.

(** C11: Concurrency breaks the ownership invariant.  Let POST
    /add_answer/<q> and DELETE /delete/<q> run concurrently on a store with
    question [q].  Suppose the answer's lookup comes before the question's
    deletion commits, and its INSERT comes after.  Both requests then
    succeed: the answer is reported created with 200, the question deleted.
    The new answer stays in the store, but its question is gone, so the
    foreign-key invariant fails. *)
Theorem interleaving_orphan d q u b t :
  wf_db d -> select_user d q = Some u -> post_value "answer" b = Ok t ->
  max_key answer_id (answers d) < INT64_MAX ->
  exists d' id,
    rtc cstep (d, [TPending (ReqAddAnswer q b); TPending (ReqDelete q)])
        (d', [TDone (jsonify (dump_answer (mk_answer id t q)));
              TDone (deleted "Question deleted successfully" q)]) /\
    mk_answer id t q ∈ answers d' /\ select_user d' q = None /\ ~ fk_ok d'.
Proof.
  intros Hwf Hu Hb Hmax. pose proof (bind_int_param_found d q u Hwf Hu) as Hq.
  destruct (post_json_value _ _ _ Hb) as (v & Hv & Ht).
  set (d1 := delete_question d q).
  assert (max_key answer_id (answers d1) < INT64_MAX) as Hmax1.
  { pose proof (max_key_filter answer_id (fun a => answer_qid a <> q) (answers d)). simpl. lia. }
  set (id := max_key answer_id (answers d1) + 1).
  set (d2 := mk_db (users d1) (answers d1 ++ [mk_answer id t q])).
  exists d2, id.
  assert (select_user d1 q = None) as Hgone by apply find_key_delete_eq.
  split_and!.
  - eapply rtc_l; [apply (cs_read _ [] _ [_])|].
    rewrite (read_add_answer_staged d q u b v) by done. cbn [app].
    eapply rtc_l; [apply (cs_read _ [_] _ [])|].
    rewrite (read_delete_staged d q u) by done. cbn [app].
    eapply rtc_l; [apply (cs_commit _ [_] _ _ [])|].
    rewrite commit_cascade by auto with dsa. cbn [app fst snd].
    eapply rtc_l; [apply (cs_post _ [_] _ _ [])|]. cbn [app post_phase].
    eapply rtc_l; [apply (cs_commit _ [] _ _ [_])|].
    fold d1. rewrite (commit_insert_answer d1 v t q) by done. cbn [app fst snd].
    eapply rtc_l; [apply (cs_post _ [] _ _ [_])|]. cbn [app post_phase].
    unfold render_answer_row. rewrite (select_answer_snoc_fresh d1 t q (users d1)).
    apply rtc_refl.
  - apply elem_of_app. right. by apply list_elem_of_singleton.
  - done.
  - intros Hfk. unfold fk_ok in Hfk. rewrite Forall_forall in Hfk.
    assert (q ∈ keys user_id (users d1)) as Hin
      by (apply (Hfk (mk_answer id t q)), elem_of_app; right; by apply list_elem_of_singleton).
    apply find_key_None in Hgone. done.
Qed.

Lemma interleaving_orphan_witness :
  wf_db sample_db /\ select_user sample_db 3 = Some (mk_user 3 "Why?") /\
  post_value "answer" (BodyJson (JObj [("answer", JStr "Late")])) = Ok "Late" /\
  max_key answer_id (answers sample_db) < INT64_MAX /\
  exists d' id,
    rtc cstep (sample_db, [TPending (ReqAddAnswer 3 (BodyJson (JObj [("answer", JStr "Late")])));
                           TPending (ReqDelete 3)])
        (d', [TDone (jsonify (dump_answer (mk_answer id "Late" 3)));
              TDone (deleted "Question deleted successfully" 3)]) /\
    mk_answer id "Late" 3 ∈ answers d' /\ select_user d' 3 = None /\ ~ fk_ok d'.
Proof.
  assert (wf_db sample_db) as Hwf by (apply (bool_decide_unpack _); vm_compute; reflexivity).
  assert (select_user sample_db 3 = Some (mk_user 3 "Why?")) as Hu by reflexivity.
  assert (post_value "answer" (BodyJson (JObj [("answer", JStr "Late")])) = Ok "Late")
    as Hb by reflexivity.
  assert (max_key answer_id (answers sample_db) < INT64_MAX) as Hm by (vm_compute; reflexivity).
  exact (conj Hwf (conj Hu (conj Hb (conj Hm (interleaving_orphan _ _ _ _ _ Hwf Hu Hb Hm))))).
Defined.

(** ** Schedules *)

Lemma step_thread_cstep c i : c = step_thread c i \/ cstep c (step_thread c i).
Proof.
  destruct c as [d ts]. unfold step_thread. simpl.
  destruct (ts !! i) as [[r|ops p|p last|resp]|] eqn:Hi; [right | right | right | by left | by left];
    pose proof (lookup_lt_Some _ _ _ Hi); rewrite insert_take_drop by done;
    rewrite <-(take_drop_middle ts i _ Hi) at 1; constructor.
Qed.

(** The executable scheduler is sound: whatever the schedule, the
    configuration it computes is reached by steps of [cstep], so what a
    schedule shows by evaluation is a real interleaving. *)
Theorem run_schedule_sound c sched : rtc cstep c (run_schedule c sched).
Proof.
  revert c. induction sched as [|i sched IH]; intros c; simpl; [apply rtc_refl|].
  destruct (step_thread_cstep c i) as [<-|Hs]; [apply IH | eapply rtc_l; [exact Hs | apply IH]].
Qed.

(** The orphan is inherited, on a store with the single question 1:
    POST /add_answer/1 and DELETE /delete/1 under the schedule "lookup of
    the answer, lookup, commit and response of the deletion, commit and
    response of the answer" both succeed, and the next POST /add gets id
    1 again and is returned holding the deleted question's answer. *)
Example orphan_inherited :
  run_schedule (mk_db [mk_user 1 "Is the sky blue?"] [],
                [TPending (ReqAddAnswer 1 (BodyJson (JObj [("answer", JStr "Yes")])));
                 TPending (ReqDelete 1)]) [0; 1; 1; 1; 0; 0]%nat =
  (mk_db [] [mk_answer 1 "Yes" 1],
   [TDone (jsonify (JObj [("id", JInt 1); ("answer", JStr "Yes"); ("question_id", JInt 1)]));
    TDone (deleted "Question deleted successfully" 1)]) /\
  (serve (mk_db [] [mk_answer 1 "Yes" 1])
         (ReqAdd (BodyJson (JObj [("comment", JStr "Is it safe?")])))).1 =
  jsonify (JObj [("id", JInt 1); ("comment", JStr "Is it safe?");
                 ("answers", JArr [JObj [("id", JInt 1); ("answer", JStr "Yes");
                                         ("question_id", JInt 1)]])]).
Proof. split; vm_compute; reflexivity. Qed.

(** C12: An orphan answer is inherited by the next question: when an
    answer row names the id one above the largest question id (the
    question it answered was the newest and was deleted under it, as in
    [interleaving_orphan]), POST /add creates the question with exactly
    that id, because rowids are reused, and returns it already holding
    every such answer, the orphan included. *)
Theorem add_inherits_orphan d c a :
  a ∈ answers d -> answer_qid a = max_key user_id (users d) + 1 ->
  max_key user_id (users d) < INT64_MAX ->
  (serve d (ReqAdd (BodyJson (JObj [("comment", JStr c)])))).1 =
    jsonify (JObj [("id", JInt (answer_qid a)); ("comment", JStr c);
                   ("answers", JArr (dump_answer <$> select_answers_of d (answer_qid a)))]) /\
  dump_answer a ∈ dump_answer <$> select_answers_of d (answer_qid a).
Proof.
  intros Ha Hq Hmax. rewrite serve_direct_add. split.
  - unfold direct, post_value, insert_user, new_rowid. simpl.
    rewrite (proj2 (Z.ltb_lt _ _) Hmax). simpl. by rewrite Hq.
  - apply list_elem_of_fmap_2, list_elem_of_filter. by split.
Qed.

Lemma add_inherits_orphan_witness :
  mk_answer 1 "Yes" 1 ∈ answers (mk_db [] [mk_answer 1 "Yes" 1]) /\
  answer_qid (mk_answer 1 "Yes" 1) = max_key user_id (users (mk_db [] [mk_answer 1 "Yes" 1])) + 1 /\
  max_key user_id (users (mk_db [] [mk_answer 1 "Yes" 1])) < INT64_MAX /\
  (serve (mk_db [] [mk_answer 1 "Yes" 1]) (ReqAdd (BodyJson (JObj [("comment", JStr "Is it safe?")])))).1 =
    jsonify (JObj [("id", JInt 1); ("comment", JStr "Is it safe?");
                   ("answers", JArr (dump_answer <$> select_answers_of (mk_db [] [mk_answer 1 "Yes" 1]) 1))]) /\
  dump_answer (mk_answer 1 "Yes" 1)
    ∈ dump_answer <$> select_answers_of (mk_db [] [mk_answer 1 "Yes" 1]) 1.
Proof.
  assert (mk_answer 1 "Yes" 1 ∈ answers (mk_db [] [mk_answer 1 "Yes" 1])) as Ha by left.
  assert (answer_qid (mk_answer 1 "Yes" 1) = max_key user_id (users (mk_db [] [mk_answer 1 "Yes" 1])) + 1)
    as Hq by reflexivity.
  assert (max_key user_id (users (mk_db [] [mk_answer 1 "Yes" 1])) < INT64_MAX) as Hm
    by (vm_compute; reflexivity).
  destruct (add_inherits_orphan _ "Is it safe?" _ Ha Hq Hm) as [H1 H2].
  split_and!; [exact Ha | exact Hq | exact Hm | exact H1 | exact H2].
Defined.

(** ** Keys under any interleaving *)

Lemma keys_ok_insert_user d c id d' : keys_ok d -> insert_user d c = Ok (id, d') -> keys_ok d'.
Proof.
  intros (Hsu & Hsa & Hru & Hra) (Hlt & -> & ->)%insert_user_ok.
  pose proof (max_key_nonneg user_id (users d)).
  split_and!; simpl; try done;
    [apply keys_sorted_snoc | apply rowids_in_range_snoc]; simpl; try done; lia.
Qed.

Lemma keys_ok_insert_answer d t q id d' :
  keys_ok d -> insert_answer d t q = Ok (id, d') -> keys_ok d'.
Proof.
  intros (Hsu & Hsa & Hru & Hra) (Hlt & -> & ->)%insert_answer_ok.
  pose proof (max_key_nonneg answer_id (answers d)).
  split_and!; simpl; try done;
    [apply keys_sorted_snoc | apply rowids_in_range_snoc]; simpl; try done; lia.
Qed.

Lemma keys_ok_tables us ans :
  keys_sorted user_id us -> keys_sorted answer_id ans ->
  rowids_in_range user_id us -> rowids_in_range answer_id ans -> keys_ok (mk_db us ans).
Proof. unfold keys_ok. done. Qed.

Lemma keys_ok_exec d o d' l : keys_ok d -> exec_op d o = Ok (d', l) -> keys_ok d'.
Proof.
  intros Hk. pose proof Hk as (Hsu & Hsa & Hru & Hra).
  destruct o as [v|v q|uid v|aid v|uid|aid]; simpl; intros Heq;
    repeat match goal with
      | H : res_bind _ _ = Ok _ |- _ => apply res_bind_Ok_inv in H as ([] & ? & H)
      | H : res_bind _ _ = Ok _ |- _ => apply res_bind_Ok_inv in H as (? & ? & H)
      end;
    repeat case_match; simplify_eq; simpl in *;
    eauto using keys_ok_insert_user, keys_ok_insert_answer;
    unfold update_user_comment, update_answer_text, delete_user_row, delete_answer_row, delete_key;
    apply keys_ok_tables; auto using keys_sorted_filter, rowids_in_range_filter;
    unfold keys_sorted, rowids_in_range in *; rewrite keys_update; done.
Qed.

Lemma keys_ok_flush d l ops d' l' : keys_ok d -> flush_ops d l ops = Ok (d', l') -> keys_ok d'.
Proof.
  revert d l. induction ops as [|o ops IH]; intros d l Hk; simpl; [by intros [= <- _]|].
  destruct (exec_op d o) as [[d1 l1]|e] eqn:He; simpl; [|done].
  apply IH. by eapply keys_ok_exec.
Qed.

Lemma keys_ok_cstep c c' : cstep c c' -> keys_ok c.1 -> keys_ok c'.1.
Proof.
  destruct 1 as [|d ts1 ops p ts2|]; simpl; try done. intros Hk.
  unfold commit_thread. destruct (flush_ops d 0 ops) as [[d' last]|e] eqn:Hf; simpl; [|done].
  by eapply keys_ok_flush.
Qed.

(** C13: Whatever the interleaving, primary keys stay sound: if the rowids
    of both tables are increasing and within 64 bits before, they are so
    after any number of interleaved phases.  Each commit is one atomic
    transaction, so two inserts never get the same id.  Only the foreign-key
    part of the invariant can be lost, as C13 shows. *)
Theorem interleaving_keys_ok c c' : keys_ok c.1 -> rtc cstep c c' -> keys_ok c'.1.
Proof. intros Hk Hr. induction Hr as [|c1 c2 c3 Hs _ IH]; [done|]. by apply IH, (keys_ok_cstep c1). Qed.

Lemma interleaving_keys_ok_witness :
  keys_ok sample_db /\
  rtc cstep (sample_db, [TPending (ReqAddAnswer 3 BodyInvalid); TPending (ReqDelete 3)])
            (sample_db, [read_thread sample_db (ReqAddAnswer 3 BodyInvalid); TPending (ReqDelete 3)]) /\
  keys_ok sample_db.
Proof.
  assert (keys_ok sample_db) as Hk
    by (unfold keys_ok; split_and!; apply (bool_decide_unpack _); vm_compute; reflexivity).
  assert (rtc cstep (sample_db, [TPending (ReqAddAnswer 3 BodyInvalid); TPending (ReqDelete 3)])
            (sample_db, [read_thread sample_db (ReqAddAnswer 3 BodyInvalid); TPending (ReqDelete 3)]))
    as Hr by (eapply rtc_l; [apply (cs_read _ [] _ [_]) | apply rtc_refl]).
  exact (conj Hk (conj Hr (interleaving_keys_ok
    (sample_db, [TPending (ReqAddAnswer 3 BodyInvalid); TPending (ReqDelete 3)])
    (sample_db, [read_thread sample_db (ReqAddAnswer 3 BodyInvalid); TPending (ReqDelete 3)])
    Hk Hr))).
Defined.

(** ** An update racing a deletion *)

Lemma patch_ops_value k mk b c :
  patch_value k b = Ok (Some c) ->
  exists v, patch_ops k mk b = Ok [mk v] /\ bind_text_column v = Ok c.
Proof.
  unfold patch_value, patch_ops. destruct (get_json b) as [data|e]; simpl; [|done].
  destruct (py_contains k data) as [[]|e]; simpl; [|done|done].
  destruct (py_getitem data k) as [v|e]; simpl; [|done].
  destruct (bind_text_column v) eqn:Ht; simpl; [intros [= ->]; eauto | done].
Qed.

Lemma read_update_staged d q u b ops :
  in_int64 q = true -> select_user d q = Some u ->
  patch_ops "comment" (SetComment q) b = Ok ops ->
  read_thread d (ReqUpdate q b) = TStaged ops (RenderUser q).
Proof.
  intros Hq Hu Hb. pose proof (select_user_Some _ _ _ Hu) as [_ Hk].
  unfold read_thread, read_phase, bind_int_param. by rewrite Hq, Hu, Hk, Hb.
Qed.

Lemma commit_set_comment_gone d q v c p :
  bind_text_column v = Ok c -> select_user d q = None ->
  commit_thread d [SetComment q v] p = (TDone (error_response StaleDataError), d).
Proof. intros Hv Hu. unfold commit_thread. simpl. by rewrite Hv, Hu. Qed.

(** C14: A PATCH /update/<q> that finds question [q] can still fail with
    500.  Suppose a concurrent DELETE /delete/<q> commits between its lookup
    and its commit.  Its UPDATE then matches no row, and SQLAlchemy raises
    StaleDataError.  The client gets a 500, not the 404 the specification
    gives for a missing question.  The store is the one the deletion left. *)
Theorem update_races_delete d q u b c :
  wf_db d -> select_user d q = Some u -> patch_value "comment" b = Ok (Some c) ->
  rtc cstep (d, [TPending (ReqUpdate q b); TPending (ReqDelete q)])
      (delete_question d q, [TDone (error_response StaleDataError);
                             TDone (deleted "Question deleted successfully" q)]).
Proof.
  intros Hwf Hu Hb. pose proof (bind_int_param_found d q u Hwf Hu) as Hq.
  destruct (patch_ops_value _ (SetComment q) _ _ Hb) as (v & Hops & Hv).
  eapply rtc_l; [apply (cs_read _ [] _ [_])|].
  rewrite (read_update_staged d q u b _ Hq Hu Hops). cbn [app].
  eapply rtc_l; [apply (cs_read _ [_] _ [])|].
  rewrite (read_delete_staged d q u) by done. cbn [app].
  eapply rtc_l; [apply (cs_commit _ [_] _ _ [])|].
  rewrite commit_cascade by auto with dsa. cbn [app fst snd].
  eapply rtc_l; [apply (cs_post _ [_] _ _ [])|]. cbn [app post_phase].
  eapply rtc_l; [apply (cs_commit _ [] _ _ [_])|].
  rewrite (commit_set_comment_gone _ q v c) by (done || apply find_key_delete_eq).
  cbn [app fst snd].
  apply rtc_refl.
Qed.

Lemma update_races_delete_witness :
  wf_db sample_db /\ select_user sample_db 3 = Some (mk_user 3 "Why?") /\
  patch_value "comment" (BodyJson (JObj [("comment", JStr "How?")])) = Ok (Some "How?") /\
  rtc cstep (sample_db, [TPending (ReqUpdate 3 (BodyJson (JObj [("comment", JStr "How?")])));
                         TPending (ReqDelete 3)])
      (delete_question sample_db 3, [TDone (error_response StaleDataError);
                                     TDone (deleted "Question deleted successfully" 3)]).
Proof.
  assert (wf_db sample_db) as Hwf by (apply (bool_decide_unpack _); vm_compute; reflexivity).
  assert (select_user sample_db 3 = Some (mk_user 3 "Why?")) as Hu by reflexivity.
  assert (patch_value "comment" (BodyJson (JObj [("comment", JStr "How?")])) = Ok (Some "How?"))
    as Hb by reflexivity.
  exact (conj Hwf (conj Hu (conj Hb (update_races_delete _ _ _ _ _ Hwf Hu Hb)))).
Defined.
