(* ===== verification/Progress.v ===== *)
(** * Every interleaving of requests ends, and a fair scheduler ends it

    Each request of [Concurrency] goes through at most three phases
    (lookups, commit, rendering) and never back: a thread's phase rank
    (3 while pending, 2 staged, 1 committed, 0 done) drops at each of its
    steps, and the step of one thread leaves the others' ranks alone.  The
    sum of the ranks bounds the length of every interleaving, so [cstep]
    terminates from every configuration; and a scheduler that gives each
    thread a turn three times, whatever the order, finishes every request
    with a response.  These follow from the shape of the model (at most
    three phases per request, each always able to run): SQLite's lock
    waits and busy timeouts are not modelled, so they say nothing about
    blocking in the real server. *)

From stdpp Require Import relations.
From Stdlib Require Import Wf_nat Inclusion.
From S2P Require Import Prelude PyJson Sqlite Store Session Schema Handlers Concurrency.

(** ** Ranks *)

Definition thread_rank (t : thread) : nat :=
  match t with
  | TPending _ => 3
  | TStaged _ _ => 2
  | TCommitted _ _ => 1
  | TDone _ => 0
  end.

Definition config_rank (c : db * list thread) : nat := sum_list_with thread_rank c.2.

(** The rank of the thread at index [j], 0 when there is none. *)
Definition rank_at (c : db * list thread) (j : nat) : nat :=
  from_option thread_rank 0%nat (c.2 !! j).

Definition is_done (t : thread) : bool :=
  match t with TDone _ => true | _ => false end.

(** Three turns for each of the [n] threads, in index order. *)
Definition round_robin (n : nat) : list nat := seq 0 n ++ seq 0 n ++ seq 0 n.

(** A schedule is fair to [n] threads when it gives each of them at least
    three turns. *)
Definition fair_schedule (n : nat) (sched : list nat) : Prop :=
  forall j, (j < n)%nat -> (3 <= count_occ Nat.eq_dec sched j)%nat.

(** ** Each phase lowers the rank of its thread *)

Lemma read_thread_rank d r : (thread_rank (read_thread d r) <= 2)%nat.
Proof. unfold read_thread. by destruct (read_phase d r) as [|[]]; simpl; lia. Qed.

Lemma commit_thread_rank d ops p : (thread_rank (commit_thread d ops p).1 <= 1)%nat.
Proof. unfold commit_thread. by destruct (flush_ops d 0 ops) as [[]|]; simpl; lia. Qed.

Lemma cstep_rank c c' : cstep c c' -> (config_rank c' < config_rank c)%nat.
Proof.
  unfold config_rank.
  destruct 1; simpl; rewrite !sum_list_with_app; simpl;
    [pose proof (read_thread_rank d r) | pose proof (commit_thread_rank d ops p) |]; lia.
Qed.

Lemma rank_done t : thread_rank t = 0%nat <-> is_done t = true.
Proof. by destruct t. Qed.

Lemma step_thread_length c i : length (step_thread c i).2 = length c.2.
Proof.
  unfold step_thread. destruct (c.2 !! i) as [[]|]; simpl; by rewrite ?length_insert.
Qed.

(** A turn of thread [i] lowers its rank by one unless it is done, and
    leaves the ranks of the other threads as they are. *)
Lemma step_thread_rank c i j :
  (rank_at (step_thread c i) j <= rank_at c j - (if decide (i = j) then 1 else 0))%nat.
Proof.
  unfold rank_at, step_thread.
  destruct (c.2 !! i) as [t|] eqn:Hi; [|case_decide; subst; rewrite ?Hi; simpl; lia].
  destruct (decide (i = j)) as [<-|Hne].
  - destruct t; cbn [snd]; rewrite ?list_lookup_insert_eq by (eapply lookup_lt_Some; eauto);
      rewrite ?Hi; cbn [from_option thread_rank];
      [pose proof (read_thread_rank c.1 r) | pose proof (commit_thread_rank c.1 ops p) | |]; lia.
  - destruct t; cbn [snd]; rewrite ?list_lookup_insert_ne by done; lia.
Qed.

Lemma run_schedule_length c sched : length (run_schedule c sched).2 = length c.2.
Proof.
  revert c. induction sched as [|i sched IH]; intros c; simpl; [done|].
  by rewrite IH, step_thread_length.
Qed.

(** Over a schedule, thread [j] loses one rank per turn it gets. *)
Lemma run_schedule_rank c sched j :
  (rank_at (run_schedule c sched) j <= rank_at c j - count_occ Nat.eq_dec sched j)%nat.
Proof.
  revert c. induction sched as [|i sched IH]; intros c; simpl; [lia|].
  specialize (IH (step_thread c i)). pose proof (step_thread_rank c i j).
  destruct (Nat.eq_dec i j); case_decide; try done; lia.
Qed.

Lemma count_occ_seq s n j :
  count_occ Nat.eq_dec (seq s n) j = if decide (s <= j < s + n)%nat then 1%nat else 0%nat.
Proof.
  revert s. induction n as [|n IH]; intros s; simpl; [case_decide; lia|].
  rewrite IH. destruct (Nat.eq_dec s j); repeat case_decide; lia.
Qed.

Lemma thread_rank_le_3 t : (thread_rank t <= 3)%nat.
Proof. destruct t; simpl; lia. Qed.

(** Every interleaving of [n] steps from [c] has [n <= config_rank c], at
    most three steps per request. *)
Lemma cstep_nsteps_bound n c c' : nsteps cstep n c c' -> (n <= config_rank c)%nat.
Proof. induction 1 as [|n c1 c2 c3 Hs _ IH]; [lia|]. apply cstep_rank in Hs. lia. Qed.

(** The concurrent execution terminates: from every configuration,
    whatever the number of requests and the store, there is no infinite
    interleaving of their phases ([cstep] is strongly normalising). *)
Theorem cstep_terminates c : sn cstep c.
Proof.
  revert c. apply (wf_incl _ _ (ltof _ config_rank)); [|apply well_founded_ltof].
  intros c' c. apply cstep_rank.
Qed.

(** Every request is answered under a fair scheduler: a schedule that
    gives each of the threads at least three turns, in any order and
    interleaved in any way with the others', ends with every thread done,
    that is with a response for every request. *)
Theorem fair_schedule_completes c sched :
  fair_schedule (length c.2) sched ->
  Forall (fun t => is_done t = true) (run_schedule c sched).2.
Proof.
  intros Hfair. apply Forall_lookup_2. intros j t Hj.
  assert (j < length c.2)%nat as Hlt
    by (rewrite <- (run_schedule_length c sched); eapply lookup_lt_Some; eauto).
  pose proof (run_schedule_rank c sched j) as Hr. specialize (Hfair j Hlt).
  unfold rank_at in Hr. rewrite Hj in Hr. simpl in Hr.
  destruct (c.2 !! j) as [t0|]; simpl in Hr; [pose proof (thread_rank_le_3 t0)|];
    apply rank_done; lia.
Qed.

Lemma round_robin_fair n : fair_schedule n (round_robin n).
Proof. intros j Hj. unfold round_robin. rewrite !count_occ_app, !count_occ_seq. case_decide; lia. Qed.

Lemma fair_schedule_completes_witness :
  fair_schedule 2 (round_robin 2) /\
  Forall (fun t => is_done t = true)
    (run_schedule (sample_db, [TPending ReqHome; TPending (ReqDelete 1)]) (round_robin 2)).2.
Proof.
  split; [apply round_robin_fair|].
  exact (fair_schedule_completes (sample_db, [TPending ReqHome; TPending (ReqDelete 1)]) _
           (round_robin_fair 2)).
Defined.
