(* ===== verification/HomeRace.v ===== *)
(** * GET /home statement by statement

    [home] (lines 65-68) runs [User.query.all()], one SELECT of the
    questions, and then [users_schema.dump] renders them one by one.
    Reading [user.answers] for the nested field ([UserSchema], line 46)
    lazy-loads the relationship of line 23: one SELECT of the answers of
    that question, when it is rendered.  None of these SELECTs runs in a
    transaction (the driver opens one only before a write), so each sees
    the store as last committed, and other requests can commit between
    them.  [home_lazy d gaps] renders the questions of the first SELECT,
    the requests of [gaps]'s [i]-th list committing just before the
    [i]-th question's answers are loaded.  The id and comment of each
    question are the ones the first SELECT returned. *)

From S2P Require Import Prelude PyJson Sqlite Store Session Schema Handlers Router Direct Invariant.

Local Open Scope string_scope.
Local Open Scope list_scope.

(** The rendering of the questions [us], each after the requests of its
    gap have committed; the store at the end. *)
Fixpoint render_lazy (d : db) (us : list user_row) (gaps : list (list request))
    : list json * db :=
  match us with
  | [] => ([], d)
  | u :: us' =>
      let d1 := (serve_all d (default [] (head gaps))).2 in
      let '(js, d2) := render_lazy d1 us' (tail gaps) in
      (dump_user d1 u :: js, d2)
  end.

(** GET /home with the commits of [gaps] between its SELECTs. *)
Definition home_lazy (d : db) (gaps : list (list request)) : response * db :=
  let '(js, d') := render_lazy d (users d) gaps in (jsonify (JArr js), d').

(** The id and comment of a rendered question. *)
Definition question_header (j : json) : option (Z * string) :=
  match j with
  | JObj (("id", JInt id) :: ("comment", JStr c) :: _) => Some (id, c)
  | _ => None
  end.

(** ** Without concurrent commits the lazy rendering is the handler *)

Lemma render_lazy_alone d us : render_lazy d us [] = (dump_user d <$> us, d).
Proof. induction us as [|u us IH]; simpl; [done|]. by rewrite IH. Qed.

Lemma home_lazy_alone d : home_lazy d [] = serve d ReqHome.
Proof. unfold home_lazy. by rewrite render_lazy_alone, serve_home. Qed.

Lemma render_lazy_headers d us gaps :
  question_header <$> (render_lazy d us gaps).1
  = (fun u => Some (user_id u, user_comment u)) <$> us.
Proof.
  revert d gaps. induction us as [|u us IH]; intros d gaps; [done|].
  cbn [render_lazy]. specialize (IH (serve_all d (default [] (head gaps))).2 (tail gaps)).
  destruct (render_lazy _ us (tail gaps)) as [js d2]. cbn [fst] in IH |- *.
  rewrite !fmap_cons. f_equal. exact IH.
Qed.

(** GET /home answers from the first SELECT whatever commits during
    its rendering: for every store and every interleaving of other
    requests between its SELECTs, it answers 200 with exactly the
    questions of the store it started on, in rowid order, each with the id
    and comment that SELECT returned, including questions deleted or
    updated before their answers were loaded. *)
Theorem home_lazy_first_select d gaps :
  exists js, (home_lazy d gaps).1 = jsonify (JArr js) /\
    question_header <$> js = (fun u => Some (user_id u, user_comment u)) <$> users d.
Proof.
  unfold home_lazy. destruct (render_lazy d (users d) gaps) as [js d'] eqn:E.
  exists js. split; [done|].
  by rewrite <- (render_lazy_headers d (users d) gaps), E.
Qed.

(** ** A deletion between two SELECTs *)

Lemma render_lazy_skip d us i g :
  (i <= length us)%nat ->
  render_lazy d us (replicate i [] ++ g) =
  let '(js, d') := render_lazy d (drop i us) g in ((dump_user d <$> take i us) ++ js, d').
Proof.
  revert us. induction i as [|i IH]; intros us Hi; simpl.
  - rewrite drop_0. by destruct (render_lazy d us g).
  - destruct us as [|u us]; simpl in Hi; [lia|]. simpl.
    rewrite IH by lia. by destruct (render_lazy d (drop i us) g).
Qed.

Lemma serve_all_one d r : (serve_all d [r]).2 = (serve d r).2.
Proof. simpl. by destruct (serve d r). Qed.

(** What the deletion of question [u] leaves, on a well-formed store. *)
Lemma serve_delete_present d u :
  wf_db d -> u ∈ users d -> (serve d (ReqDelete (user_id u))).2 = delete_question d (user_id u).
Proof.
  intros Hwf Hu. rewrite serve_direct_delete by (by apply wf_keys_sorted_answers).
  pose proof Hwf as (Hs & _).
  assert (select_user d (user_id u) = Some u) as Hsel by (by apply find_key_elem).
  unfold direct. by rewrite (wf_select_user_bind _ _ _ Hwf Hsel), Hsel.
Qed.

Lemma select_answers_of_deleted d k : select_answers_of (delete_question d k) k = [].
Proof.
  unfold select_answers_of, delete_question. simpl.
  rewrite list_filter_filter. apply filter_none. intros a _ [? ?]. done.
Qed.

(** C31: GET /home is not a snapshot: on every well-formed store, for
    every question [u] that has answers, at whatever position [i] the
    first SELECT returns it, a DELETE of [u] committed after that SELECT
    and just before [u]'s answers are loaded makes GET /home list [u]
    with no answers.  The response is GET /home on neither the store
    before the deletion (where [u] has its answers) nor the store after
    it (where [u] is gone), the only two stores of the run. *)
Theorem home_not_atomic d i u :
  wf_db d -> users d !! i = Some u -> select_answers_of d (user_id u) <> [] ->
  let '(resp, d1) := home_lazy d (replicate i [] ++ [[ReqDelete (user_id u)]]) in
  d1 = (serve d (ReqDelete (user_id u))).2 /\
  resp <> (serve d ReqHome).1 /\ resp <> (serve d1 ReqHome).1.
Proof.
  intros Hwf Hi Hne. pose proof (lookup_lt_Some _ _ _ Hi) as Hlt.
  pose proof (list_elem_of_lookup_2 _ _ _ Hi) as Hu.
  pose proof (take_drop_middle _ _ _ Hi) as Hsplit.
  unfold home_lazy. rewrite render_lazy_skip by lia. rewrite (drop_S _ _ _ Hi).
  cbn [render_lazy head tail default id]. rewrite serve_all_one, render_lazy_alone.
  rewrite (serve_delete_present d u Hwf Hu).
  set (d1 := delete_question d (user_id u)). split; [done|].
  remember (take i (users d)) as pre eqn:Hpre. remember (drop (S i) (users d)) as post eqn:Hpost.
  rewrite !serve_home. split; intros [= Heq].
  - rewrite <- Hsplit, fmap_app, fmap_cons in Heq.
    apply app_inv_head in Heq as [= Hdu _].
    apply Hne. unfold dump_user in Hdu. simplify_eq. subst d1.
    rewrite select_answers_of_deleted in Hdu. by destruct (select_answers_of d (user_id u)).
  - assert (Some (user_id u, user_comment u) ∈ question_header <$>
              ((dump_user d <$> pre) ++ dump_user d1 u :: (dump_user d1 <$> post))) as Hin
      by (rewrite fmap_app, fmap_cons; apply elem_of_app; right; left).
    rewrite Heq in Hin.
    apply list_elem_of_fmap in Hin as (j & Hj & (u' & -> & Hu')%list_elem_of_fmap).
    simpl in Hj. simplify_eq. apply list_elem_of_filter in Hu' as [Hk _]. congruence.
Qed.

Lemma home_not_atomic_witness :
  wf_db sample_db /\ users sample_db !! 0%nat = Some (mk_user 1 "Is the sky blue?") /\
  select_answers_of sample_db (user_id (mk_user 1 "Is the sky blue?")) <> [] /\
  let '(resp, d1) := home_lazy sample_db (replicate 0 [] ++ [[ReqDelete (user_id (mk_user 1 "Is the sky blue?"))]]) in
  d1 = (serve sample_db (ReqDelete (user_id (mk_user 1 "Is the sky blue?")))).2 /\
  resp <> (serve sample_db ReqHome).1 /\ resp <> (serve d1 ReqHome).1.
Proof.
  assert (wf_db sample_db) as Hwf by (apply (bool_decide_unpack _); vm_compute; reflexivity).
  assert (users sample_db !! 0%nat = Some (mk_user 1 "Is the sky blue?")) as Hi by reflexivity.
  assert (select_answers_of sample_db (user_id (mk_user 1 "Is the sky blue?")) <> []) as Hne
    by (vm_compute; discriminate).
  split_and!; [exact Hwf | exact Hi | exact Hne | exact (home_not_atomic _ _ _ Hwf Hi Hne)].
Defined.
