(* ===== verification/Behaviour.v ===== *)
(** * What each route does, branch by branch

    The theorems of this file state the response and the resulting store of
    each route on each of its branches: success, not-found, a malformed or
    unexpected body, a value SQLite cannot store, a path id outside 64 bits.
    They are proved on the statement-level semantics [direct], through
    [serve_direct], on a store satisfying the invariant [wf_db]. *)

From S2P Require Import Prelude PyJson Sqlite Store Session Schema Handlers Direct Invariant.

Local Open Scope string_scope.

(** Move to the statement-level semantics and evaluate it with the facts in
    the context. *)
Ltac dsimp :=
  to_direct; unfold direct;
  repeat (progress hyp_rewrite; simpl); simpl.

(** The JSON of a question that has no answers. *)
Definition question_json (id : Z) (c : string) : json :=
  JObj [("id", JInt id); ("comment", JStr c); ("answers", JArr [])].

(** An error response: its status and no JSON payload. *)
Definition error_page (code : Z) : response := mk_response code None.

(** A store whose newest question, id 2, has an answer. *)
Definition two_questions : db :=
  mk_db [mk_user 1 "Is the sky blue?"; mk_user 2 "Why?"] [mk_answer 1 "Because" 2].

(** A freshly inserted question has no answers: no answer references an id
    above the largest one. *)
Lemma dump_new_question d us c :
  wf_db d ->
  dump_user (mk_db us (answers d)) (mk_user (max_key user_id (users d) + 1) c) =
  question_json (max_key user_id (users d) + 1) c.
Proof.
  intros Hwf. unfold dump_user, question_json. simpl.
  change (select_answers_of (mk_db us (answers d)) ?q) with (select_answers_of d q).
  by rewrite select_answers_of_absent by auto using max_key_succ_fresh with dsa.
Qed.

(** ** Creating a question *)

(** C7: POST /add with a body whose ["comment"] binds as the text [c]
    creates the question [max id + 1] with that text and no answers, answers
    it rendered, and changes nothing else. *)
Theorem add_comment_ok d b c :
  wf_db d -> post_value "comment" b = Ok c -> max_key user_id (users d) < INT64_MAX ->
  serve d (ReqAdd b) =
  (jsonify (question_json (max_key user_id (users d) + 1) c),
   mk_db (users d ++ [mk_user (max_key user_id (users d) + 1) c]) (answers d)).
Proof.
  intros Hwf Hb Hmax. pose proof (insert_user_fresh d c Hmax). dsimp.
  by rewrite dump_new_question.
Qed.

Lemma add_comment_ok_witness :
  wf_db sample_db /\ post_value "comment" (BodyJson (JObj [("comment", JStr "How?")])) = Ok "How?" /\
  max_key user_id (users sample_db) < INT64_MAX /\
  serve sample_db (ReqAdd (BodyJson (JObj [("comment", JStr "How?")]))) =
  (jsonify (question_json (max_key user_id (users sample_db) + 1) "How?"),
   mk_db (users sample_db ++ [mk_user (max_key user_id (users sample_db) + 1) "How?"])
         (answers sample_db)).
Proof.
  assert (wf_db sample_db) as Hwf by (apply (bool_decide_unpack _); vm_compute; reflexivity).
  assert (post_value "comment" (BodyJson (JObj [("comment", JStr "How?")])) = Ok "How?")
    as Hb by reflexivity.
  assert (max_key user_id (users sample_db) < INT64_MAX) as Hm by (vm_compute; reflexivity).
  split_and!; [exact Hwf | exact Hb | exact Hm | apply (add_comment_ok _ _ _ Hwf Hb Hm)].
Defined.

(** C8: Round trip through the list: after POST /add, GET /home returns the
    questions it returned before, unchanged and in the same order, followed
    by exactly the question POST /add returned. *)
Theorem home_after_add d b c :
  wf_db d -> post_value "comment" b = Ok c -> max_key user_id (users d) < INT64_MAX ->
  exists l j,
    (serve d ReqHome).1 = jsonify (JArr l) /\
    (serve d (ReqAdd b)).1 = jsonify j /\
    (serve (serve d (ReqAdd b)).2 ReqHome).1 = jsonify (JArr (l ++ [j])).
Proof.
  intros Hwf Hb Hmax. pose proof (insert_user_fresh d c Hmax).
  to_direct. unfold direct. rewrite Hb, H. simpl.
  eexists _, _. split_and!; [reflexivity | reflexivity |].
  unfold dump_users. simpl. rewrite fmap_app. simpl. by rewrite dump_new_question.
Qed.

Lemma home_after_add_witness :
  wf_db sample_db /\ post_value "comment" (BodyJson (JObj [("comment", JStr "How?")])) = Ok "How?" /\
  max_key user_id (users sample_db) < INT64_MAX /\
  exists l j,
    (serve sample_db ReqHome).1 = jsonify (JArr l) /\
    (serve sample_db (ReqAdd (BodyJson (JObj [("comment", JStr "How?")])))).1 = jsonify j /\
    (serve (serve sample_db (ReqAdd (BodyJson (JObj [("comment", JStr "How?")])))).2 ReqHome).1
    = jsonify (JArr (l ++ [j])).
Proof.
  assert (wf_db sample_db) as Hwf by (apply (bool_decide_unpack _); vm_compute; reflexivity).
  assert (post_value "comment" (BodyJson (JObj [("comment", JStr "How?")])) = Ok "How?")
    as Hb by reflexivity.
  assert (max_key user_id (users sample_db) < INT64_MAX) as Hm by (vm_compute; reflexivity).
  split_and!; [exact Hwf | exact Hb | exact Hm | apply (home_after_add _ _ _ Hwf Hb Hm)].
Defined.

(** ** Deleting a question *)

(** C5: DELETE /delete/<id> of an existing question deletes it together with
    exactly the answers whose [question_id] is [id], in one commit, and
    confirms with the id. *)
Theorem delete_comment_cascade d id u :
  wf_db d -> select_user d id = Some u ->
  serve d (ReqDelete id) = (deleted "Question deleted successfully" id, delete_question d id).
Proof. intros Hwf Hu. pose proof (wf_select_user_bind _ _ _ Hwf Hu). by dsimp. Qed.

Lemma delete_comment_cascade_witness :
  wf_db sample_db /\ select_user sample_db 1 = Some (mk_user 1 "Is the sky blue?") /\
  serve sample_db (ReqDelete 1) =
  (deleted "Question deleted successfully" 1, delete_question sample_db 1).
Proof.
  assert (wf_db sample_db) as Hwf by (apply (bool_decide_unpack _); vm_compute; reflexivity).
  assert (select_user sample_db 1 = Some (mk_user 1 "Is the sky blue?")) as Hu by reflexivity.
  split_and!; [exact Hwf | exact Hu | apply (delete_comment_cascade _ _ _ Hwf Hu)].
Defined.

(** ** Error paths leave the store as it was *)

(** C6: A request whose response is not a 200 (a 404, a 400 or 415 from the
    body, a 500 from an exception) leaves the committed store unchanged: the
    failed work is rolled back at teardown. *)
Theorem serve_error_unchanged d r :
  wf_db d -> status (serve d r).1 <> 200 -> (serve d r).2 = d.
Proof.
  intros Hwf.
  destruct r; to_direct; simpl; repeat case_match; simplify_eq; simpl; intros Hs; done.
Qed.

Lemma serve_error_unchanged_witness :
  wf_db sample_db /\ status (serve sample_db (ReqDelete 2)).1 <> 200 /\
  (serve sample_db (ReqDelete 2)).2 = sample_db.
Proof.
  assert (wf_db sample_db) as Hwf by (apply (bool_decide_unpack _); vm_compute; reflexivity).
  assert (status (serve sample_db (ReqDelete 2)).1 <> 200) as Hs by (vm_compute; discriminate).
  split_and!; [exact Hwf | exact Hs | apply (serve_error_unchanged _ _ Hwf Hs)].
Defined.

(** ** Ids that are not in the table *)

(** C15: A path id in 64-bit range that names no question gives 404
    "Question not found" on DELETE /delete, PATCH /update and
    POST /add_answer, whatever the body (the lookup comes before the body is
    read), and creates, changes or deletes nothing. *)
Theorem missing_question_404 d q b :
  INT64_MIN <= q <= INT64_MAX -> select_user d q = None ->
  serve d (ReqDelete q) = (not_found "Question not found", d) /\
  serve d (ReqUpdate q b) = (not_found "Question not found", d) /\
  serve d (ReqAddAnswer q b) = (not_found "Question not found", d).
Proof. intros Hq Hs. pose proof (bind_int_param_ok q Hq). split_and!; by hsimp. Qed.

Lemma missing_question_404_witness :
  INT64_MIN <= 2 <= INT64_MAX /\ select_user sample_db 2 = None /\
  serve sample_db (ReqDelete 2) = (not_found "Question not found", sample_db) /\
  serve sample_db (ReqUpdate 2 BodyInvalid) = (not_found "Question not found", sample_db) /\
  serve sample_db (ReqAddAnswer 2 BodyInvalid) = (not_found "Question not found", sample_db).
Proof.
  assert (INT64_MIN <= 2 <= INT64_MAX) as Hq by (unfold INT64_MIN, INT64_MAX; lia).
  assert (select_user sample_db 2 = None) as Hs by reflexivity.
  exact (conj Hq (conj Hs (missing_question_404 sample_db 2 BodyInvalid Hq Hs))).
Defined.

(** C16: The answer routes give 404 "Answer not found" for an id in range
    that names no answer, whatever the body, and change nothing. *)
Theorem missing_answer_404 d id b :
  INT64_MIN <= id <= INT64_MAX -> select_answer d id = None ->
  serve d (ReqDeleteAnswer id) = (not_found "Answer not found", d) /\
  serve d (ReqUpdateAnswer id b) = (not_found "Answer not found", d).
Proof. intros Hq Hs. pose proof (bind_int_param_ok id Hq). split; by hsimp. Qed.

Lemma missing_answer_404_witness :
  INT64_MIN <= 3 <= INT64_MAX /\ select_answer sample_db 3 = None /\
  serve sample_db (ReqDeleteAnswer 3) = (not_found "Answer not found", sample_db) /\
  serve sample_db (ReqUpdateAnswer 3 BodyNotJson) = (not_found "Answer not found", sample_db).
Proof.
  assert (INT64_MIN <= 3 <= INT64_MAX) as Hq by (unfold INT64_MIN, INT64_MAX; lia).
  assert (select_answer sample_db 3 = None) as Hs by reflexivity.
  exact (conj Hq (conj Hs (missing_answer_404 sample_db 3 BodyNotJson Hq Hs))).
Defined.

(** ** Answers *)

(** C17: POST /add_answer/<q> on an existing question, with a body whose
    ["answer"] binds as [t], appends the answer [max answer id + 1] under
    [q] and answers it rendered. *)
Theorem add_answer_ok d q u b t :
  wf_db d -> select_user d q = Some u -> post_value "answer" b = Ok t ->
  max_key answer_id (answers d) < INT64_MAX ->
  serve d (ReqAddAnswer q b) =
  (jsonify (JObj [("id", JInt (max_key answer_id (answers d) + 1)); ("answer", JStr t);
                  ("question_id", JInt q)]),
   mk_db (users d) (answers d ++ [mk_answer (max_key answer_id (answers d) + 1) t q])).
Proof.
  intros Hwf Hu Hb Hmax. pose proof (wf_select_user_bind _ _ _ Hwf Hu).
  pose proof (insert_answer_fresh d t q Hmax). by dsimp.
Qed.

Lemma add_answer_ok_witness :
  wf_db sample_db /\ select_user sample_db 3 = Some (mk_user 3 "Why?") /\
  post_value "answer" (BodyJson (JObj [("answer", JStr "Rayleigh")])) = Ok "Rayleigh" /\
  max_key answer_id (answers sample_db) < INT64_MAX /\
  serve sample_db (ReqAddAnswer 3 (BodyJson (JObj [("answer", JStr "Rayleigh")]))) =
  (jsonify (JObj [("id", JInt (max_key answer_id (answers sample_db) + 1));
                  ("answer", JStr "Rayleigh"); ("question_id", JInt 3)]),
   mk_db (users sample_db)
         (answers sample_db ++ [mk_answer (max_key answer_id (answers sample_db) + 1) "Rayleigh" 3])).
Proof.
  assert (wf_db sample_db) as Hwf by (apply (bool_decide_unpack _); vm_compute; reflexivity).
  assert (select_user sample_db 3 = Some (mk_user 3 "Why?")) as Hu by reflexivity.
  assert (post_value "answer" (BodyJson (JObj [("answer", JStr "Rayleigh")])) = Ok "Rayleigh")
    as Hb by reflexivity.
  assert (max_key answer_id (answers sample_db) < INT64_MAX) as Hm by (vm_compute; reflexivity).
  split_and!; [exact Hwf | exact Hu | exact Hb | exact Hm | apply (add_answer_ok _ _ _ _ _ Hwf Hu Hb Hm)].
Defined.

(** C18: DELETE /delete_answer/<id> of an existing answer deletes that row
    only and confirms with the id. *)
Theorem delete_answer_ok d id a :
  wf_db d -> select_answer d id = Some a ->
  serve d (ReqDeleteAnswer id) = (deleted "Answer deleted successfully" id, delete_answer_row d id).
Proof. intros Hwf Ha. pose proof (wf_select_answer_bind _ _ _ Hwf Ha). by dsimp. Qed.

Lemma delete_answer_ok_witness :
  wf_db sample_db /\ select_answer sample_db 2 = Some (mk_answer 2 "Because" 3) /\
  serve sample_db (ReqDeleteAnswer 2) =
  (deleted "Answer deleted successfully" 2, delete_answer_row sample_db 2).
Proof.
  assert (wf_db sample_db) as Hwf by (apply (bool_decide_unpack _); vm_compute; reflexivity).
  assert (select_answer sample_db 2 = Some (mk_answer 2 "Because" 3)) as Ha by reflexivity.
  split_and!; [exact Hwf | exact Ha | apply (delete_answer_ok _ _ _ Hwf Ha)].
Defined.

(** C19: PATCH /update_answer/<id> with a body whose ["answer"] binds as
    [t] changes that answer's text only, keeping its id and its question. *)
Theorem update_answer_ok d id a b t :
  wf_db d -> select_answer d id = Some a -> patch_value "answer" b = Ok (Some t) ->
  serve d (ReqUpdateAnswer id b) =
  (jsonify (JObj [("id", JInt id); ("answer", JStr t); ("question_id", JInt (answer_qid a))]),
   update_answer_text d id t).
Proof. intros Hwf Ha Hb. pose proof (wf_select_answer_bind _ _ _ Hwf Ha). by dsimp. Qed.

Lemma update_answer_ok_witness :
  wf_db sample_db /\ select_answer sample_db 4 = Some (mk_answer 4 "No" 1) /\
  patch_value "answer" (BodyJson (JObj [("answer", JStr "Yes")])) = Ok (Some "Yes") /\
  serve sample_db (ReqUpdateAnswer 4 (BodyJson (JObj [("answer", JStr "Yes")]))) =
  (jsonify (JObj [("id", JInt 4); ("answer", JStr "Yes"); ("question_id", JInt 1)]),
   update_answer_text sample_db 4 "Yes").
Proof.
  assert (wf_db sample_db) as Hwf by (apply (bool_decide_unpack _); vm_compute; reflexivity).
  assert (select_answer sample_db 4 = Some (mk_answer 4 "No" 1)) as Ha by reflexivity.
  assert (patch_value "answer" (BodyJson (JObj [("answer", JStr "Yes")])) = Ok (Some "Yes"))
    as Hb by reflexivity.
  split_and!; [exact Hwf | exact Ha | exact Hb | apply (update_answer_ok _ _ _ _ _ Hwf Ha Hb)].
Defined.

(** ** Updating a question *)

(** C20: PATCH /update/<id> with a body whose ["comment"] binds as [c]
    changes that question's text only: the response renders it with the
    same id and the same answers as before. *)
Theorem update_comment_ok d id u b c :
  wf_db d -> select_user d id = Some u -> patch_value "comment" b = Ok (Some c) ->
  serve d (ReqUpdate id b) = (jsonify (dump_user d (mk_user id c)), update_user_comment d id c).
Proof. intros Hwf Hu Hb. pose proof (wf_select_user_bind _ _ _ Hwf Hu). by dsimp. Qed.

Lemma update_comment_ok_witness :
  wf_db sample_db /\ select_user sample_db 1 = Some (mk_user 1 "Is the sky blue?") /\
  patch_value "comment" (BodyJson (JObj [("comment", JStr "Is it?")])) = Ok (Some "Is it?") /\
  serve sample_db (ReqUpdate 1 (BodyJson (JObj [("comment", JStr "Is it?")]))) =
  (jsonify (dump_user sample_db (mk_user 1 "Is it?")), update_user_comment sample_db 1 "Is it?").
Proof.
  assert (wf_db sample_db) as Hwf by (apply (bool_decide_unpack _); vm_compute; reflexivity).
  assert (select_user sample_db 1 = Some (mk_user 1 "Is the sky blue?")) as Hu by reflexivity.
  assert (patch_value "comment" (BodyJson (JObj [("comment", JStr "Is it?")])) = Ok (Some "Is it?"))
    as Hb by reflexivity.
  split_and!; [exact Hwf | exact Hu | exact Hb | apply (update_comment_ok _ _ _ _ _ Hwf Hu Hb)].
Defined.

(** Whatever its body, PATCH /update/<id> keeps the set of question
    ids and the whole answer table: a question keeps its id and its
    answers. *)
Theorem update_comment_frame d id b :
  wf_db d ->
  keys user_id (users (serve d (ReqUpdate id b)).2) = keys user_id (users d) /\
  answers (serve d (ReqUpdate id b)).2 = answers d.
Proof.
  intros Hwf. to_direct. simpl.
  repeat case_match; simpl; split; try done. by apply keys_update.
Qed.

(** C21: A PATCH body without the field (a dict without the key, a list
    without the string, a string without the substring) is accepted: the
    question is returned unchanged with 200 and the store is not modified. *)
Theorem update_comment_absent_noop d id u b :
  wf_db d -> select_user d id = Some u -> patch_value "comment" b = Ok None ->
  serve d (ReqUpdate id b) = (jsonify (dump_user d u), d).
Proof. intros Hwf Hu Hb. pose proof (wf_select_user_bind _ _ _ Hwf Hu). by dsimp. Qed.

Lemma update_comment_absent_noop_witness :
  wf_db sample_db /\ select_user sample_db 3 = Some (mk_user 3 "Why?") /\
  patch_value "comment" (BodyJson (JArr [])) = Ok None /\
  serve sample_db (ReqUpdate 3 (BodyJson (JArr []))) =
  (jsonify (dump_user sample_db (mk_user 3 "Why?")), sample_db).
Proof.
  assert (wf_db sample_db) as Hwf by (apply (bool_decide_unpack _); vm_compute; reflexivity).
  assert (select_user sample_db 3 = Some (mk_user 3 "Why?")) as Hu by reflexivity.
  assert (patch_value "comment" (BodyJson (JArr [])) = Ok None) as Hb by reflexivity.
  split_and!; [exact Hwf | exact Hu | exact Hb | apply (update_comment_absent_noop _ _ _ _ Hwf Hu Hb)].
Defined.

(** C22: A PATCH /update body that is a JSON string is tested with Python's
    substring [in]: if it contains "comment" the handler then indexes the
    string with a string and fails with 500; otherwise it returns the
    question unchanged with 200. *)
Theorem update_with_string_body d id u s :
  wf_db d -> select_user d id = Some u ->
  serve d (ReqUpdate id (BodyJson (JStr s))) =
  if str_contains "comment" s then (error_page 500, d) else (jsonify (dump_user d u), d).
Proof.
  intros Hwf Hu. pose proof (wf_select_user_bind _ _ _ Hwf Hu). dsimp.
  unfold patch_value. simpl. by destruct (str_contains "comment" s).
Qed.

Lemma update_with_string_body_witness :
  wf_db sample_db /\ select_user sample_db 3 = Some (mk_user 3 "Why?") /\
  serve sample_db (ReqUpdate 3 (BodyJson (JStr "no comment"))) =
  if str_contains "comment" "no comment" then (error_page 500, sample_db)
  else (jsonify (dump_user sample_db (mk_user 3 "Why?")), sample_db).
Proof.
  assert (wf_db sample_db) as Hwf by (apply (bool_decide_unpack _); vm_compute; reflexivity).
  assert (select_user sample_db 3 = Some (mk_user 3 "Why?")) as Hu by reflexivity.
  split_and!; [exact Hwf | exact Hu | apply (update_with_string_body _ _ _ _ Hwf Hu)].
Defined.

(** ** After a cascade, the deleted answers are gone *)

Lemma select_answer_delete_question d q a :
  keys_sorted answer_id (answers d) -> a ∈ answers d -> answer_qid a = q ->
  select_answer (delete_question d q) (answer_id a) = None.
Proof.
  intros Hs Ha Hq. unfold select_answer, delete_question. simpl.
  apply find_key_None. intros (a' & Hk & [Hne Ha']%list_elem_of_filter)%list_elem_of_fmap.
  rewrite (keys_sorted_inj answer_id _ a a' Hs Ha Ha' Hk) in Hq. by apply Hne.
Qed.

Lemma wf_answer_in_range d a :
  wf_db d -> a ∈ answers d -> INT64_MIN <= answer_id a <= INT64_MAX.
Proof.
  intros (_ & _ & _ & Hr & _) Ha. unfold rowids_in_range in Hr. rewrite Forall_forall in Hr.
  assert (1 <= answer_id a <= INT64_MAX) by (apply Hr, list_elem_of_fmap_2, Ha).
  unfold INT64_MIN. lia.
Qed.

(** After DELETE /delete/<q>, every answer that belonged to [q] is
    gone: PATCH /update_answer and DELETE /delete_answer on its id answer
    404 "Answer not found" and change nothing. *)
Theorem answers_gone_after_delete d q u a b :
  wf_db d -> select_user d q = Some u -> a ∈ answers d -> answer_qid a = q ->
  let d' := (serve d (ReqDelete q)).2 in
  serve d' (ReqUpdateAnswer (answer_id a) b) = (not_found "Answer not found", d') /\
  serve d' (ReqDeleteAnswer (answer_id a)) = (not_found "Answer not found", d').
Proof.
  intros Hwf Hu Ha Hq. pose proof (wf_select_user_bind _ _ _ Hwf Hu).
  pose proof (bind_int_param_ok _ (wf_answer_in_range d a Hwf Ha)).
  pose proof (select_answer_delete_question d q a (wf_keys_sorted_answers d Hwf) Ha Hq).
  by split; dsimp.
Qed.

(** ** Ids beyond 64 bits *)

(** C23: A path id above 2^63-1 (which Flask's int converter accepts) makes
    sqlite3 raise OverflowError when the id is bound in the lookup: every
    route with an id answers 500 instead of 404, and nothing changes. *)
Theorem path_id_overflow d id b :
  INT64_MAX < id ->
  serve d (ReqDelete id) = (error_page 500, d) /\
  serve d (ReqUpdate id b) = (error_page 500, d) /\
  serve d (ReqAddAnswer id b) = (error_page 500, d) /\
  serve d (ReqDeleteAnswer id) = (error_page 500, d) /\
  serve d (ReqUpdateAnswer id b) = (error_page 500, d).
Proof. intros H. pose proof (bind_int_param_overflow id H). split_and!; by hsimp. Qed.

Lemma path_id_overflow_witness :
  INT64_MAX < 2 ^ 63 /\
  serve sample_db (ReqDelete (2 ^ 63)) = (error_page 500, sample_db) /\
  serve sample_db (ReqUpdate (2 ^ 63) BodyInvalid) = (error_page 500, sample_db) /\
  serve sample_db (ReqAddAnswer (2 ^ 63) BodyInvalid) = (error_page 500, sample_db) /\
  serve sample_db (ReqDeleteAnswer (2 ^ 63)) = (error_page 500, sample_db) /\
  serve sample_db (ReqUpdateAnswer (2 ^ 63) BodyInvalid) = (error_page 500, sample_db).
Proof.
  assert (INT64_MAX < 2 ^ 63) as H by (unfold INT64_MAX; lia).
  exact (conj H (path_id_overflow sample_db (2 ^ 63) BodyInvalid H)).
Defined.

(** ** A body without the required field *)

(** C24: POST /add with a JSON object that has no "comment" key raises
    KeyError in [data['comment']]: the answer is a 500 server error, not a
    client error, and nothing is created. *)
Theorem add_missing_field_500 d kvs :
  dict_lookup "comment" kvs = None ->
  serve d (ReqAdd (BodyJson (JObj kvs))) = (error_page 500, d).
Proof. intros H. by hsimp. Qed.

Lemma add_missing_field_500_witness :
  dict_lookup "comment" [("text", JStr "Is the sky blue?")] = None /\
  serve sample_db (ReqAdd (BodyJson (JObj [("text", JStr "Is the sky blue?")]))) =
  (error_page 500, sample_db).
Proof.
  assert (dict_lookup "comment" [("text", JStr "Is the sky blue?")] = None) as H by reflexivity.
  exact (conj H (add_missing_field_500 sample_db _ H)).
Defined.

(** ** Ids after a deletion

    The ids are SQLite rowids without AUTOINCREMENT (lines 21 and 29),
    allocated as one more than the largest rowid in the table, so deleting
    the newest question frees its id for the next one. *)

(** C10: When the newest question is deleted and a question is then added,
    the new question gets the deleted question's id (if no rowid between
    them was skipped): ids are reused. *)
Theorem id_reused_after_delete d (us : list user_row) u b c :
  wf_db d -> users d = (us ++ [u])%list -> user_id u = max_key user_id us + 1 ->
  post_value "comment" b = Ok c ->
  (serve (serve d (ReqDelete (user_id u))).2 (ReqAdd b)).1 =
  jsonify (question_json (user_id u) c).
Proof.
  intros Hwf Hus Hid Hb.
  assert (keys_sorted user_id (us ++ [u])%list) as Hs by (rewrite <-Hus; apply Hwf).
  assert (select_user d (user_id u) = Some u) as Hsel.
  { unfold select_user. rewrite Hus. apply find_key_elem; [done|].
    apply elem_of_app. right. by apply list_elem_of_singleton. }
  pose proof (wf_select_user_bind _ _ _ Hwf Hsel).
  pose proof (wf_delete_question d (user_id u) Hwf) as Hwf1.
  assert (users (delete_question d (user_id u)) = us) as Hus1.
  { simpl. rewrite Hus. by apply delete_key_last. }
  assert (max_key user_id us < INT64_MAX) as Hmax.
  { destruct Hwf as (_ & _ & Hr & _). unfold rowids_in_range in Hr. rewrite Hus in Hr.
    rewrite Forall_forall in Hr.
    assert (1 <= user_id u <= INT64_MAX)
      by (apply Hr, list_elem_of_fmap_2, elem_of_app; right; by apply list_elem_of_singleton).
    lia. }
  to_direct. unfold direct. rewrite H, Hsel. simpl. rewrite Hb.
  rewrite insert_user_fresh by (by rewrite Hus1). rewrite Hus1, <-Hid.
  simpl. f_equal.
  pose proof (dump_new_question (delete_question d (user_id u))
                (us ++ [mk_user (user_id u) c])%list c Hwf1) as Hd.
  rewrite Hus1, <-Hid in Hd. exact Hd.
Qed.

Lemma id_reused_after_delete_witness :
  wf_db two_questions /\
  users two_questions = ([mk_user 1 "Is the sky blue?"] ++ [mk_user 2 "Why?"])%list /\
  user_id (mk_user 2 "Why?") = max_key user_id [mk_user 1 "Is the sky blue?"] + 1 /\
  post_value "comment" (BodyJson (JObj [("comment", JStr "New")])) = Ok "New" /\
  (serve (serve two_questions (ReqDelete (user_id (mk_user 2 "Why?")))).2
         (ReqAdd (BodyJson (JObj [("comment", JStr "New")])))).1 =
  jsonify (question_json (user_id (mk_user 2 "Why?")) "New").
Proof.
  assert (wf_db two_questions) as Hwf by (apply (bool_decide_unpack _); vm_compute; reflexivity).
  assert (users two_questions = ([mk_user 1 "Is the sky blue?"] ++ [mk_user 2 "Why?"])%list)
    as Hus by reflexivity.
  assert (user_id (mk_user 2 "Why?") = max_key user_id [mk_user 1 "Is the sky blue?"] + 1)
    as Hid by reflexivity.
  assert (post_value "comment" (BodyJson (JObj [("comment", JStr "New")])) = Ok "New")
    as Hb by reflexivity.
  split_and!; [exact Hwf | exact Hus | exact Hid | exact Hb |].
  exact (id_reused_after_delete _ _ _ _ _ Hwf Hus Hid Hb).
Defined.
