(* ===== verification/Ownership.v ===== *)
(** * The ownership contract of the specification, as an abstract model

    Section 3 of the specification describes the data as questions that
    exclusively own an ordered collection of answers: deleting a question
    deletes its answers, every answer has exactly one owning question, ids
    are unique and system-generated.  [astore] is that nested model: a list
    of questions in creation order, each with its list of answers in
    creation order.  There are no foreign keys in it, so there are no
    orphans to speak of.

    [astep s r resp s'] is the contract of the seven operations (section
    4.3) on the nested model: which response request [r] may give and what
    the store becomes.  It leaves the choice of a new id open (any id in use
    by no entity of the kind), and it admits the failures the code has and
    the specification accepts as storage failures: a path id that does not
    fit the 64-bit key column, a value the column rejects, an exhausted id
    space.  Request bodies are read as the code reads them ([post_value],
    [patch_value] of [Direct]).  [Refinement] shows that the two-table
    implementation satisfies this contract.

    The contract departs from the specification at two points, where the
    code does: a new id need only be unused now, so the id of a deleted
    entity may come back (the specification says ids are never reused;
    [id_reused_after_delete] proves the code reuses them), and a body
    without the required field may fail with any exception (the
    specification wants a client error; [add_missing_field_500] proves the
    code answers 500).  Everything else of section 4.3 is kept. *)

From S2P Require Import Prelude PyJson Sqlite Schema Handlers Direct.

Local Open Scope string_scope.

Record aquestion : Type := mk_aq {
  aq_id : Z;
  aq_comment : string;
  aq_answers : list (Z * string)
}.

Definition astore : Type := list aquestion.

#[export] Instance aquestion_eq_dec : EqDecision aquestion.
Proof. solve_decision. Defined.

Definition question_ids (s : astore) : list Z := aq_id <$> s.

Definition answer_ids (s : astore) : list Z := s ≫= (fun q => fst <$> aq_answers q).

(** Looking an entity up by id; an answer is found with its text and its
    owner's id. *)
Definition a_find_q (s : astore) (id : Z) : option aquestion := find_key aq_id id s.

Fixpoint a_find_a (s : astore) (id : Z) : option (string * Z) :=
  match s with
  | [] => None
  | q :: s' =>
      match find_key fst id (aq_answers q) with
      | Some p => Some (p.2, aq_id q)
      | None => a_find_a s' id
      end
  end.

(** The wire representation of section 4.2. *)
Definition render_answer (id : Z) (t : string) (qid : Z) : json :=
  JObj [("id", JInt id); ("answer", JStr t); ("question_id", JInt qid)].

Definition render_question (q : aquestion) : json :=
  JObj [("id", JInt (aq_id q)); ("comment", JStr (aq_comment q));
        ("answers", JArr ((fun p => render_answer p.1 p.2 (aq_id q)) <$> aq_answers q))].

(** The operations on the nested model. *)
Definition a_add_question (s : astore) (id : Z) (c : string) : astore :=
  (s ++ [mk_aq id c []])%list.

Definition a_set_comment (s : astore) (id : Z) (c : string) : astore :=
  update_key aq_id id (fun q => mk_aq (aq_id q) c (aq_answers q)) s.

Definition a_delete_question (s : astore) (id : Z) : astore := delete_key aq_id id s.

Definition a_add_answer (s : astore) (qid aid : Z) (t : string) : astore :=
  update_key aq_id qid
    (fun q => mk_aq (aq_id q) (aq_comment q) (aq_answers q ++ [(aid, t)])%list) s.

Definition a_map_answers (f : list (Z * string) -> list (Z * string)) (s : astore) : astore :=
  (fun q => mk_aq (aq_id q) (aq_comment q) (f (aq_answers q))) <$> s.

Definition a_set_answer (s : astore) (aid : Z) (t : string) : astore :=
  a_map_answers (update_key fst aid (fun p => (p.1, t))) s.

Definition a_delete_answer (s : astore) (aid : Z) : astore :=
  a_map_answers (delete_key fst aid) s.

(** An id that no entity of the kind uses, in the range of the key column. *)
Definition fresh_id (ids : list Z) (id : Z) : Prop := (id ∉ ids) /\ 1 <= id <= INT64_MAX.

Definition in_range (id : Z) : Prop := INT64_MIN <= id <= INT64_MAX.

(** The path ids of the question routes and of the answer routes. *)
Definition question_path (r : request) : option Z :=
  match r with
  | ReqDelete id | ReqUpdate id _ | ReqAddAnswer id _ => Some id
  | _ => None
  end.

Definition answer_path (r : request) : option Z :=
  match r with
  | ReqDeleteAnswer id | ReqUpdateAnswer id _ => Some id
  | _ => None
  end.

Definition path_id (r : request) : option Z :=
  match question_path r with Some id => Some id | None => answer_path r end.

Inductive astep (s : astore) : request -> response -> astore -> Prop :=
| as_add b c id :
    post_value "comment" b = Ok c -> fresh_id (question_ids s) id ->
    astep s (ReqAdd b) (jsonify (render_question (mk_aq id c []))) (a_add_question s id c)
| as_add_full b c :
    post_value "comment" b = Ok c -> INT64_MAX ∈ question_ids s ->
    astep s (ReqAdd b) (error_response OperationalError) s
| as_add_bad b e :
    post_value "comment" b = Raise e -> astep s (ReqAdd b) (error_response e) s
| as_home :
    astep s ReqHome (jsonify (JArr (render_question <$> s))) s
| as_bad_path r id :
    path_id r = Some id -> ~ in_range id -> astep s r (error_response OverflowError) s
| as_question_missing r id :
    question_path r = Some id -> in_range id -> a_find_q s id = None ->
    astep s r (not_found "Question not found") s
| as_delete id q :
    in_range id -> a_find_q s id = Some q ->
    astep s (ReqDelete id) (deleted "Question deleted successfully" id) (a_delete_question s id)
| as_update id q b c :
    in_range id -> a_find_q s id = Some q -> patch_value "comment" b = Ok (Some c) ->
    astep s (ReqUpdate id b) (jsonify (render_question (mk_aq id c (aq_answers q))))
          (a_set_comment s id c)
| as_update_keep id q b :
    in_range id -> a_find_q s id = Some q -> patch_value "comment" b = Ok None ->
    astep s (ReqUpdate id b) (jsonify (render_question q)) s
| as_update_bad id q b e :
    in_range id -> a_find_q s id = Some q -> patch_value "comment" b = Raise e ->
    astep s (ReqUpdate id b) (error_response e) s
| as_add_answer qid q b t aid :
    in_range qid -> a_find_q s qid = Some q -> post_value "answer" b = Ok t ->
    fresh_id (answer_ids s) aid ->
    astep s (ReqAddAnswer qid b) (jsonify (render_answer aid t qid)) (a_add_answer s qid aid t)
| as_add_answer_full qid q b t :
    in_range qid -> a_find_q s qid = Some q -> post_value "answer" b = Ok t ->
    INT64_MAX ∈ answer_ids s ->
    astep s (ReqAddAnswer qid b) (error_response OperationalError) s
| as_add_answer_bad qid q b e :
    in_range qid -> a_find_q s qid = Some q -> post_value "answer" b = Raise e ->
    astep s (ReqAddAnswer qid b) (error_response e) s
| as_answer_missing r id :
    answer_path r = Some id -> in_range id -> a_find_a s id = None ->
    astep s r (not_found "Answer not found") s
| as_delete_answer id t qid :
    in_range id -> a_find_a s id = Some (t, qid) ->
    astep s (ReqDeleteAnswer id) (deleted "Answer deleted successfully" id) (a_delete_answer s id)
| as_update_answer id t qid b t' :
    in_range id -> a_find_a s id = Some (t, qid) -> patch_value "answer" b = Ok (Some t') ->
    astep s (ReqUpdateAnswer id b) (jsonify (render_answer id t' qid)) (a_set_answer s id t')
| as_update_answer_keep id t qid b :
    in_range id -> a_find_a s id = Some (t, qid) -> patch_value "answer" b = Ok None ->
    astep s (ReqUpdateAnswer id b) (jsonify (render_answer id t qid)) s
| as_update_answer_bad id t qid b e :
    in_range id -> a_find_a s id = Some (t, qid) -> patch_value "answer" b = Raise e ->
    astep s (ReqUpdateAnswer id b) (error_response e) s.

(** The stores the contract reaches from an empty store. *)
Inductive areach : astore -> Prop :=
| areach_nil : areach []
| areach_step s r resp s' : areach s -> astep s r resp s' -> areach s'.

(** ** The invariant of the nested model

    The ids of each kind are pairwise distinct and positive 64-bit values. *)
Definition ids_ok (l : list Z) : Prop := NoDup l /\ Forall (fun k => 1 <= k <= INT64_MAX) l.

Definition a_wf (s : astore) : Prop := ids_ok (question_ids s) /\ ids_ok (answer_ids s).

#[export] Instance a_wf_dec s : Decision (a_wf s).
Proof. unfold a_wf, ids_ok. apply _. Defined.

(** A question with two answers, to exercise the contract. *)
Definition one_question : astore := [mk_aq 1 "Is the sky blue?" [(1, "Yes"); (2, "No")]].

Lemma ids_ok_sublist l1 l2 : l1 `sublist_of` l2 -> ids_ok l2 -> ids_ok l1.
Proof.
  intros Hs [Hnd Hr]. split; [by eapply sublist_NoDup|].
  rewrite Forall_forall in *. intros k Hk. apply Hr. by eapply elem_of_sublist.
Qed.

Lemma ids_ok_perm l1 l2 : l1 ≡ₚ l2 -> ids_ok l2 -> ids_ok l1.
Proof.
  intros Hp [Hnd Hr]. split; [by rewrite Hp|].
  rewrite Forall_forall in *. intros k. rewrite Hp. apply Hr.
Qed.

Lemma ids_ok_snoc l k : ids_ok l -> fresh_id l k -> ids_ok (l ++ [k])%list.
Proof.
  intros [Hnd Hr] [Hk Hkr]. split.
  - apply NoDup_app. split_and!; [done| |apply NoDup_singleton].
    intros x Hx Hx'%list_elem_of_singleton. by subst.
  - apply Forall_app. split; [done | by apply Forall_singleton].
Qed.

(** How the operations act on the ids. *)
Lemma answer_ids_map f s :
  answer_ids (a_map_answers f s) = s ≫= (fun q => fst <$> f (aq_answers q)).
Proof. unfold answer_ids, a_map_answers. by rewrite list_fmap_bind. Qed.

Lemma bind_sublist_pointwise {A B} (f g : A -> list B) (l : list A) :
  (forall x, f x `sublist_of` g x) -> l ≫= f `sublist_of` l ≫= g.
Proof. intros H. induction l as [|x l IH]; simpl; [done|]. by apply sublist_app. Qed.

Lemma bind_filter_sublist {A B} (P : A -> Prop) `{!forall x, Decision (P x)} (f : A -> list B) l :
  filter P l ≫= f `sublist_of` l ≫= f.
Proof.
  induction l as [|x l IH]; [done|]. rewrite filter_cons.
  case_decide; simpl; [by apply sublist_app | by apply sublist_inserts_l].
Qed.

Lemma answer_ids_update_key k f s :
  (forall q, aq_answers (f q) = aq_answers q) -> answer_ids (update_key aq_id k f s) = answer_ids s.
Proof.
  intros Hf. induction s as [|q s IH]; [done|]. unfold answer_ids, update_key in *.
  rewrite fmap_cons, !bind_cons, IH. by case_decide; [rewrite Hf|].
Qed.

Lemma answer_ids_add s qid aid t :
  NoDup (question_ids s) -> qid ∈ question_ids s ->
  answer_ids (a_add_answer s qid aid t) ≡ₚ (answer_ids s ++ [aid])%list.
Proof.
  induction s as [|q s IH]; intros Hnd Hin; [by apply not_elem_of_nil in Hin|].
  unfold question_ids in *. rewrite fmap_cons in Hnd, Hin.
  apply NoDup_cons in Hnd as [Hq Hnd]. unfold a_add_answer, answer_ids in *. simpl.
  case_decide as Heq; simpl.
  - subst. rewrite update_key_absent by done. rewrite fmap_app. solve_Permutation.
  - apply elem_of_cons in Hin as [->|Hin]; [done|].
    rewrite IH by done. solve_Permutation.
Qed.

Lemma question_ids_update_key k f s :
  (forall q, aq_id (f q) = aq_id q) -> question_ids (update_key aq_id k f s) = question_ids s.
Proof. apply keys_update. Qed.

Lemma question_ids_map f s : question_ids (a_map_answers f s) = question_ids s.
Proof. unfold question_ids, a_map_answers. rewrite <-list_fmap_compose. done. Qed.

Lemma fmap_filter_sublist {A B} (g : A -> B) (P : A -> Prop) `{!forall x, Decision (P x)} l :
  g <$> filter P l `sublist_of` g <$> l.
Proof.
  induction l as [|x l IH]; [done|]. rewrite filter_cons.
  case_decide; simpl; [by apply sublist_skip | by apply sublist_cons].
Qed.

Lemma answer_ids_map_sublist f s :
  (forall l, fst <$> f l `sublist_of` fst <$> l) ->
  answer_ids (a_map_answers f s) `sublist_of` answer_ids s.
Proof. intros Hf. rewrite answer_ids_map. apply bind_sublist_pointwise. intros q. apply Hf. Qed.

Lemma answer_ids_map_eq f s :
  (forall l, fst <$> f l = fst <$> l) -> answer_ids (a_map_answers f s) = answer_ids s.
Proof.
  intros Hf. rewrite answer_ids_map. unfold answer_ids.
  induction s as [|q s IH]; [done|]. by rewrite !bind_cons, Hf, IH.
Qed.

Lemma fst_delete_key_sublist aid (l : list (Z * string)) :
  fst <$> delete_key fst aid l `sublist_of` fst <$> l.
Proof. apply fmap_filter_sublist. Qed.

Lemma fst_update_key aid t (l : list (Z * string)) :
  fst <$> update_key fst aid (fun p => (p.1, t)) l = fst <$> l.
Proof. by apply keys_update. Qed.

Lemma a_find_q_elem s id q : a_find_q s id = Some q -> id ∈ question_ids s.
Proof. intros [Hq <-]%find_key_Some. by apply list_elem_of_fmap_2. Qed.

(** The contract keeps the nested model well formed: if the question
    ids and the answer ids are each distinct and in [1, 2^63-1], they stay
    so after any step the contract allows. *)
Theorem astep_wf s r resp s' : a_wf s -> astep s r resp s' -> a_wf s'.
Proof.
  intros [Hq Ha] Hstep. destruct Hstep; try by split.
  - split; [unfold a_add_question, question_ids; rewrite fmap_app; by apply ids_ok_snoc|].
    unfold a_add_question, answer_ids. rewrite bind_app. simpl. by rewrite !app_nil_r.
  - split; eapply ids_ok_sublist; eauto using fmap_filter_sublist, bind_filter_sublist.
  - unfold a_set_comment. split; [by rewrite question_ids_update_key|].
    by rewrite answer_ids_update_key.
  - unfold a_add_answer. split; [by rewrite question_ids_update_key|].
    eapply ids_ok_perm; [apply answer_ids_add; [apply Hq | by eapply a_find_q_elem]|].
    by apply ids_ok_snoc.
  - unfold a_delete_answer. split; [by rewrite question_ids_map|].
    eapply ids_ok_sublist; [apply answer_ids_map_sublist, fst_delete_key_sublist | done].
  - unfold a_set_answer. split; [by rewrite question_ids_map|].
    rewrite answer_ids_map_eq; [done | apply fst_update_key].
Qed.

Lemma astep_wf_witness :
  a_wf one_question /\
  astep one_question (ReqDeleteAnswer 2) (deleted "Answer deleted successfully" 2)
        (a_delete_answer one_question 2) /\
  a_wf (a_delete_answer one_question 2).
Proof.
  assert (a_wf one_question) as Hwf by (apply (bool_decide_unpack _); vm_compute; reflexivity).
  assert (astep one_question (ReqDeleteAnswer 2) (deleted "Answer deleted successfully" 2)
            (a_delete_answer one_question 2)) as Hs
    by (apply (as_delete_answer _ 2 "No" 1); [unfold in_range, INT64_MIN, INT64_MAX; lia
                                             | reflexivity]).
  exact (conj Hwf (conj Hs (astep_wf _ _ _ _ Hwf Hs))).
Defined.
