(* ===== verification/Refinement.v ===== *)
(** * The two tables implement the ownership contract

    [abs d] reads the nested model of [Ownership] off the two tables: each
    question row with the answers whose [question_id] is its id, in rowid
    order (the lazy load of [User.answers], line 23).  The lemmas below show
    how [abs] commutes with the lookups, the rendering and each statement of
    [Store]; the theorems show that the store invariant [wf_db] maps to a
    well-formed nested model and that every request served by the handlers
    is a step the contract allows: a forward simulation of [serve] by
    [astep] through [abs_opt], which is defined only on stores whose every
    answer row has its question, so that a request leaving an orphan row
    behind is not a step of the contract. *)

From S2P Require Import Prelude PyJson Sqlite Store Session Schema Handlers Direct Invariant Ownership.

Local Open Scope string_scope.

Definition abs_answer (a : answer_row) : Z * string := (answer_id a, answer_text a).

Definition abs_question (d : db) (u : user_row) : aquestion :=
  mk_aq (user_id u) (user_comment u) (abs_answer <$> select_answers_of d (user_id u)).

Definition abs (d : db) : astore := abs_question d <$> users d.

#[export] Instance fk_ok_dec d : Decision (fk_ok d).
Proof. unfold fk_ok. apply _. Defined.

(** The nested model a store represents: none when an answer row names no
    question, since a nested store has no place for an orphan answer. *)
Definition abs_opt (d : db) : option astore :=
  if bool_decide (fk_ok d) then Some (abs d) else None.

(** Request [r] on [d], at the level of statements, is a step of the
    contract seen through [abs]. *)
Definition simulates (d : db) (r : request) : Prop :=
  astep (abs d) r (direct d r).1 (abs (direct d r).2).

(** ** Ids and lookups *)

Lemma question_ids_abs d : question_ids (abs d) = keys user_id (users d).
Proof. unfold question_ids, abs, keys. by rewrite <-list_fmap_compose. Qed.

Lemma a_find_q_abs d k : a_find_q (abs d) k = abs_question d <$> select_user d k.
Proof. by apply find_key_fmap. Qed.

Lemma abs_answer_ids d u :
  fst <$> aq_answers (abs_question d u) = keys answer_id (select_answers_of d (user_id u)).
Proof. simpl. unfold keys. by rewrite <-list_fmap_compose. Qed.

Lemma answer_ids_abs d k :
  fk_ok d -> k ∈ answer_ids (abs d) <-> k ∈ keys answer_id (answers d).
Proof.
  intros Hfk. unfold answer_ids. rewrite list_elem_of_bind. split.
  - intros (q & Hk & (u & -> & Hu)%list_elem_of_fmap). rewrite abs_answer_ids in Hk.
    eapply elem_of_sublist; [exact Hk | apply fmap_filter_sublist].
  - intros (a & -> & Ha)%list_elem_of_fmap.
    unfold fk_ok in Hfk. rewrite Forall_forall in Hfk.
    destruct (list_elem_of_fmap_1 _ _ _ (Hfk a Ha)) as (u & Hq & Hu).
    exists (abs_question d u). split; [|by apply list_elem_of_fmap_2].
    rewrite abs_answer_ids. apply list_elem_of_fmap_2, list_elem_of_filter. by split.
Qed.

Lemma find_abs_answer d uid k :
  keys_sorted answer_id (answers d) ->
  find_key fst k (abs_answer <$> select_answers_of d uid) =
  abs_answer <$> match select_answer d k with
                 | Some a => if decide (answer_qid a = uid) then Some a else None
                 | None => None
                 end.
Proof.
  intros Hs. rewrite (find_key_fmap answer_id) by done.
  unfold select_answers_of, select_answer. by rewrite find_key_filter.
Qed.

Lemma a_find_a_abs_users d us k :
  keys_sorted answer_id (answers d) ->
  a_find_a (abs_question d <$> us) k =
  match select_answer d k with
  | Some a => if decide (answer_qid a ∈ keys user_id us)
              then Some (answer_text a, answer_qid a) else None
  | None => None
  end.
Proof.
  intros Hs. induction us as [|u us IH]; rewrite ?fmap_cons; cbn [a_find_a].
  - destruct (select_answer d k); [|done]. rewrite decide_False; [done | apply not_elem_of_nil].
  - change (aq_answers (abs_question d u)) with (abs_answer <$> select_answers_of d (user_id u)).
    change (aq_id (abs_question d u)) with (user_id u).
    rewrite find_abs_answer, IH by done. unfold keys. rewrite fmap_cons.
    destruct (select_answer d k) as [a|]; [|done].
    destruct (decide (answer_qid a = user_id u)) as [Hq|Hq]; simpl.
    + rewrite decide_True; [by rewrite Hq | rewrite elem_of_cons; by left].
    + destruct (decide (answer_qid a ∈ user_id <$> us)) as [Hin|Hin];
        [rewrite decide_True | rewrite decide_False]; try done; rewrite elem_of_cons; naive_solver.
Qed.

Lemma a_find_a_abs d k :
  wf_db d -> a_find_a (abs d) k = (fun a => (answer_text a, answer_qid a)) <$> select_answer d k.
Proof.
  intros Hwf. unfold abs. rewrite a_find_a_abs_users by auto with dsa.
  destruct (select_answer d k) as [a|] eqn:Ha; [|done].
  apply select_answer_Some in Ha as [Ha _]. rewrite decide_True; [done|].
  pose proof (wf_fk_ok d Hwf) as Hfk. unfold fk_ok in Hfk. rewrite Forall_forall in Hfk. auto.
Qed.

(** ** Rendering *)

Lemma render_abs_question d u : render_question (abs_question d u) = dump_user d u.
Proof.
  unfold render_question, dump_user. simpl. rewrite <-list_fmap_compose.
  erewrite (fmap_ext_in _ dump_answer); [done|].
  intros a [Hq _]%list_elem_of_filter. unfold render_answer, dump_answer.
  simpl. by rewrite Hq.
Qed.

Lemma render_abs d : JArr (render_question <$> abs d) = dump_users d.
Proof.
  unfold abs, dump_users. rewrite <-list_fmap_compose. f_equal.
  apply fmap_ext_in. intros u _. apply render_abs_question.
Qed.

(** ** Each statement, seen through [abs] *)

Lemma abs_same_answers us d : abs (mk_db us (answers d)) = abs_question d <$> us.
Proof. reflexivity. Qed.

(** A question with a new id has no answers. *)
Lemma abs_question_new d us id c :
  fk_ok d -> id ∉ keys user_id (users d) ->
  abs_question (mk_db us (answers d)) (mk_user id c) = mk_aq id c [].
Proof.
  intros Hfk Hid. unfold abs_question.
  change (select_answers_of (mk_db us (answers d)) ?q) with (select_answers_of d q).
  by rewrite select_answers_of_absent.
Qed.

Lemma abs_insert_user d id c :
  fk_ok d -> id ∉ keys user_id (users d) ->
  abs (mk_db (users d ++ [mk_user id c]) (answers d)) = a_add_question (abs d) id c.
Proof.
  intros Hfk Hid. rewrite abs_same_answers, fmap_app. unfold a_add_question, abs. f_equal.
  simpl. change (abs_question d ?u) with (abs_question (mk_db (users d) (answers d)) u).
  by rewrite abs_question_new.
Qed.

Lemma abs_insert_answer d id t q :
  abs (mk_db (users d) (answers d ++ [mk_answer id t q])) = a_add_answer (abs d) q id t.
Proof.
  unfold abs, a_add_answer, update_key. rewrite <-list_fmap_compose. apply fmap_ext_in.
  intros u _. unfold abs_question, select_answers_of. simpl.
  rewrite filter_app, filter_cons, filter_nil, fmap_app. simpl.
  destruct (decide (user_id u = q)) as [<-|Hne].
  - by rewrite !decide_True.
  - rewrite !decide_False by congruence. by rewrite app_nil_r.
Qed.

Lemma abs_update_user_comment d k c :
  abs (update_user_comment d k c) = a_set_comment (abs d) k c.
Proof.
  unfold update_user_comment. rewrite abs_same_answers. unfold a_set_comment, abs.
  by apply (update_key_fmap user_id aq_id (abs_question d)).
Qed.

Lemma abs_delete_question d k : abs (delete_question d k) = a_delete_question (abs d) k.
Proof.
  unfold a_delete_question, abs. rewrite <-(delete_key_fmap user_id aq_id (abs_question d)) by done.
  apply fmap_ext_in. intros u [Hu _]%list_elem_of_filter.
  unfold abs_question, select_answers_of. simpl. rewrite list_filter_filter.
  do 3 f_equal. apply filter_ext_in. naive_solver.
Qed.

Lemma abs_delete_answer_row d k :
  abs (delete_answer_row d k) = a_delete_answer (abs d) k.
Proof.
  unfold abs, a_delete_answer, a_map_answers. rewrite <-list_fmap_compose. apply fmap_ext_in.
  intros u _. unfold abs_question, select_answers_of. simpl.
  rewrite <-(delete_key_fmap answer_id fst abs_answer) by done. unfold delete_key.
  rewrite !list_filter_filter. do 3 f_equal. apply filter_ext_in. naive_solver.
Qed.

Lemma abs_update_answer_text d k t :
  abs (update_answer_text d k t) = a_set_answer (abs d) k t.
Proof.
  unfold abs, a_set_answer, a_map_answers. rewrite <-list_fmap_compose. apply fmap_ext_in.
  intros u _. unfold abs_question, select_answers_of. simpl.
  rewrite filter_update_key by done. f_equal.
  by apply (update_key_fmap answer_id fst abs_answer).
Qed.

(** ** The handlers simulate the contract *)

Lemma bind_int_param_cases z :
  (bind_int_param z = Ok z /\ in_range z) \/ (bind_int_param z = Raise OverflowError /\ ~ in_range z).
Proof.
  unfold bind_int_param, in_range. destruct (in_int64 z) eqn:E; [left | right];
    [rewrite in_int64_spec in E | rewrite <-not_true_iff_false, in_int64_spec in E]; done.
Qed.

(** A failed rowid allocation means the largest rowid is in use. *)
Lemma max_key_full {R} (key : R -> Z) rows :
  rowids_in_range key rows -> INT64_MAX <= max_key key rows -> INT64_MAX ∈ keys key rows.
Proof.
  intros Hr Hm. assert (0 < max_key key rows) as Hpos by (unfold INT64_MAX in *; lia).
  pose proof (max_key_attained key rows Hpos) as Hin.
  unfold rowids_in_range in Hr. rewrite Forall_forall in Hr.
  specialize (Hr _ Hin). by replace INT64_MAX with (max_key key rows) by lia.
Qed.

Lemma fresh_succ_max {R} (key : R -> Z) rows :
  max_key key rows < INT64_MAX -> fresh_id (keys key rows) (max_key key rows + 1).
Proof. intros Hm. split; [apply max_key_succ_fresh|]. pose proof (max_key_nonneg key rows). lia. Qed.

Section simulation.
Context (d : db) (Hwf : wf_db d).

Ltac path_cases id :=
  destruct (bind_int_param_cases id) as [[Hb Hr]|[Hb Hr]]; rewrite Hb;
  [|by apply (as_bad_path _ _ id)].

Lemma sim_add b : simulates d (ReqAdd b).
Proof.
  unfold simulates, direct.
  destruct (post_value "comment" b) as [c|e] eqn:Hb; [|by apply as_add_bad].
  pose proof (wf_fk_ok d Hwf) as Hfk.
  destruct (insert_user d c) as [[id d']|e] eqn:Hi.
  - apply insert_user_ok in Hi as (Hmax & -> & ->). simpl.
    rewrite abs_insert_user, <-render_abs_question, abs_question_new
      by auto using max_key_succ_fresh.
    apply as_add; [done|]. rewrite question_ids_abs. by apply fresh_succ_max.
  - apply insert_user_raise in Hi as [-> Hm]. apply (as_add_full _ _ c); [done|].
    rewrite question_ids_abs. apply max_key_full; [apply Hwf | done].
Qed.

Lemma sim_home : simulates d ReqHome.
Proof. unfold simulates. simpl. rewrite <-render_abs. apply as_home. Qed.

Lemma sim_delete id : simulates d (ReqDelete id).
Proof.
  unfold simulates, direct. path_cases id.
  destruct (select_user d id) as [u|] eqn:Hu; simpl.
  - rewrite abs_delete_question. apply (as_delete _ _ (abs_question d u)); [done|].
    by rewrite a_find_q_abs, Hu.
  - apply (as_question_missing _ _ id); [done | done |]. by rewrite a_find_q_abs, Hu.
Qed.

Lemma sim_update id b : simulates d (ReqUpdate id b).
Proof.
  unfold simulates, direct. path_cases id.
  destruct (select_user d id) as [u|] eqn:Hu; simpl;
    [|apply (as_question_missing _ _ id); [done | done | by rewrite a_find_q_abs, Hu]].
  assert (a_find_q (abs d) id = Some (abs_question d u)) as Hq by (by rewrite a_find_q_abs, Hu).
  pose proof (select_user_Some _ _ _ Hu) as [_ Hid].
  destruct (patch_value "comment" b) as [[c|]|e] eqn:Hp; simpl.
  - rewrite abs_update_user_comment, <-render_abs_question.
    change (abs_question (update_user_comment d id c) ?u) with (abs_question d u).
    replace (abs_question d (mk_user id c)) with (mk_aq id c (aq_answers (abs_question d u)))
      by (unfold abs_question; simpl; by rewrite Hid).
    by eapply as_update.
  - rewrite <-render_abs_question. by eapply as_update_keep.
  - by eapply as_update_bad.
Qed.

Lemma sim_add_answer q b : simulates d (ReqAddAnswer q b).
Proof.
  unfold simulates, direct. path_cases q.
  destruct (select_user d q) as [u|] eqn:Hu; simpl;
    [|apply (as_question_missing _ _ q); [done | done | by rewrite a_find_q_abs, Hu]].
  assert (a_find_q (abs d) q = Some (abs_question d u)) as Hq by (by rewrite a_find_q_abs, Hu).
  pose proof (wf_fk_ok d Hwf) as Hfk.
  destruct (post_value "answer" b) as [t|e] eqn:Hp; simpl; [|by eapply as_add_answer_bad].
  destruct (insert_answer d t q) as [[id d']|e] eqn:Hi; simpl.
  - apply insert_answer_ok in Hi as (Hmax & -> & ->).
    rewrite abs_insert_answer. eapply as_add_answer; [done | done | done |].
    destruct (fresh_succ_max answer_id (answers d) Hmax) as [Hf Hrange].
    split; [by rewrite answer_ids_abs | done].
  - apply insert_answer_raise in Hi as [-> Hm]. eapply as_add_answer_full; [done | done | done |].
    rewrite answer_ids_abs by done. apply max_key_full; [apply Hwf | done].
Qed.

Lemma sim_delete_answer id : simulates d (ReqDeleteAnswer id).
Proof.
  unfold simulates, direct. path_cases id.
  destruct (select_answer d id) as [a|] eqn:Ha; simpl.
  - rewrite abs_delete_answer_row.
    apply (as_delete_answer _ _ (answer_text a) (answer_qid a)); [done|].
    by rewrite a_find_a_abs, Ha.
  - apply (as_answer_missing _ _ id); [done | done |]. by rewrite a_find_a_abs, Ha.
Qed.

Lemma sim_update_answer id b : simulates d (ReqUpdateAnswer id b).
Proof.
  unfold simulates, direct. path_cases id.
  destruct (select_answer d id) as [a|] eqn:Ha; simpl;
    [|apply (as_answer_missing _ _ id); [done | done | by rewrite a_find_a_abs, Ha]].
  assert (a_find_a (abs d) id = Some (answer_text a, answer_qid a)) as Hf
    by (by rewrite a_find_a_abs, Ha).
  pose proof (select_answer_Some _ _ _ Ha) as [_ Hid].
  destruct (patch_value "answer" b) as [[t|]|e] eqn:Hp; simpl.
  - rewrite abs_update_answer_text. by eapply as_update_answer.
  - replace (dump_answer a) with (render_answer id (answer_text a) (answer_qid a))
      by (unfold render_answer, dump_answer; by rewrite Hid).
    by eapply as_update_answer_keep.
  - by eapply as_update_answer_bad.
Qed.
End simulation.

Lemma direct_sim d r : wf_db d -> astep (abs d) r (direct d r).1 (abs (direct d r).2).
Proof.
  intros Hwf. destruct r;
    [apply sim_add | apply sim_home | apply sim_delete | apply sim_update
    | apply sim_add_answer | apply sim_delete_answer | apply sim_update_answer]; done.
Qed.

(** C3: Refinement: on a store satisfying the invariant, every request
    served by the handlers gives a response and a new store that the
    ownership contract allows: the new store still represents a nested
    model (no answer row is left without its question) and the step from
    the old model to it with that response is one [astep] allows.  The two
    tables with the cascade implement the nested model of questions owning
    their answers. *)
Theorem serve_refines d r :
  wf_db d -> abs_opt d = Some (abs d) /\
  exists a', abs_opt (serve d r).2 = Some a' /\ astep (abs d) r (serve d r).1 a'.
Proof.
  intros Hwf. unfold abs_opt.
  rewrite (bool_decide_eq_true_2 (fk_ok d)) by (by apply wf_fk_ok). split; [done|].
  destruct r; to_direct; rewrite bool_decide_eq_true_2 by (apply wf_fk_ok, direct_wf, Hwf);
    (eexists; split; [done | by apply direct_sim]).
Qed.

Lemma serve_refines_witness :
  wf_db sample_db /\ abs_opt sample_db = Some (abs sample_db) /\
  exists a', abs_opt (serve sample_db (ReqDelete 1)).2 = Some a' /\
    astep (abs sample_db) (ReqDelete 1) (serve sample_db (ReqDelete 1)).1 a'.
Proof.
  assert (wf_db sample_db) as Hwf by (apply (bool_decide_unpack _); vm_compute; reflexivity).
  exact (conj Hwf (serve_refines sample_db (ReqDelete 1) Hwf)).
Defined.

(** The store invariant makes the nested view well formed: question
    ids are distinct, answer ids are distinct across all questions (every
    answer is owned by exactly one question), and all are in [1, 2^63-1]. *)
Theorem abs_wf d : wf_db d -> a_wf (abs d).
Proof.
  intros Hwf. pose proof Hwf as (Hsu & Hsa & Hru & Hra & Hfk). split.
  - rewrite question_ids_abs. split; [by apply keys_sorted_NoDup | done].
  - split.
    + apply NoDup_bind.
      * intros q1 q2 y (u1 & -> & Hu1)%list_elem_of_fmap (u2 & -> & Hu2)%list_elem_of_fmap Hy1 Hy2.
        rewrite abs_answer_ids in Hy1, Hy2.
        apply list_elem_of_fmap in Hy1 as (a1 & -> & [Hq1 Ha1]%list_elem_of_filter).
        apply list_elem_of_fmap in Hy2 as (a2 & Hk & [Hq2 Ha2]%list_elem_of_filter).
        rewrite (keys_sorted_inj answer_id (answers d) a1 a2) in Hq1 by done.
        by rewrite (keys_sorted_inj user_id (users d) u1 u2) by congruence.
      * intros q (u & -> & Hu)%list_elem_of_fmap. rewrite abs_answer_ids.
        apply keys_sorted_NoDup. unfold select_answers_of. by apply keys_sorted_filter.
      * apply NoDup_fmap_2_strong.
        -- intros u1 u2 Hu1 Hu2 Heq. apply (f_equal aq_id) in Heq.
           by apply (keys_sorted_inj user_id (users d)).
        -- by apply (NoDup_fmap_1 user_id), keys_sorted_NoDup.
    + apply Forall_forall. intros k Hk%answer_ids_abs; [|done].
      unfold rowids_in_range in Hra. rewrite Forall_forall in Hra. auto.
Qed.

Lemma abs_wf_witness : wf_db sample_db /\ a_wf (abs sample_db).
Proof.
  assert (wf_db sample_db) as Hwf by (apply (bool_decide_unpack _); vm_compute; reflexivity).
  exact (conj Hwf (abs_wf sample_db Hwf)).
Defined.

(** Every store the program reaches from a fresh database, read
    through [abs], is reached by the ownership contract from the empty
    nested store: every run of the implementation is a run of the
    contract. *)
Theorem reachable_refines n d : reachable n d -> areach (abs d).
Proof.
  intros Hr. cut (wf_db d /\ areach (abs d)); [by intros []|].
  induction Hr as [|n d r _ [Hwf Ha]].
  - split; [by split_and!; repeat constructor | apply areach_nil].
  - destruct r; to_direct;
      (split; [by apply direct_wf | eapply areach_step; [exact Ha | by apply direct_sim]]).
Qed.

Lemma reachable_refines_witness :
  reachable 1 (serve empty_db (ReqAdd (BodyJson (JObj [("comment", JStr "Why?")])))).2 /\
  areach (abs (serve empty_db (ReqAdd (BodyJson (JObj [("comment", JStr "Why?")])))).2).
Proof.
  assert (reachable 1 (serve empty_db (ReqAdd (BodyJson (JObj [("comment", JStr "Why?")])))).2)
    as Hr by (apply reach_step, reach_init).
  exact (conj Hr (reachable_refines _ _ Hr)).
Defined.
