(* ===== verification/Scenario.v ===== *)
(** * The scenario of the specification, replayed

    The request sequence of the specification's example, extended with an
    edit, a listing and a new question, run from an empty store through the
    full session-level handlers and evaluated by the kernel. *)

From S2P Require Import Prelude PyJson Sqlite Store Session Schema Handlers Direct Invariant Behaviour.

Local Open Scope string_scope.

Definition scenario : list request :=
  [ ReqAdd (BodyJson (JObj [("comment", JStr "Is the sky blue?")]));
    ReqAddAnswer 1 (BodyJson (JObj [("answer", JStr "Yes")]));
    ReqUpdateAnswer 1 (BodyJson (JObj [("answer", JStr "Yes, by day")]));
    ReqHome;
    ReqDelete 1;
    ReqUpdateAnswer 1 (BodyJson (JObj [("answer", JStr "No")]));
    ReqAdd (BodyJson (JObj [("comment", JStr "Again?")])) ].

(** From an empty store, asking a question, answering it, editing the
    answer, listing, deleting the question, then editing its answer and
    asking again gives, in order: the question with id 1, the answer with id
    1, the edited answer, the list with the question and its answer, the
    deletion message, a 404 for the answer removed by the cascade, and a new
    question that gets id 1 again; the store ends with just that question. *)
Example scenario_responses :
  serve_all empty_db scenario =
  ([ jsonify (question_json 1 "Is the sky blue?");
     jsonify (JObj [("id", JInt 1); ("answer", JStr "Yes"); ("question_id", JInt 1)]);
     jsonify (JObj [("id", JInt 1); ("answer", JStr "Yes, by day"); ("question_id", JInt 1)]);
     jsonify (JArr [JObj [("id", JInt 1); ("comment", JStr "Is the sky blue?");
                          ("answers", JArr [JObj [("id", JInt 1); ("answer", JStr "Yes, by day");
                                                  ("question_id", JInt 1)]])]]);
     deleted "Question deleted successfully" 1;
     not_found "Answer not found";
     jsonify (question_json 1 "Again?") ],
   mk_db [mk_user 1 "Again?"] []).
Proof. vm_compute. reflexivity. Qed.
